(** * forensic_carver: a signature-based file carver (JPEG / PDF / ZIP)

    Shallow embedding of [forensic_carver.py] and a verification of
    properties of its format plugins and of its scanning pipeline.

    Conventions of the embedding.
    - A buffer ([mmap.mmap] or [bytes]) is a [list byte].
    - Python integers are [Z]; the sentinel [-1] of [find]/[rfind] and of the
      footer locators is kept as it is in the code.
    - Slicing and the [start]/[end] arguments of [find] follow CPython's
      index normalisation (negative indices count from the end, everything is
      clamped to the length).
    - The three effects of the scanner (calls of a validator, files written,
      records appended) are logged in an explicit state.
    - Exceptions are a result constructor; the two [while] loops take fuel,
      and running out of it is a third, separate result. *)

From Stdlib Require Import ZArith Lia List Ascii String HexString.
From Stdlib.Strings Require Import Byte.
From stdpp Require Import base list gmap strings.

Open Scope Z_scope.

(** ** Byte views *)

Abbreviation bytes := (list byte) (only parsing).

#[global] Instance byte_eq_decision : EqDecision byte := Byte.byte_eq_dec.

(** [len(buf)] *)
Definition len (b : bytes) : Z := Z.of_nat (length b).

(** CPython's normalisation of one slice bound against a length [n]. *)
Definition clamp_index (n i : Z) : Z :=
  if i <? 0 then Z.max (i + n) 0 else Z.min i n.

(** [b[lo:hi]] *)
Definition slice (b : bytes) (lo hi : Z) : bytes :=
  let lo' := clamp_index (len b) lo in
  let hi' := clamp_index (len b) hi in
  take (Z.to_nat (hi' - lo')) (drop (Z.to_nat lo') b).

(** [b.startswith(sub)] *)
Fixpoint startswith (b sub : bytes) : bool :=
  match sub, b with
  | [], _ => true
  | _ :: _, [] => false
  | x :: sub', y :: b' => Byte.eqb x y && startswith b' sub'
  end.

(** [b.endswith(sub)] *)
Definition endswith (b sub : bytes) : bool :=
  (length sub <=? length b)%nat &&
  startswith (drop (length b - length sub)%nat b) sub.

(** [b.find(sub)]: index of the first occurrence, or [-1]. *)
Fixpoint find (b sub : bytes) : Z :=
  if startswith b sub then 0
  else match b with
       | [] => -1
       | _ :: b' => let r := find b' sub in if r =? -1 then -1 else 1 + r
       end.

(** [b.rfind(sub)]: index of the last occurrence, or [-1]. *)
Fixpoint rfind (b sub : bytes) : Z :=
  match b with
  | [] => if startswith b sub then 0 else -1
  | _ :: b' =>
      let r := rfind b' sub in
      if r =? -1 then (if startswith b sub then 0 else -1) else 1 + r
  end.

(** [b.find(sub, start, end)]: first occurrence that lies inside
    [b[start:end]], as an index of [b].  (For the non-empty needles of this
    program [mmap.find] and [bytes.find] agree.) *)
Definition find_range (b sub : bytes) (start end_ : Z) : Z :=
  let s := clamp_index (len b) start in
  let r := find (slice b start end_) sub in
  if r =? -1 then -1 else s + r.

(** [b.find(sub, start)] *)
Definition find_from (b sub : bytes) (start : Z) : Z :=
  find_range b sub start (len b).

(** [sub in b] *)
Definition contains (sub b : bytes) : bool := negb (find b sub =? -1).

(** ** Byte-string helpers used by the PDF validator *)

Definition is_space (x : byte) : bool :=
  match x with
  | x20 | x09 | x0a | x0d | x0b | x0c => true
  | _ => false
  end.

Fixpoint lstrip (b : bytes) : bytes :=
  match b with
  | x :: b' => if is_space x then lstrip b' else b
  | [] => []
  end.

(** [b.strip()] *)
Definition strip (b : bytes) : bytes := rev (lstrip (rev (lstrip b))).

(** [b.splitlines()]: split at LF, CR and CRLF; no empty last line. *)
Fixpoint splitlines_from (cur b : bytes) : list bytes :=
  match b with
  | [] => match cur with [] => [] | _ => [rev cur] end
  | x0a :: b' => rev cur :: splitlines_from [] b'
  | x0d :: b' =>
      match b' with
      | x0a :: b'' => rev cur :: splitlines_from [] b''
      | _ => rev cur :: splitlines_from [] b'
      end
  | x :: b' => splitlines_from (x :: cur) b'
  end.

Definition splitlines (b : bytes) : list bytes := splitlines_from [] b.

Definition digit_value (x : byte) : option Z :=
  match x with
  | x30 => Some 0 | x31 => Some 1 | x32 => Some 2 | x33 => Some 3
  | x34 => Some 4 | x35 => Some 5 | x36 => Some 6 | x37 => Some 7
  | x38 => Some 8 | x39 => Some 9
  | _ => None
  end.

(** Digits with single underscores between them. *)
Fixpoint parse_digits (b : bytes) (acc : Z) (after_digit : bool) : option Z :=
  match b with
  | [] => if after_digit then Some acc else None
  | x :: b' =>
      match digit_value x with
      | Some d => parse_digits b' (10 * acc + d) true
      | None =>
          if Byte.eqb x x5f && after_digit then parse_digits b' acc false
          else None
      end
  end.

(** [int(b)] in base 10; [None] stands for [ValueError]. *)
Definition py_int (b : bytes) : option Z :=
  match strip b with
  | x2d :: ds => Z.opp <$> parse_digits ds 0 false
  | x2b :: ds => parse_digits ds 0 false
  | ds => parse_digits ds 0 false
  end.

(** ** Little-endian fields *)

Definition byte_val (x : byte) : Z := Z.of_N (Byte.to_N x).

Definition le16 (b0 b1 : byte) : Z :=
  Z.lor (byte_val b0) (Z.shiftl (byte_val b1) 8).

Definition le32 (b0 b1 b2 b3 : byte) : Z :=
  Z.lor (le16 b0 b1) (Z.shiftl (le16 b2 b3) 16).

(** ** Names *)

Fixpoint zero_pad (n : nat) (s : string) : string :=
  match n with
  | O => s
  | S n' => zero_pad n' (String "0"%char s)
  end.

(** [f"{h:0{width}x}"] for [h >= 0]. *)
Definition hex (width : nat) (h : Z) : string :=
  let digits :=
    match h with
    | Zpos p => HexString.Raw.of_pos p EmptyString
    | _ => "0"%string
    end in
  zero_pad (width - String.length digits) digits.

(** ** Carve records *)

Module CarveRecord.
Record t := mk {
  fmt : string;
  start : Z;
  end_ : Z;
  size : Z;
  out_path : string;
  validated : bool;
  embedded_parent : option string;
  notes : option string
}.
End CarveRecord.

(** ** Format plugins *)

Module FormatPlugin.
(** The interface of the class [FormatPlugin]; a plugin object is a
    value of this record. *)
Record t := mk {
  fmt : string;
  headers : list bytes;
  find_footer : bytes -> Z -> Z -> Z;
  validate : bytes -> bool;
  fragmented_try_bridge : bytes -> Z -> Z -> Z -> Z
}.

(** [candidate_name] is inherited by the three plugins. *)
Definition candidate_name (self : t) (buf : bytes) (h_off : Z) : string :=
  (fmt self ++ "_" ++ hex 12 h_off)%string.
End FormatPlugin.

Module JPEGPlugin.
Definition fmt : string := "jpeg".
Definition SOI : bytes := [xff; xd8].
Definition EOI : bytes := [xff; xd9].

Definition headers : list bytes := [SOI].

Definition find_footer (buf : bytes) (h_off max_scan : Z) : Z :=
  let start := h_off + 2 in
  let end_search := Z.min (len buf) (h_off + max_scan) in
  let eoi := find_range buf EOI start end_search in
  if negb (eoi =? -1) then eoi + 2 else -1.

Definition validate (data : bytes) : bool :=
  if negb (startswith data SOI && endswith data EOI) then false
  else contains [xff; xda] data.

Definition fragmented_try_bridge
    (buf : bytes) (h_off max_span chunk_size : Z) : Z :=
  let end_search := Z.min (len buf) (h_off + max_span) in
  let scan := slice buf h_off end_search in
  let pos := find scan EOI in
  if negb (pos =? -1) then h_off + pos + 2 else -1.

Definition plugin : FormatPlugin.t :=
  FormatPlugin.mk fmt headers find_footer validate fragmented_try_bridge.
End JPEGPlugin.

Module PDFPlugin.
Definition fmt : string := "pdf".
Definition EOF : bytes := Eval cbv in list_byte_of_string "%%EOF".
Definition PDF_MAGIC : bytes := Eval cbv in list_byte_of_string "%PDF-".
Definition STARTXREF : bytes := Eval cbv in list_byte_of_string "startxref".

Definition headers : list bytes := [PDF_MAGIC].

Definition find_footer (buf : bytes) (h_off max_scan : Z) : Z :=
  let end_search := Z.min (len buf) (h_off + max_scan) in
  let window := slice buf h_off end_search in
  let last := rfind window EOF in
  if last =? -1 then -1
  else h_off + last + len EOF.

(** The body of the [try] block of [validate]: [None] is a raised
    exception ([IndexError] of [splitlines()[1]] or [ValueError] of
    [int]). *)
Definition startxref_pointer (tail : bytes) : option Z :=
  let idx := rfind tail STARTXREF in
  line ← splitlines (slice tail idx (len tail)) !! 1%nat;
  py_int (strip line).

Definition validate (data : bytes) : bool :=
  if negb (startswith data PDF_MAGIC) then false
  else if negb (contains EOF data) then false
  else
    let tail := slice data (-2048) (len data) in
    if contains STARTXREF tail then
      match startxref_pointer tail with
      | Some _ => true
      | None => true
      end
    else true.

Definition fragmented_try_bridge
    (buf : bytes) (h_off max_span chunk_size : Z) : Z :=
  let end_search := Z.min (len buf) (h_off + max_span) in
  let window := slice buf h_off end_search in
  let pos := find window EOF in
  if negb (pos =? -1) then h_off + pos + len EOF else -1.

Definition plugin : FormatPlugin.t :=
  FormatPlugin.mk fmt headers find_footer validate fragmented_try_bridge.
End PDFPlugin.

Module ZIPPlugin.
Definition fmt : string := "zip".
Definition LFH : bytes := ["P"%byte; "K"%byte; x03; x04].
Definition EOCD : bytes := ["P"%byte; "K"%byte; x05; x06].
Definition EOCD64_LOC : bytes := ["P"%byte; "K"%byte; x06; x07].
Definition EOCD64 : bytes := ["P"%byte; "K"%byte; x06; x06].

Definition headers : list bytes := [LFH].

(** The tuple [struct.unpack("<4sHHHHIIH", view)]. *)
Record eocd_fields := {
  signature : bytes;
  disk_number : Z;
  cd_disk : Z;
  disk_entries : Z;
  total_entries : Z;
  cd_size : Z;
  cd_offset : Z;
  comment_length : Z
}.

(** [None] is [struct.error]: the view is not exactly 22 bytes long. *)
Definition unpack_eocd (view : bytes) : option eocd_fields :=
  match view with
  | [s0; s1; s2; s3; a0; a1; b0; b1; c0; c1; d0; d1;
     e0; e1; e2; e3; f0; f1; f2; f3; g0; g1] =>
      Some {| signature := [s0; s1; s2; s3];
              disk_number := le16 a0 a1;
              cd_disk := le16 b0 b1;
              disk_entries := le16 c0 c1;
              total_entries := le16 d0 d1;
              cd_size := le32 e0 e1 e2 e3;
              cd_offset := le32 f0 f1 f2 f3;
              comment_length := le16 g0 g1 |}
  | _ => None
  end.

Definition _parse_eocd_end
    (buf : bytes) (eocd_off_abs end_search_abs : Z) : Z :=
  if eocd_off_abs + 22 >? end_search_abs then eocd_off_abs + 22
  else
    let view := slice buf eocd_off_abs (eocd_off_abs + 22) in
    match unpack_eocd view with
    | Some fields =>
        let comlen := comment_length fields in
        let end_ := eocd_off_abs + 22 + comlen in
        Z.min end_ (len buf)
    | None => eocd_off_abs + 22
    end.

Definition find_footer (buf : bytes) (h_off max_scan : Z) : Z :=
  let end_search := Z.min (len buf) (h_off + max_scan) in
  let window := slice buf h_off end_search in
  let pos64loc := rfind window EOCD64_LOC in
  let pos64 := rfind window EOCD64 in
  let poseocd := rfind window EOCD in
  if negb (pos64loc =? -1) && negb (pos64 =? -1) then
    if negb (poseocd =? -1) && (poseocd >? pos64) then h_off + poseocd + 22
    else h_off + pos64 + 56
  else if negb (poseocd =? -1) then
    let abs_pos := h_off + poseocd in
    _parse_eocd_end buf abs_pos end_search
  else -1.

Definition validate (data : bytes) : bool :=
  contains LFH data &&
  (contains EOCD data || contains EOCD64 data || contains EOCD64_LOC data).

(** The [for sig in (EOCD, EOCD64_LOC, EOCD64)] loop of the bridge. *)
Fixpoint bridge_sigs (sigs : list bytes)
    (buf window : bytes) (h_off end_search : Z) : Z :=
  match sigs with
  | [] => -1
  | sig :: sigs' =>
      let pos := find window sig in
      if negb (pos =? -1) then
        if bool_decide (sig = EOCD)
        then _parse_eocd_end buf (h_off + pos) end_search
        else h_off + pos + len sig
      else bridge_sigs sigs' buf window h_off end_search
  end.

Definition fragmented_try_bridge
    (buf : bytes) (h_off max_span chunk_size : Z) : Z :=
  let end_search := Z.min (len buf) (h_off + max_span) in
  let window := slice buf h_off end_search in
  bridge_sigs [EOCD; EOCD64_LOC; EOCD64] buf window h_off end_search.

Definition plugin : FormatPlugin.t :=
  FormatPlugin.mk fmt headers find_footer validate fragmented_try_bridge.
End ZIPPlugin.

(** ** Carver core *)

Definition FORMAT_PLUGINS : gmap string FormatPlugin.t :=
  <["jpeg"%string := JPEGPlugin.plugin]>
    (<["pdf"%string := PDFPlugin.plugin]>
       (<["zip"%string := ZIPPlugin.plugin]> ∅)).

Record CarveOptions := {
  out_dir : string;
  formats : list string;
  max_size : Z;
  embedded_depth : Z;
  fragmented : bool;
  chunk_size : Z;
  scan_windows : gmap string Z
}.

(** The default [scan_windows] of [CarveOptions]. *)
Definition default_scan_windows : gmap string Z :=
  <["jpeg"%string := 128 * 1024 * 1024]>
    (<["pdf"%string := 256 * 1024 * 1024]>
       (<["zip"%string := 256 * 1024 * 1024]> ∅)).

(** *** Results of effectful code *)

Inductive exn := KeyError | IndexError | StopIteration.

Inductive result (A : Type) :=
| Ok (a : A)
| Raise (e : exn)
| OutOfFuel.
Arguments Ok {A} a.
Arguments Raise {A} e.
Arguments OutOfFuel {A}.

#[global] Instance result_ret : MRet result := fun A a => Ok a.
#[global] Instance result_bind : MBind result := fun A B f m =>
  match m with
  | Ok a => f a
  | Raise e => Raise e
  | OutOfFuel => OutOfFuel
  end.

(** *** The state a run acts on

    [records] is [self.records]; [sink] lists the files written by
    [_emit_file] in the order of the writes; [validations] lists the calls
    of a plugin's [validate] with their argument. *)
Record CarverState := {
  records : list CarveRecord.t;
  sink : list (string * bytes);
  validations : list (FormatPlugin.t * bytes)
}.

Definition initial_state : CarverState :=
  {| records := []; sink := []; validations := [] |}.

Definition call_validate (plugin : FormatPlugin.t) (data : bytes)
    (st : CarverState) : bool * CarverState :=
  (FormatPlugin.validate plugin data,
   {| records := records st;
      sink := sink st;
      validations := validations st ++ [(plugin, data)] |}).

Definition append_record (rec : CarveRecord.t) (st : CarverState)
    : CarverState :=
  {| records := records st ++ [rec];
     sink := sink st;
     validations := validations st |}.

Definition extension (fmt : string) : string :=
  let table : gmap string string :=
    <["jpeg"%string := ".jpg"%string]>
      (<["pdf"%string := ".pdf"%string]>
         (<["zip"%string := ".zip"%string]> ∅)) in
  default ".bin"%string (table !! fmt).

(** [for x in xs: body], with the state threaded through. *)
Fixpoint for_each {A : Type} (xs : list A)
    (body : A -> CarverState -> result CarverState)
    (st : CarverState) : result CarverState :=
  match xs with
  | [] => Ok st
  | x :: xs' => st' ← body x st; for_each xs' body st'
  end.

(** [self]: the options and the plugin objects of a [Carver]. *)
Record Carver := {
  opts : CarveOptions;
  plugins : list FormatPlugin.t
}.

(** [Carver.__init__]: a format that is not registered raises [KeyError]. *)
Definition Carver_init (o : CarveOptions) : result Carver :=
  match mapM (fun f => FORMAT_PLUGINS !! f) (formats o) with
  | Some ps => Ok {| opts := o; plugins := ps |}
  | None => Raise KeyError
  end.

Section Scanning.
Variable self : Carver.

(** [self.opts.scan_windows.get(plugin.fmt, self.opts.max_size)] *)
Definition scan_window (plugin : FormatPlugin.t) : Z :=
  default (max_size (opts self))
          (scan_windows (opts self) !! FormatPlugin.fmt plugin).

Definition _emit_file (fmt name : string) (data : bytes)
    (st : CarverState) : string * CarverState :=
  let ext := extension fmt in
  let out_path :=
    (out_dir (opts self) ++ "/carved/" ++ name ++ ext)%string in
  (out_path,
   {| records := records st;
      sink := sink st ++ [(out_path, data)];
      validations := validations st |}).

(** The [while True] loop of [_scan_memory_for_embedded] for one plugin,
    entered with cursor [off]. *)
Fixpoint embedded_loop (fuel : nat) (plugin : FormatPlugin.t)
    (data : bytes) (parent_name : string) (off : Z) (st : CarverState)
    : result CarverState :=
  match fuel with
  | O => OutOfFuel
  | S fuel' =>
      match FormatPlugin.headers plugin with
      | [] => Raise StopIteration
      | magic :: _ =>
          let h := find_from data magic off in
          if h =? -1 then Ok st
          else
            let end_ :=
              FormatPlugin.find_footer plugin data h (scan_window plugin) in
            if negb (end_ =? -1) && (0 <? end_ - h)
               && (end_ - h <=? max_size (opts self))
            then
              let sub := slice data h end_ in
              let '(valid, st) := call_validate plugin sub st in
              let name :=
                (parent_name ++ "__" ++ FormatPlugin.fmt plugin ++ "_"
                 ++ hex 8 h)%string in
              let '(out_path, st) :=
                _emit_file (FormatPlugin.fmt plugin) name sub st in
              let rec :=
                CarveRecord.mk (FormatPlugin.fmt plugin) h end_ (end_ - h)
                  out_path valid (Some parent_name)
                  (Some "embedded"%string) in
              let st := append_record rec st in
              embedded_loop fuel' plugin data parent_name end_ st
            else embedded_loop fuel' plugin data parent_name (h + 1) st
      end
  end.

Definition _scan_memory_for_embedded (parent_plugin : FormatPlugin.t)
    (data : bytes) (depth : Z) (parent_name : string) (st : CarverState)
    : result CarverState :=
  for_each (plugins self)
    (fun plugin st =>
       if String.eqb (FormatPlugin.fmt plugin)
                     (FormatPlugin.fmt parent_plugin)
       then Ok st
       else embedded_loop (S (S (length data))) plugin data parent_name 0 st)
    st.

(** The [while off < total_len] loop of [_scan] for one plugin. *)
Fixpoint scan_loop (fuel : nat) (plugin : FormatPlugin.t) (buf : bytes)
    (embedded_source : option (string * bytes)) (depth : Z)
    (off : Z) (st : CarverState) : result CarverState :=
  match fuel with
  | O => OutOfFuel
  | S fuel' =>
      let total_len := len buf in
      let magic_list := FormatPlugin.headers plugin in
      if negb (off <? total_len) then Ok st
      else
        match magic_list with
        | [] => Raise IndexError
        | magic :: _ =>
            let h := find_from buf magic off in
            if h =? -1 then Ok st
            else
              let window := scan_window plugin in
              let end_ := FormatPlugin.find_footer plugin buf h window in
              let used_fragment := false in
              let '(end_, used_fragment) :=
                if (end_ =? -1) && fragmented (opts self) then
                  let end_ :=
                    FormatPlugin.fragmented_try_bridge plugin buf h window
                      (chunk_size (opts self)) in
                  (end_, negb (end_ =? -1))
                else (end_, used_fragment) in
              if negb (end_ =? -1) then
                let size := end_ - h in
                if (size <=? 0) || (size >? max_size (opts self)) then
                  scan_loop fuel' plugin buf embedded_source depth (h + 1) st
                else
                  let data := slice buf h end_ in
                  let '(valid, st) := call_validate plugin data st in
                  let name := FormatPlugin.candidate_name plugin buf h in
                  let '(out_path, st) :=
                    _emit_file (FormatPlugin.fmt plugin) name data st in
                  let rec :=
                    CarveRecord.mk (FormatPlugin.fmt plugin) h end_ size
                      out_path valid
                      (fst <$> embedded_source)
                      (if used_fragment
                       then Some "fragmented-bridge"%string else None) in
                  let st := append_record rec st in
                  st ← (if embedded_depth (opts self) >? depth
                        then _scan_memory_for_embedded plugin data
                               (depth + 1) name st
                        else Ok st);
                  scan_loop fuel' plugin buf embedded_source depth end_ st
              else
                scan_loop fuel' plugin buf embedded_source depth (h + 1) st
        end
  end.

Definition _scan (mm : bytes) (embedded_source : option (string * bytes))
    (depth : Z) (st : CarverState) : result CarverState :=
  let buf := mm in
  for_each (plugins self)
    (fun plugin st =>
       scan_loop (S (length buf)) plugin buf embedded_source depth 0 st)
    st.
End Scanning.

(** [Carver(image, opts).run()] on an image with contents [image]; the
    result is the state when [_scan] has returned. *)
Definition run (image : bytes) (o : CarveOptions) : result CarverState :=
  self ← Carver_init o;
  _scan self image None 0 initial_state.

(** * Specification vocabulary *)

(** [sub] occurs in [b] at index [n]. *)
Definition occ (b sub : bytes) (n : nat) : Prop :=
  take (length sub) (drop n b) = sub.

(** [sub] occurs in [b] at offset [p], and the occurrence lies inside the
    window [[lo, hi)]. *)
Definition occurs_within (b sub : bytes) (lo hi p : Z) : Prop :=
  lo <= p /\ p + len sub <= hi /\ occ b sub (Z.to_nat p).

Definition last_within (b sub : bytes) (lo hi p : Z) : Prop :=
  occurs_within b sub lo hi p /\
  forall q, occurs_within b sub lo hi q -> q <= p.

Definition first_within (b sub : bytes) (lo hi p : Z) : Prop :=
  occurs_within b sub lo hi p /\
  forall q, occurs_within b sub lo hi q -> p <= q.

(** ** Concrete inputs *)

Definition zeros (n : nat) : bytes := replicate n x00.

Definition foo_txt : bytes := Eval cbv in list_byte_of_string "foo.txt".

(** An EOCD record with comment length 7 and the comment [foo.txt]. *)
Definition eocd_with_comment : bytes :=
  ZIPPlugin.EOCD ++ zeros 16 ++ [x07; x00] ++ foo_txt.

(** A ZIP64 tail: local header, ZIP64 EOCD record and locator signatures,
    then the EOCD with its 7-byte comment; the EOCD is at offset 12. *)
Definition zip64_image : bytes :=
  ZIPPlugin.LFH ++ ZIPPlugin.EOCD64 ++ ZIPPlugin.EOCD64_LOC ++
  eocd_with_comment.

(** A classic archive tail: the EOCD is at offset 4. *)
Definition zip_comment_image : bytes := ZIPPlugin.LFH ++ eocd_with_comment.

(** ** Invariants of a run *)

(** [st] with further records, files and validator calls appended. *)
Definition extend (st : CarverState)
    (nr : list CarveRecord.t) (ns : list (string * bytes))
    (nv : list (FormatPlugin.t * bytes)) : CarverState :=
  {| records := records st ++ nr;
     sink := sink st ++ ns;
     validations := validations st ++ nv |}.

(** A record [r], the file [w] written for it and the validator call [v]
    made for it agree. *)
Definition record_ok (o : CarveOptions) (r : CarveRecord.t)
    (w : string * bytes) (v : FormatPlugin.t * bytes) : Prop :=
  0 < CarveRecord.size r <= max_size o /\
  CarveRecord.size r = CarveRecord.end_ r - CarveRecord.start r /\
  FORMAT_PLUGINS !! CarveRecord.fmt r = Some v.1 /\
  w = (CarveRecord.out_path r, v.2) /\
  CarveRecord.validated r = FormatPlugin.validate v.1 v.2.

(** A registered plugin whose first header is a non-empty needle. *)
Definition wf_plugin (p : FormatPlugin.t) : Prop :=
  FORMAT_PLUGINS !! FormatPlugin.fmt p = Some p /\
  exists magic rest, FormatPlugin.headers p = magic :: rest /\ magic <> [].

Definition top_level (r : CarveRecord.t) : Prop :=
  CarveRecord.embedded_parent r = None.

(** Top-level record of the plugin with format tag [f]. *)
Definition top_level_of (f : string) (r : CarveRecord.t) : Prop :=
  CarveRecord.fmt r = f /\ top_level r.

#[global] Instance top_level_dec r : Decision (top_level r).
Proof. unfold top_level. apply _. Defined.

#[global] Instance top_level_of_dec f r : Decision (top_level_of f r).
Proof. unfold top_level_of. apply _. Defined.

(** Records that follow a cursor: each starts at or after the cursor, is
    non-empty, and the next ones follow its end. *)
Fixpoint chain (off : Z) (l : list CarveRecord.t) : Prop :=
  match l with
  | [] => True
  | r :: l' =>
      off <= CarveRecord.start r /\
      CarveRecord.start r < CarveRecord.end_ r /\
      chain (CarveRecord.end_ r) l'
  end.

(** The records, files and validator calls that an embedded scan adds. *)
Definition embedded_batch (o : CarveOptions) (parent_name : string)
    (nr : list CarveRecord.t) (ns : list (string * bytes))
    (nv : list (FormatPlugin.t * bytes)) : Prop :=
  Forall3 (record_ok o) nr ns nv /\
  Forall (fun r => CarveRecord.embedded_parent r = Some parent_name) nr.

(** The records, files and validator calls that the loop of [_scan] adds for
    one plugin when it is entered with cursor [off]. *)
Definition top_batch (o : CarveOptions) (plugin : FormatPlugin.t) (off : Z)
    (nr : list CarveRecord.t) (ns : list (string * bytes))
    (nv : list (FormatPlugin.t * bytes)) : Prop :=
  Forall3 (record_ok o) nr ns nv /\
  chain off (filter top_level nr) /\
  Forall (fun r => top_level r ->
                   CarveRecord.fmt r = FormatPlugin.fmt plugin) nr.

(** ** Options and inputs of the scenarios *)

Definition with_embedded_depth (o : CarveOptions) (d : Z) : CarveOptions :=
  {| out_dir := out_dir o; formats := formats o; max_size := max_size o;
     embedded_depth := d; fragmented := fragmented o;
     chunk_size := chunk_size o; scan_windows := scan_windows o |}.

Definition with_fragmented (o : CarveOptions) (b : bool) (c : Z)
    : CarveOptions :=
  {| out_dir := out_dir o; formats := formats o; max_size := max_size o;
     embedded_depth := embedded_depth o; fragmented := b;
     chunk_size := c; scan_windows := scan_windows o |}.

(** The defaults of the command line, for the given formats. *)
Definition default_opts (fs : list string) : CarveOptions :=
  {| out_dir := "out"; formats := fs; max_size := 512 * 1024 * 1024;
     embedded_depth := 0; fragmented := false; chunk_size := 4096;
     scan_windows := default_scan_windows |}.

(** What the index shows of a record. *)
Definition summary (r : CarveRecord.t)
    : string * Z * Z * Z * option string * option string :=
  (CarveRecord.fmt r, CarveRecord.start r, CarveRecord.end_ r,
   CarveRecord.size r, CarveRecord.embedded_parent r, CarveRecord.notes r).

Definition summaries (res : result CarverState)
    : option (list (string * Z * Z * Z * option string * option string)) :=
  match res with
  | Ok st => Some (summary <$> records st)
  | _ => None
  end.

(** A PDF with an incremental update: two [%%EOF] markers, at offsets 5
    and 11. *)
Definition pdf_two_eof : bytes :=
  PDFPlugin.PDF_MAGIC ++ PDFPlugin.EOF ++ [x0a] ++ PDFPlugin.EOF.

(** A JPEG at offset 1: SOI, SOS, one byte of data, EOI. *)
Definition jpeg_sample : bytes :=
  [x00; xff; xd8; xff; xda; x11; xff; xd9; x00].

(** A local file header directly followed by an EOCD signature, and then
    the end of the image. *)
Definition truncated_zip : bytes := ZIPPlugin.LFH ++ ZIPPlugin.EOCD.


(** A stray SOI, then a PDF [2, 26) that holds a JPEG [7, 21) that holds a
    PDF [9, 19). *)
Definition nested_image : bytes :=
  JPEGPlugin.SOI ++ PDFPlugin.PDF_MAGIC ++ JPEGPlugin.SOI ++
  PDFPlugin.PDF_MAGIC ++ PDFPlugin.EOF ++ JPEGPlugin.EOI ++ PDFPlugin.EOF.

(** A PDF that holds a local file header and a lone ZIP64 EOCD record
    signature: the ZIP footer locator fails at offset 5, the ZIP bridge
    succeeds there. *)
Definition pdf_with_zip64_stub : bytes :=
  PDFPlugin.PDF_MAGIC ++ ZIPPlugin.LFH ++ ZIPPlugin.EOCD64 ++ PDFPlugin.EOF.





(** Scenario "pure JPEG": SOI, SOS, 100 bytes of payload, EOI. *)
Definition pure_jpeg : bytes :=
  [xff; xd8; xff; xda] ++ zeros 100 ++ JPEGPlugin.EOI.

(** * Provenance of records *)

(** How [_scan] arrives at the end [e] of a carve for a header at [h];
    [uf] is [used_fragment]. *)
Definition located_top (self : Carver) (plugin : FormatPlugin.t)
    (buf : bytes) (h e : Z) (uf : bool) : Prop :=
  let w := scan_window self plugin in
  (uf = false /\ e = FormatPlugin.find_footer plugin buf h w /\ e <> -1) \/
  (uf = true /\ fragmented (opts self) = true /\
   FormatPlugin.find_footer plugin buf h w = -1 /\
   e = FormatPlugin.fragmented_try_bridge plugin buf h w
         (chunk_size (opts self)) /\
   e <> -1).

(** The path that [_emit_file] writes to. *)
Definition artifact_path (self : Carver) (fmt name : string) : string :=
  (out_dir (opts self) ++ "/carved/" ++ name ++ extension fmt)%string.

(** [r], [w] and [v] are the record, the file and the validator call of a
    top-level carve of [image]. *)
Definition top_entry (self : Carver) (image : bytes)
    (r : CarveRecord.t) (w : string * bytes) (v : FormatPlugin.t * bytes)
    : Prop :=
  exists plugin magic rest h e uf,
    plugin ∈ plugins self /\
    FormatPlugin.headers plugin = magic :: rest /\
    0 <= h /\ occ image magic (Z.to_nat h) /\
    located_top self plugin image h e uf /\
    0 < e - h <= max_size (opts self) /\
    v = (plugin, slice image h e) /\
    w = (artifact_path self (FormatPlugin.fmt plugin)
           (FormatPlugin.candidate_name plugin image h),
         slice image h e) /\
    r = CarveRecord.mk (FormatPlugin.fmt plugin) h e (e - h) w.1
          (FormatPlugin.validate plugin (slice image h e)) None
          (if uf then Some "fragmented-bridge"%string else None).

(** [r], [w] and [v] are the record, the file and the validator call of a
    carve found in the bytes [blob] of a parent artifact with format
    [pfmt] and name [pname]. *)
Definition embedded_entry (self : Carver) (pfmt pname : string)
    (blob : bytes)
    (r : CarveRecord.t) (w : string * bytes) (v : FormatPlugin.t * bytes)
    : Prop :=
  exists plugin magic rest h e,
    plugin ∈ plugins self /\
    FormatPlugin.fmt plugin <> pfmt /\
    FormatPlugin.headers plugin = magic :: rest /\
    0 <= h /\ occ blob magic (Z.to_nat h) /\
    e = FormatPlugin.find_footer plugin blob h (scan_window self plugin) /\
    e <> -1 /\
    0 < e - h <= max_size (opts self) /\
    v = (plugin, slice blob h e) /\
    w = (artifact_path self (FormatPlugin.fmt plugin)
           (pname ++ "__" ++ FormatPlugin.fmt plugin ++ "_" ++ hex 8 h),
         slice blob h e) /\
    r = CarveRecord.mk (FormatPlugin.fmt plugin) h e (e - h) w.1
          (FormatPlugin.validate plugin (slice blob h e)) (Some pname)
          (Some "embedded"%string).

(** The name that [candidate_name] gave to the artifact of a top-level
    record. *)
Definition record_name (r : CarveRecord.t) : string :=
  (CarveRecord.fmt r ++ "_" ++ hex 12 (CarveRecord.start r))%string.

(** The shape of what a run appends: groups of one top-level carve followed
    by the carves found in its bytes. *)
Inductive scan_trace (self : Carver) (image : bytes)
  : list CarveRecord.t -> list (string * bytes) ->
    list (FormatPlugin.t * bytes) -> Prop :=
| trace_nil : scan_trace self image [] [] []
| trace_carve r w v er es ev nr ns nv :
    top_entry self image r w v ->
    Forall3 (embedded_entry self (CarveRecord.fmt r) (record_name r) w.2)
      er es ev ->
    (embedded_depth (opts self) <= 0 -> er = []) ->
    scan_trace self image nr ns nv ->
    scan_trace self image (r :: er ++ nr) (w :: es ++ ns) (v :: ev ++ nv).

(** One entry of a run: a top-level carve, or a carve embedded in the
    top-level record [parent], whose bytes are [blob]. *)
Definition entry_ok (self : Carver) (image : bytes)
    (r : CarveRecord.t) (w : string * bytes) (v : FormatPlugin.t * bytes)
    : Prop :=
  top_entry self image r w v \/
  exists parent pw pv,
    top_entry self image parent pw pv /\
    0 < embedded_depth (opts self) /\
    embedded_entry self (CarveRecord.fmt parent) (record_name parent) pw.2
      r w v.

(** All three formats, with the defaults of the command line. *)
Definition all_formats_opts : CarveOptions :=
  default_opts ["jpeg"; "pdf"; "zip"]%string.

(** The format names of the registry. *)
Definition registered (f : string) : Prop :=
  f = "jpeg"%string \/ f = "pdf"%string \/ f = "zip"%string.

#[global] Instance registered_dec f : Decision (registered f).
Proof. unfold registered. apply _. Defined.

(** The path of the artifact [name] of format [fmt] under the output
    directory of [o]. *)
Definition carved_path (o : CarveOptions) (fmt name : string) : string :=
  (out_dir o ++ "/carved/" ++ name ++ extension fmt)%string.

(** The name that [_scan_memory_for_embedded] gives to the artifact of an
    embedded record [r] with parent [parent_name]. *)
Definition embedded_name (parent_name : string) (r : CarveRecord.t)
    : string :=
  (parent_name ++ "__" ++ CarveRecord.fmt r ++ "_"
   ++ hex 8 (CarveRecord.start r))%string.

(** Inputs for the footer locators: a JPEG at offset 1 with two EOI
    markers, and options that enable the bridge for all formats. *)
Definition jpeg_two_eoi : bytes :=
  [x00] ++ JPEGPlugin.SOI ++ [xff; xda; x11] ++ JPEGPlugin.EOI ++
  [x22] ++ JPEGPlugin.EOI.

Definition all_formats_bridge_opts : CarveOptions :=
  with_fragmented all_formats_opts true 4096.

(** ** Names and paths of artifacts *)

(** A character that [hex] can produce. *)
Definition is_hex_digit (c : ascii) : bool :=
  match HexString.ascii_to_digit c with
  | Some _ => true
  | None => false
  end.

Fixpoint all_hex (s : string) : bool :=
  match s with
  | EmptyString => true
  | String c s' => is_hex_digit c && all_hex s'
  end.

(** What identifies a record within a run: its parent, its format and its
    start offset. *)
Definition key (r : CarveRecord.t) : option string * string * Z :=
  (CarveRecord.embedded_parent r, CarveRecord.fmt r, CarveRecord.start r).

(** A record that the loop of [_scan] for [p] can append when it is entered
    with cursor [off]: a top-level carve of [p] at or after [off], or a
    carve embedded in such a carve. *)
Definition in_batch (p : FormatPlugin.t) (off : Z) (r : CarveRecord.t)
    : Prop :=
  (CarveRecord.embedded_parent r = None /\
   CarveRecord.fmt r = FormatPlugin.fmt p /\ off <= CarveRecord.start r) \/
  (exists s, off <= s /\
     CarveRecord.embedded_parent r
       = Some (FormatPlugin.fmt p ++ "_" ++ hex 12 s)%string).

(** Two JPEGs in a row, for runs with more than one record of a format. *)
Definition two_jpegs : bytes := jpeg_sample ++ jpeg_sample.

(** The path of a record is the one that its format, start and parent
    give: [fmt_<start>] for a top-level record, [<parent>__fmt_<start>] for
    an embedded one, where the parent is the name of a top-level
    artifact. *)
Definition shaped (o : CarveOptions) (r : CarveRecord.t) : Prop :=
  registered (CarveRecord.fmt r) /\ 0 <= CarveRecord.start r /\
  ((CarveRecord.embedded_parent r = None /\
    CarveRecord.out_path r
      = carved_path o (CarveRecord.fmt r) (record_name r)) \/
   (exists F s,
      registered F /\ 0 <= s /\
      CarveRecord.embedded_parent r = Some (F ++ "_" ++ hex 12 s)%string /\
      CarveRecord.out_path r
        = carved_path o (CarveRecord.fmt r)
            (embedded_name (F ++ "_" ++ hex 12 s) r))).

(** ** Carve attempts *)

(** The end that [_scan] computes for a header at [h]: the footer that the
    plugin locates or, with [fragmented], the bridge where there is none. *)
Definition carve_end (o : CarveOptions) (plugin : FormatPlugin.t)
    (buf : bytes) (h : Z) : Z :=
  let window :=
    default (max_size o) (scan_windows o !! FormatPlugin.fmt plugin) in
  let end_ := FormatPlugin.find_footer plugin buf h window in
  if (end_ =? -1) && fragmented o
  then FormatPlugin.fragmented_try_bridge plugin buf h window (chunk_size o)
  else end_.

(** The carve attempt at [h] yields a file: an end is found and the size
    is accepted. *)
Definition carvable (o : CarveOptions) (plugin : FormatPlugin.t)
    (buf : bytes) (h : Z) : Prop :=
  carve_end o plugin buf h <> -1 /\
  0 < carve_end o plugin buf h - h <= max_size o.

(** [h] lies in a record of the format [f] with the given parent. *)
Definition covered (records : list CarveRecord.t) (parent : option string)
    (f : string) (h : Z) : Prop :=
  exists r, r ∈ records /\ CarveRecord.embedded_parent r = parent /\
    CarveRecord.fmt r = f /\ CarveRecord.start r <= h < CarveRecord.end_ r.

(** The carve attempt of the embedded scan at [h] yields a file: the
    footer is found (no bridge is tried) and the size is accepted. *)
Definition embedded_carvable (o : CarveOptions) (plugin : FormatPlugin.t)
    (blob : bytes) (h : Z) : Prop :=
  let window :=
    default (max_size o) (scan_windows o !! FormatPlugin.fmt plugin) in
  FormatPlugin.find_footer plugin blob h window <> -1 /\
  0 < FormatPlugin.find_footer plugin blob h window - h <= max_size o.

(** The embedded scan of the top-level record [r] of [buf] has missed
    nothing that [records] would not show. *)
Definition embedded_complete (self : Carver) (buf : bytes)
    (records : list CarveRecord.t) (r : CarveRecord.t) : Prop :=
  forall q magic rest h,
    q ∈ plugins self -> FormatPlugin.fmt q <> CarveRecord.fmt r ->
    FormatPlugin.headers q = magic :: rest ->
    0 <= h ->
    occ (slice buf (CarveRecord.start r) (CarveRecord.end_ r)) magic
      (Z.to_nat h) ->
    embedded_carvable (opts self) q
      (slice buf (CarveRecord.start r) (CarveRecord.end_ r)) h ->
    covered records (Some (record_name r)) (FormatPlugin.fmt q) h.

(** * Command line: sizes

    A [str] is a [string] whose characters are the code points below 256;
    on these, [\d] matches the ten ASCII digits and [re.IGNORECASE] pairs
    the ASCII letters only. *)

Definition code (c : ascii) : Z := Z.of_N (N_of_ascii c).

(** [c.isspace()] *)
Definition is_str_space (c : ascii) : bool :=
  ((9 <=? code c) && (code c <=? 13)) || ((28 <=? code c) && (code c <=? 32))
  || (code c =? 133) || (code c =? 160).

(** [\d] *)
Definition is_digit (c : ascii) : bool := (48 <=? code c) && (code c <=? 57).

(** [c.upper()] for the letters that the pattern of [parse_size] lets
    through. *)
Definition upper (c : ascii) : ascii :=
  if (97 <=? code c) && (code c <=? 122)
  then ascii_of_N (Z.to_N (code c - 32))
  else c.

Fixpoint str_upper (s : string) : string :=
  match s with
  | EmptyString => EmptyString
  | String c s' => String (upper c) (str_upper s')
  end.

Fixpoint str_lstrip (s : string) : string :=
  match s with
  | EmptyString => EmptyString
  | String c s' => if is_str_space c then str_lstrip s' else s
  end.

Fixpoint str_rstrip (s : string) : string :=
  match s with
  | EmptyString => EmptyString
  | String c s' =>
      match str_rstrip s' with
      | EmptyString =>
          if is_str_space c then EmptyString else String c EmptyString
      | t => String c t
      end
  end.

(** [s.strip()] *)
Definition str_strip (s : string) : string := str_rstrip (str_lstrip s).

(** The greedy [\d+] (here: [\d*]) at the head of [s], and the rest. *)
Fixpoint span_digits (s : string) : string * string :=
  match s with
  | EmptyString => (EmptyString, EmptyString)
  | String c s' =>
      if is_digit c
      then let '(ds, rest) := span_digits s' in (String c ds, rest)
      else (EmptyString, s)
  end.

(** [[KMGTP]] and [B] under [re.IGNORECASE]. *)
Definition is_unit (c : ascii) : bool :=
  Ascii.eqb (upper c) "K" || Ascii.eqb (upper c) "M"
  || Ascii.eqb (upper c) "G" || Ascii.eqb (upper c) "T"
  || Ascii.eqb (upper c) "P".

Definition is_b (c : ascii) : bool := Ascii.eqb (upper c) "B".

(** An optional character of the class [p] at the head of [s]. *)
Definition strip_opt (p : ascii -> bool) (s : string) : string * string :=
  match s with
  | String c r => if p c then (String c EmptyString, r) else (EmptyString, s)
  | EmptyString => (EmptyString, EmptyString)
  end.

(** [$]: the end of the string, or the newline that ends it. *)
Definition at_end (s : string) : bool :=
  match s with
  | EmptyString => true
  | String c EmptyString => Ascii.eqb c "010"
  | _ => false
  end.

(** [([KMGTP]?B?)$] against what follows the digits: group 2, or [None]
    when there is no match. *)
Definition match_suffix (rest : string) : option string :=
  let '(u, r1) := strip_opt is_unit rest in
  let '(b, r2) := strip_opt is_b r1 in
  if at_end r2 then Some (u ++ b)%string else None.

(** The [if]/[elif] chain over [suf.startswith]. *)
Definition multiplier (suf : string) : Z :=
  if String.prefix "K" suf then 1024
  else if String.prefix "M" suf then 1024 ^ 2
  else if String.prefix "G" suf then 1024 ^ 3
  else if String.prefix "T" suf then 1024 ^ 4
  else 1.

(** CPython's default limit on the digits of a decimal string that [int]
    converts. *)
Definition int_max_str_digits : nat := 4300.

Inductive size_result :=
| Size (n : Z)
| ArgumentTypeError
| ValueError.

Definition parse_size (s : string) : size_result :=
  let '(ds, rest) := span_digits (str_strip s) in
  match ds, match_suffix rest with
  | String _ _, Some group2 =>
      if (int_max_str_digits <? String.length ds)%nat then ValueError
      else
        match parse_digits (list_byte_of_string ds) 0 false with
        | Some num =>
            let suf := str_upper group2 in
            let mult := multiplier suf in
            Size (num * mult)
        | None => ValueError
        end
  | _, _ => ArgumentTypeError
  end.

(** ** Vocabulary for sizes *)

(** Every character of [s] is in the class [p]. *)
Fixpoint str_forall (p : ascii -> bool) (s : string) : bool :=
  match s with
  | EmptyString => true
  | String c s' => p c && str_forall p s'
  end.

Definition all_digits (s : string) : bool := str_forall is_digit s.

Definition all_space (s : string) : bool := str_forall is_str_space s.

(** The suffixes in upper case, with the factor that each stands for. *)
Definition suffix_table : list (string * Z) :=
  [(""%string, 1); ("B"%string, 1);
   ("K"%string, 1024); ("KB"%string, 1024);
   ("M"%string, 1048576); ("MB"%string, 1048576);
   ("G"%string, 1073741824); ("GB"%string, 1073741824);
   ("T"%string, 1099511627776); ("TB"%string, 1099511627776);
   ("P"%string, 1); ("PB"%string, 1)].

Definition scale (m : Z) (r : size_result) : size_result :=
  match r with
  | Size n => Size (n * m)
  | e => e
  end.

(** Sample command-line sizes. *)
Definition size_512mb : string := "512MB".
Definition size_256 : string := "256".

(** * The CSV index *)

From Stdlib Require DecimalString.

(** [str(n)] for an integer. *)
Definition str_of_int (z : Z) : string :=
  DecimalString.NilEmpty.string_of_int (Z.to_int z).

(** [s or ''] *)
Definition or_empty (s : option string) : string := default ""%string s.

(** The line that [_write_indexes] writes to [index.csv] for one record. *)
Definition csv_row (r : CarveRecord.t) : string :=
  (CarveRecord.fmt r ++ "," ++ str_of_int (CarveRecord.start r) ++ ","
   ++ str_of_int (CarveRecord.end_ r) ++ ","
   ++ str_of_int (CarveRecord.size r) ++ ","
   ++ str_of_int (if CarveRecord.validated r then 1 else 0) ++ ","
   ++ CarveRecord.out_path r ++ ","
   ++ or_empty (CarveRecord.embedded_parent r) ++ ","
   ++ or_empty (CarveRecord.notes r) ++ String "010" "")%string.

(** Occurrences of the character [c] in [s]. *)
Fixpoint count_char (c : ascii) (s : string) : nat :=
  match s with
  | EmptyString => O
  | String x s' => ((if Ascii.eqb x c then 1 else 0) + count_char c s')%nat
  end.

(** The characters of a decimal numeral. *)
Definition is_dec_char (c : ascii) : bool := is_digit c || Ascii.eqb c "-".

(** The two characters that delimit the fields and the rows of the CSV
    index. *)
Definition separator (c : ascii) : Prop := c = ","%char \/ c = "010"%char.

(** * Verification *)

(** ** Occurrences of a needle *)

Lemma byte_eqb_true (x y : byte) : Byte.eqb x y = true <-> x = y.
Proof.
  split; [apply Byte.byte_dec_bl | apply Byte.byte_dec_lb].
Qed.

Lemma startswith_take (b sub : bytes) :
  startswith b sub = true <-> take (length sub) b = sub.
Proof.
  revert b; induction sub as [|x sub IH]; intros [|y b]; simpl; try easy.
  rewrite andb_true_iff, byte_eqb_true, IH.
  split; [intros [-> ->]; reflexivity | intros [= -> ->]; auto].
Qed.

Lemma startswith_occ (b sub : bytes) : startswith b sub = true <-> occ b sub 0.
Proof. unfold occ. rewrite drop_0. apply startswith_take. Qed.

Lemma startswith_app (b sub : bytes) :
  startswith b sub = true <-> exists rest, b = sub ++ rest.
Proof.
  rewrite startswith_take. split.
  - intros H. exists (drop (length sub) b).
    rewrite <- H at 1. symmetry. apply take_drop.
  - intros [rest ->]. rewrite take_app_length. reflexivity.
Qed.

Lemma occ_length (b sub : bytes) (n : nat) :
  occ b sub n -> sub <> [] -> (n + length sub <= length b)%nat.
Proof.
  unfold occ. intros H Hne.
  assert (Hl : length (take (length sub) (drop n b)) = length sub)
    by (rewrite H; reflexivity).
  rewrite length_take, length_drop in Hl.
  destruct sub as [|y sub]; [congruence|]. cbn [length] in *. lia.
Qed.

Lemma occ_cons (x : byte) (b sub : bytes) (n : nat) :
  occ (x :: b) sub (S n) <-> occ b sub n.
Proof. reflexivity. Qed.

Lemma find_lower (b sub : bytes) : -1 <= find b sub <= len b.
Proof.
  unfold len. induction b as [|x b IH]; cbn [find length].
  - destruct (startswith [] sub); lia.
  - destruct (startswith (x :: b) sub); [lia|].
    destruct (Z.eqb_spec (find b sub) (-1)); lia.
Qed.

Lemma find_none (b sub : bytes) :
  find b sub = -1 -> forall n, ~ occ b sub n.
Proof.
  induction b as [|x b IH]; cbn [find].
  - destruct (startswith [] sub) eqn:E; [lia|]. intros _ n Hn.
    unfold occ in Hn. rewrite drop_nil, take_nil in Hn. subst sub.
    discriminate.
  - destruct (startswith (x :: b) sub) eqn:E; [lia|].
    destruct (Z.eqb_spec (find b sub) (-1)) as [Hr|Hr];
      [|pose proof (find_lower b sub); lia].
    intros _ [|n] Hn.
    + apply startswith_occ in Hn. congruence.
    + apply occ_cons in Hn. exact (IH Hr n Hn).
Qed.

Lemma find_some (b sub : bytes) (r : Z) :
  find b sub = r -> r <> -1 ->
  0 <= r /\ occ b sub (Z.to_nat r) /\
  forall n, occ b sub n -> r <= Z.of_nat n.
Proof.
  revert r; induction b as [|x b IH]; cbn [find]; intros r.
  - destruct (startswith [] sub) eqn:E; [|lia]. intros <- _.
    repeat split; [lia | by apply startswith_occ | lia].
  - destruct (startswith (x :: b) sub) eqn:E.
    + intros <- _. repeat split; [lia | by apply startswith_occ | lia].
    + destruct (Z.eqb_spec (find b sub) (-1)) as [Hr|Hr]; [lia|].
      intros <- _. destruct (IH _ eq_refl Hr) as (H0 & Hocc & Hmin).
      repeat split; [lia | |].
      * replace (Z.to_nat (1 + find b sub)) with (S (Z.to_nat (find b sub)))
          by lia.
        by apply occ_cons.
      * intros [|n] Hn.
        -- apply startswith_occ in Hn. congruence.
        -- apply occ_cons, Hmin in Hn. lia.
Qed.

Lemma rfind_lower (b sub : bytes) : -1 <= rfind b sub <= len b.
Proof.
  unfold len. induction b as [|x b IH]; cbn [rfind length].
  - destruct (startswith [] sub); lia.
  - destruct (Z.eqb_spec (rfind b sub) (-1)); [|lia].
    destruct (startswith (x :: b) sub); lia.
Qed.

Lemma rfind_none (b sub : bytes) :
  rfind b sub = -1 -> forall n, (n <= length b)%nat -> ~ occ b sub n.
Proof.
  induction b as [|x b IH]; cbn [rfind length].
  - destruct (startswith [] sub) eqn:E; [lia|]. intros _ n Hle Hn.
    replace n with 0%nat in Hn by lia.
    apply startswith_occ in Hn. congruence.
  - destruct (Z.eqb_spec (rfind b sub) (-1)) as [Hr|Hr];
      [|pose proof (rfind_lower b sub); lia].
    destruct (startswith (x :: b) sub) eqn:E; [lia|].
    intros _ [|n] Hle Hn.
    + apply startswith_occ in Hn. congruence.
    + apply occ_cons in Hn. apply (IH Hr n); [lia | done].
Qed.

Lemma rfind_some (b sub : bytes) (r : Z) :
  rfind b sub = r -> r <> -1 ->
  0 <= r <= len b /\ occ b sub (Z.to_nat r) /\
  forall n, (n <= length b)%nat -> occ b sub n -> Z.of_nat n <= r.
Proof.
  unfold len.
  revert r; induction b as [|x b IH]; cbn [rfind length]; intros r.
  - destruct (startswith [] sub) eqn:E; [|lia]. intros <- _.
    repeat split; [lia | lia | by apply startswith_occ | ].
    intros n Hn _. lia.
  - destruct (Z.eqb_spec (rfind b sub) (-1)) as [Hr|Hr].
    + destruct (startswith (x :: b) sub) eqn:E; [|lia]. intros <- _.
      repeat split; [lia | lia | by apply startswith_occ | ].
      intros [|n] Hle Hn; [lia|].
      apply occ_cons in Hn. exfalso. apply (rfind_none b sub Hr n); [lia|done].
    + intros <- _. destruct (IH _ eq_refl Hr) as (H0 & Hocc & Hmax).
      repeat split; [lia | lia | |].
      * replace (Z.to_nat (1 + rfind b sub)) with (S (Z.to_nat (rfind b sub)))
          by lia.
        by apply occ_cons.
      * intros [|n] Hle Hn; [lia|].
        apply occ_cons in Hn. apply Hmax in Hn; lia.
Qed.

(** ** Slices and windows *)

Lemma slice_nonneg (b : bytes) (lo hi : Z) :
  0 <= lo -> 0 <= hi ->
  slice b lo hi = take (Z.to_nat (hi - lo)) (drop (Z.to_nat lo) b).
Proof.
  intros Hlo Hhi. unfold slice, clamp_index, len.
  destruct (Z.ltb_spec lo 0); [lia|]. destruct (Z.ltb_spec hi 0); [lia|].
  destruct (Z_le_gt_dec lo (Z.of_nat (length b))) as [Hl|Hl].
  - rewrite (Z.min_l lo) by lia.
    destruct (Z_le_gt_dec hi (Z.of_nat (length b))) as [Hh|Hh].
    + rewrite Z.min_l by lia. reflexivity.
    + rewrite Z.min_r by lia.
      rewrite !take_ge; [done | rewrite length_drop; lia ..].
  - rewrite (Z.min_r lo) by lia.
    rewrite !drop_ge by lia. by rewrite !take_nil.
Qed.

Lemma len_slice_le (b : bytes) (lo hi : Z) : len (slice b lo hi) <= len b.
Proof.
  unfold slice, len. rewrite length_take, length_drop. lia.
Qed.

Lemma occ_drop (b sub : bytes) (lo p : nat) :
  occ (drop lo b) sub p <-> occ b sub (lo + p).
Proof. unfold occ. by rewrite drop_drop. Qed.

Lemma occ_take (b sub : bytes) (k p : nat) :
  sub <> [] ->
  occ (take k b) sub p <-> occ b sub p /\ (p + length sub <= k)%nat.
Proof.
  intros Hne. split.
  - intros H. pose proof (occ_length _ _ _ H Hne) as Hl.
    rewrite length_take in Hl. split; [|lia].
    unfold occ in *. rewrite <- H at 2.
    rewrite skipn_firstn_comm, take_take. f_equal. lia.
  - intros [H Hk]. unfold occ in *.
    rewrite skipn_firstn_comm, take_take.
    rewrite Nat.min_l by lia. done.
Qed.

(** The window [buf[lo : min(len(buf), hi)]] of the footer locators. *)
Lemma window_eq (b : bytes) (lo hi : Z) :
  0 <= lo -> 0 <= hi ->
  slice b lo (Z.min (len b) hi) =
  take (Z.to_nat (Z.min (len b) hi - lo)) (drop (Z.to_nat lo) b).
Proof.
  intros Hlo Hhi. apply slice_nonneg; [done|]. unfold len. lia.
Qed.

Lemma occ_window (b sub : bytes) (lo hi : Z) (p : nat) :
  0 <= lo -> 0 <= hi -> sub <> [] ->
  occ (slice b lo (Z.min (len b) hi)) sub p <->
  occ b sub (Z.to_nat lo + p) /\ lo + Z.of_nat p + len sub <= hi.
Proof.
  intros Hlo Hhi Hne. rewrite window_eq by done.
  rewrite occ_take, occ_drop by done. unfold len. split.
  - intros [H Hk]. split; [done|].
    destruct sub as [|y sub]; [done|]. cbn [length] in *. lia.
  - intros [H Hk]. split; [done|].
    pose proof (occ_length _ _ _ H Hne). lia.
Qed.

Lemma rfind_window (b sub : bytes) (lo hi : Z) :
  0 <= lo -> 0 <= hi -> sub <> [] ->
  let r := rfind (slice b lo (Z.min (len b) hi)) sub in
  (r = -1 /\ forall p, ~ occurs_within b sub lo hi p) \/
  (0 <= r /\ last_within b sub lo hi (lo + r)).
Proof.
  intros Hlo Hhi Hne r.
  destruct (Z.eq_dec r (-1)) as [Hr|Hr]; [left | right].
  - split; [done|]. intros p (Hp & Hphi & Hocc).
    apply (rfind_none _ _ Hr (Z.to_nat (p - lo))).
    + pose proof (occ_length _ _ _ Hocc Hne) as Hl.
      rewrite window_eq, length_take, length_drop by done.
      unfold len in *. lia.
    + apply occ_window; [done..|]. split; [|lia].
      by replace (Z.to_nat lo + Z.to_nat (p - lo))%nat with (Z.to_nat p) by lia.
  - destruct (rfind_some _ _ r eq_refl Hr) as ((H0 & Hlen) & Hocc & Hmax).
    split; [done|].
    apply occ_window in Hocc as [Hocc Hin]; [|done..].
    repeat split.
    + lia.
    + lia.
    + by replace (Z.to_nat (lo + r)) with (Z.to_nat lo + Z.to_nat r)%nat by lia.
    + intros q (Hq & Hqhi & Hqocc).
      assert (Z.of_nat (Z.to_nat (q - lo)) <= r); [|lia].
      apply Hmax.
      * pose proof (occ_length _ _ _ Hqocc Hne) as Hl.
        rewrite window_eq, length_take, length_drop by done.
        unfold len in *. lia.
      * apply occ_window; [done..|]. split; [|lia].
        by replace (Z.to_nat lo + Z.to_nat (q - lo))%nat with (Z.to_nat q)
          by lia.
Qed.

Lemma find_window (b sub : bytes) (lo hi : Z) :
  0 <= lo -> 0 <= hi -> sub <> [] ->
  let r := find (slice b lo (Z.min (len b) hi)) sub in
  (r = -1 /\ forall p, ~ occurs_within b sub lo hi p) \/
  (0 <= r /\ first_within b sub lo hi (lo + r)).
Proof.
  intros Hlo Hhi Hne r.
  destruct (Z.eq_dec r (-1)) as [Hr|Hr]; [left | right].
  - split; [done|]. intros p (Hp & Hphi & Hocc).
    apply (find_none _ _ Hr (Z.to_nat (p - lo))).
    apply occ_window; [done..|]. split; [|lia].
    by replace (Z.to_nat lo + Z.to_nat (p - lo))%nat with (Z.to_nat p) by lia.
  - destruct (find_some _ _ r eq_refl Hr) as (H0 & Hocc & Hmin).
    split; [done|].
    apply occ_window in Hocc as [Hocc Hin]; [|done..].
    repeat split.
    + lia.
    + lia.
    + by replace (Z.to_nat (lo + r)) with (Z.to_nat lo + Z.to_nat r)%nat by lia.
    + intros q (Hq & Hqhi & Hqocc).
      assert (r <= Z.of_nat (Z.to_nat (q - lo))); [|lia].
      apply Hmin. apply occ_window; [done..|]. split; [|lia].
      by replace (Z.to_nat lo + Z.to_nat (q - lo))%nat with (Z.to_nat q)
        by lia.
Qed.

Lemma last_within_unique (b sub : bytes) (lo hi p q : Z) :
  last_within b sub lo hi p -> last_within b sub lo hi q -> p = q.
Proof.
  intros [Hp Hpmax] [Hq Hqmax]. apply Hpmax in Hq. apply Hqmax in Hp. lia.
Qed.

Lemma occ_split (b sub : bytes) :
  (exists n, occ b sub n) <-> exists pre post, b = pre ++ sub ++ post.
Proof.
  split.
  - intros [n H]. exists (take n b), (drop (length sub) (drop n b)).
    unfold occ in H. rewrite <- H at 1. by rewrite !take_drop.
  - intros (pre & post & ->). exists (length pre). unfold occ.
    by rewrite drop_app_length, take_app_length.
Qed.

Lemma contains_spec (sub b : bytes) :
  contains sub b = true <-> exists pre post, b = pre ++ sub ++ post.
Proof.
  rewrite <- occ_split. unfold contains.
  destruct (Z.eqb_spec (find b sub) (-1)) as [Hr|Hr]; simpl.
  - split; [done|]. intros [n Hn]. by apply find_none in Hn.
  - split; [|done]. intros _.
    destruct (find_some _ _ _ eq_refl Hr) as (_ & H & _). eauto.
Qed.

(** ** PDF plugin *)

(** C5: inside the window [[h, h + max_scan)] the PDF footer locator returns
    the end (offset + 5) of the last [%%EOF], and [-1] exactly when the window
    holds no [%%EOF]; an earlier marker is never the boundary. *)
Theorem pdf_find_footer_last_eof (buf : bytes) (h max_scan : Z) :
  0 <= h -> 0 <= max_scan ->
  let r := PDFPlugin.find_footer buf h max_scan in
  ((r = -1 /\
    forall p, ~ occurs_within buf PDFPlugin.EOF h (h + max_scan) p) \/
   (exists p, last_within buf PDFPlugin.EOF h (h + max_scan) p /\ r = p + 5))
  /\
  (forall q q', occurs_within buf PDFPlugin.EOF h (h + max_scan) q ->
                occurs_within buf PDFPlugin.EOF h (h + max_scan) q' ->
                q < q' -> r <> q + 5).
Proof.
  intros Hh Hm r.
  assert (Hmain :
    (r = -1 /\
     forall p, ~ occurs_within buf PDFPlugin.EOF h (h + max_scan) p) \/
    (exists p, last_within buf PDFPlugin.EOF h (h + max_scan) p /\ r = p + 5)).
  { subst r. unfold PDFPlugin.find_footer.
    destruct (rfind_window buf PDFPlugin.EOF h (h + max_scan))
      as [[Hr Hnone]|[Hr Hlast]]; [lia | lia | done | |].
    - left. by rewrite Hr.
    - right. eexists; split; [exact Hlast|].
      destruct (Z.eqb_spec
        (rfind (slice buf h (Z.min (len buf) (h + max_scan))) PDFPlugin.EOF)
        (-1)); [lia|].
      reflexivity. }
  split; [exact Hmain|].
  intros q q' Hq Hq' Hlt Hr.
  destruct Hmain as [[_ Hnone]|(p & [Hp Hmax] & Hrp)].
  - by apply (Hnone q).
  - apply Hmax in Hq'. lia.
Qed.

Lemma pdf_find_footer_last_eof_witness :
  (0 <= 0 /\ 0 <= 100) /\
  ((PDFPlugin.find_footer pdf_two_eof 0 100 = -1 /\
    forall p, ~ occurs_within pdf_two_eof PDFPlugin.EOF 0 (0 + 100) p) \/
   (exists p, last_within pdf_two_eof PDFPlugin.EOF 0 (0 + 100) p /\
              PDFPlugin.find_footer pdf_two_eof 0 100 = p + 5)).
Proof.
  split; [lia|].
  apply (pdf_find_footer_last_eof pdf_two_eof 0 100); lia.
Defined.

(** C8: the PDF validator accepts exactly the byte strings that start with
    [%PDF-] and contain [%%EOF]; whatever the [startxref] inspection of the
    last 2048 bytes finds, and whether or not an integer follows it, the
    verdict is the same. *)
Theorem pdf_validate_iff (data : bytes) :
  (PDFPlugin.validate data = true <->
   (exists rest, data = PDFPlugin.PDF_MAGIC ++ rest) /\
   (exists pre post, data = pre ++ PDFPlugin.EOF ++ post))
  /\
  PDFPlugin.validate data =
    startswith data PDFPlugin.PDF_MAGIC && contains PDFPlugin.EOF data.
Proof.
  assert (Heq : PDFPlugin.validate data =
    startswith data PDFPlugin.PDF_MAGIC && contains PDFPlugin.EOF data).
  { unfold PDFPlugin.validate.
    destruct (startswith data PDFPlugin.PDF_MAGIC); [|done].
    destruct (contains PDFPlugin.EOF data); [|done]. simpl.
    destruct (contains PDFPlugin.STARTXREF _); [|done].
    by destruct (PDFPlugin.startxref_pointer _). }
  split; [|exact Heq].
  by rewrite Heq, andb_true_iff, startswith_app, contains_spec.
Qed.

(** ** JPEG plugin *)

Lemma occ_two (b : bytes) (x y : byte) (n : nat) :
  occ b [x; y] n -> drop n b = x :: y :: drop (n + 2) b.
Proof.
  unfold occ. rewrite <- drop_drop.
  destruct (drop n b) as [|a [|c rest]]; simpl; intros [= -> ->].
  by rewrite drop_0.
Qed.

Lemma find_after_soi (rest : bytes) (k : nat) :
  find (take k (xff :: xd8 :: rest)) JPEGPlugin.EOI =
  let r := find (take (k - 2) rest) JPEGPlugin.EOI in
  if r =? -1 then -1 else 2 + r.
Proof.
  destruct k as [|[|k]]; [reflexivity | reflexivity |].
  cbn [Nat.sub]. rewrite Nat.sub_0_r. cbn [take].
  pose proof (find_lower (take k rest) JPEGPlugin.EOI) as Hl.
  cbn -[Z.add Z.eqb take].
  destruct (Z.eqb_spec (find (take k rest) JPEGPlugin.EOI) (-1)); [done|].
  destruct (Z.eqb_spec (1 + find (take k rest) JPEGPlugin.EOI) (-1)); lia.
Qed.

(** C7: at an offset that carries the SOI signature, the JPEG bridge and the
    JPEG footer locator return the same value, for every span (taken as
    [max_scan]) and every chunk size. *)
Theorem jpeg_bridge_is_find_footer (buf : bytes) (h span chunk_size : Z) :
  0 <= h -> occ buf JPEGPlugin.SOI (Z.to_nat h) ->
  JPEGPlugin.fragmented_try_bridge buf h span chunk_size =
  JPEGPlugin.find_footer buf h span.
Proof.
  intros Hh Hocc.
  pose proof (occ_length _ _ _ Hocc ltac:(done)) as Hlen.
  change (length JPEGPlugin.SOI) with 2%nat in Hlen.
  apply occ_two in Hocc.
  unfold JPEGPlugin.fragmented_try_bridge, JPEGPlugin.find_footer, find_range.
  set (e := Z.min (len buf) (h + span)).
  unfold slice. set (e' := clamp_index (len buf) e).
  assert (Hc0 : clamp_index (len buf) h = h).
  { unfold clamp_index, len. destruct (Z.ltb_spec h 0); lia. }
  assert (Hc2 : clamp_index (len buf) (h + 2) = h + 2).
  { unfold clamp_index, len. destruct (Z.ltb_spec (h + 2) 0); lia. }
  rewrite Hc0, Hc2, Hocc, find_after_soi.
  replace (Z.to_nat (h + 2)) with (Z.to_nat h + 2)%nat by lia.
  replace (Z.to_nat (e' - h) - 2)%nat with (Z.to_nat (e' - (h + 2))) by lia.
  pose proof (find_lower
    (take (Z.to_nat (e' - (h + 2))) (drop (Z.to_nat h + 2) buf))
    JPEGPlugin.EOI) as Hl.
  cbv zeta.
  destruct (Z.eqb_spec
    (find (take (Z.to_nat (e' - (h + 2))) (drop (Z.to_nat h + 2) buf))
       JPEGPlugin.EOI) (-1)) as [Hr|Hr]; [done|].
  set (r := find _ _) in *.
  destruct (Z.eqb_spec (2 + r) (-1)); [lia|].
  destruct (Z.eqb_spec (h + 2 + r) (-1)); [lia|].
  simpl. lia.
Qed.

Lemma jpeg_bridge_is_find_footer_witness :
  (0 <= 1 /\ occ jpeg_sample JPEGPlugin.SOI (Z.to_nat 1)) /\
  JPEGPlugin.fragmented_try_bridge jpeg_sample 1 64 4096 =
  JPEGPlugin.find_footer jpeg_sample 1 64.
Proof.
  split; [split; [lia | reflexivity]|].
  apply (jpeg_bridge_is_find_footer jpeg_sample 1 64 4096);
    [lia | reflexivity].
Defined.

(** ** ZIP plugin *)

Lemma length_slice_exact (b : bytes) (lo n : Z) :
  0 <= lo -> 0 <= n -> lo + n <= len b ->
  length (slice b lo (lo + n)) = Z.to_nat n.
Proof.
  intros Hlo Hn Hle. rewrite slice_nonneg by lia.
  rewrite length_take, length_drop. unfold len in *. lia.
Qed.

Lemma slice_lookup (b : bytes) (lo n : Z) (i : nat) :
  0 <= lo -> 0 <= n -> (i < Z.to_nat n)%nat ->
  slice b lo (lo + n) !! i = b !! (Z.to_nat lo + i)%nat.
Proof.
  intros Hlo Hn Hi. rewrite slice_nonneg by lia.
  rewrite lookup_take_lt by lia. by rewrite lookup_drop.
Qed.

Lemma unpack_eocd_22 (view : bytes) :
  length view = 22%nat ->
  exists fields g0 g1,
    ZIPPlugin.unpack_eocd view = Some fields /\
    view !! 20%nat = Some g0 /\ view !! 21%nat = Some g1 /\
    ZIPPlugin.comment_length fields = le16 g0 g1.
Proof.
  intros Hlen.
  do 22 (destruct view as [|? view]; [discriminate|]).
  destruct view; [|discriminate].
  by eexists _, _, _.
Qed.

Lemma rfind_window_none (b sub : bytes) (lo hi : Z) :
  0 <= lo -> 0 <= hi -> sub <> [] ->
  (forall p, ~ occurs_within b sub lo hi p) ->
  rfind (slice b lo (Z.min (len b) hi)) sub = -1.
Proof.
  intros Hlo Hhi Hne Hnone.
  destruct (rfind_window b sub lo hi Hlo Hhi Hne) as [[Hr _]|[_ [Hocc _]]];
    [done|]. by apply Hnone in Hocc.
Qed.

Lemma rfind_window_last (b sub : bytes) (lo hi p : Z) :
  0 <= lo -> 0 <= hi -> sub <> [] ->
  last_within b sub lo hi p ->
  rfind (slice b lo (Z.min (len b) hi)) sub = p - lo /\ lo <= p.
Proof.
  intros Hlo Hhi Hne Hlast.
  destruct (rfind_window b sub lo hi Hlo Hhi Hne) as [[_ Hnone]|[Hr Hl]].
  - destruct Hlast as [Hocc _]. by apply Hnone in Hocc.
  - pose proof (last_within_unique _ _ _ _ _ _ Hlast Hl). lia.
Qed.

(** What the ZIP64 branch of the footer locator computes: with a locator
    and a record in the window and the last EOCD after the record, the end is
    22 bytes after the EOCD offset, whatever the comment length. *)
Lemma zip_find_footer_zip64_eocd
    (buf : bytes) (h max_scan ploc p64 eocd : Z) :
  0 <= h -> 0 <= max_scan ->
  last_within buf ZIPPlugin.EOCD64_LOC h (h + max_scan) ploc ->
  last_within buf ZIPPlugin.EOCD64 h (h + max_scan) p64 ->
  last_within buf ZIPPlugin.EOCD h (h + max_scan) eocd ->
  p64 < eocd ->
  ZIPPlugin.find_footer buf h max_scan = eocd + 22.
Proof.
  intros Hh Hm Hloc H64 He Hlt. unfold ZIPPlugin.find_footer.
  destruct (rfind_window_last buf ZIPPlugin.EOCD64_LOC h (h + max_scan) ploc Hh
              ltac:(lia) ltac:(done) Hloc)
    as [-> ?].
  destruct (rfind_window_last buf ZIPPlugin.EOCD64 h (h + max_scan) p64 Hh
              ltac:(lia) ltac:(done) H64)
    as [-> ?].
  destruct (rfind_window_last buf ZIPPlugin.EOCD h (h + max_scan) eocd Hh
              ltac:(lia) ltac:(done) He)
    as [-> ?].
  cbv zeta.
  destruct (Z.eqb_spec (ploc - h) (-1)); [lia|].
  destruct (Z.eqb_spec (p64 - h) (-1)); [lia|].
  destruct (Z.eqb_spec (eocd - h) (-1)); [lia|].
  destruct (Z.gtb_spec (eocd - h) (p64 - h)); [|lia].
  simpl. lia.
Qed.

(** C1: on a ZIP64 tail whose EOCD (at offset 12, after the ZIP64 record at
    offset 4 and the locator at offset 8) has comment length 7, the footer
    locator returns offset 12 + 22 = 34; the end with the comment would be
    12 + 22 + 7 = 41, which is the length of the view. *)
Theorem zip64_find_footer_ignores_comment :
  let buf := zip64_image in
  let w := 256 * 1024 * 1024 in
  last_within buf ZIPPlugin.EOCD64 0 (0 + w) 4 /\
  last_within buf ZIPPlugin.EOCD64_LOC 0 (0 + w) 8 /\
  last_within buf ZIPPlugin.EOCD 0 (0 + w) 12 /\
  (ZIPPlugin.comment_length <$> ZIPPlugin.unpack_eocd (slice buf 12 (12 + 22)))
    = Some 7 /\
  len buf = 12 + 22 + 7 /\
  ZIPPlugin.find_footer buf 0 w = 12 + 22.
Proof.
  intros buf w.
  assert (Hlast : forall sub p, sub <> [] ->
            rfind (slice buf 0 (Z.min (len buf) (0 + w))) sub = p ->
            0 <= p -> last_within buf sub 0 (0 + w) p).
  { intros sub p Hne Hr Hp.
    destruct (rfind_window buf sub 0 (0 + w)) as [[Hr' _]|[_ Hl]];
      [done | done | done | lia |].
    by rewrite Hr in Hl. }
  split; [by apply Hlast|]. split; [by apply Hlast|].
  split; [by apply Hlast|]. by vm_compute.
Qed.

(** C4, as the code has it: when the window holds no ZIP64 signature and its
    last EOCD is at [eocd], and the 22-byte structure ends inside the search
    window [min (len buf) (h + max_scan)], the ZIP footer locator reads
    [buf[eocd : eocd + 22]], takes the little-endian 16-bit comment length at
    bytes 20 and 21, and returns [eocd + 22 + comment_length] clamped to the
    length of the view; when the 22 bytes do not end inside the search window
    it returns [eocd + 22].  With comment length 7 and the 29 bytes present,
    the end is [eocd + 29]. *)
Theorem zip_find_footer_plain_eocd (buf : bytes) (h max_scan eocd : Z) :
  0 <= h -> 0 <= max_scan ->
  (forall q, ~ occurs_within buf ZIPPlugin.EOCD64_LOC h (h + max_scan) q) ->
  (forall q, ~ occurs_within buf ZIPPlugin.EOCD64 h (h + max_scan) q) ->
  last_within buf ZIPPlugin.EOCD h (h + max_scan) eocd ->
  let end_search := Z.min (len buf) (h + max_scan) in
  let r := ZIPPlugin.find_footer buf h max_scan in
  (eocd + 22 <= end_search ->
   exists fields g0 g1,
     ZIPPlugin.unpack_eocd (slice buf eocd (eocd + 22)) = Some fields /\
     buf !! Z.to_nat (eocd + 20) = Some g0 /\
     buf !! Z.to_nat (eocd + 21) = Some g1 /\
     ZIPPlugin.comment_length fields = le16 g0 g1 /\
     r = Z.min (eocd + 22 + ZIPPlugin.comment_length fields) (len buf) /\
     (ZIPPlugin.comment_length fields = 7 -> eocd + 29 <= len buf ->
      r = eocd + 29))
  /\
  (end_search < eocd + 22 -> r = eocd + 22).
Proof.
  intros Hh Hm Hnoloc Hno64 He end_search r.
  assert (Hr : r = ZIPPlugin._parse_eocd_end buf eocd end_search /\ h <= eocd).
  { subst r. unfold ZIPPlugin.find_footer.
    rewrite (rfind_window_none buf ZIPPlugin.EOCD64_LOC h (h + max_scan) Hh
               ltac:(lia) ltac:(done) Hnoloc).
    rewrite (rfind_window_none buf ZIPPlugin.EOCD64 h (h + max_scan) Hh
               ltac:(lia) ltac:(done) Hno64).
    destruct (rfind_window_last buf ZIPPlugin.EOCD h (h + max_scan) eocd Hh
              ltac:(lia) ltac:(done) He)
      as [-> ?].
    cbv zeta. destruct (Z.eqb_spec (eocd - h) (-1)); [lia|]. simpl.
    split; [|done]. f_equal. lia. }
  destruct Hr as [-> Hle]. unfold ZIPPlugin._parse_eocd_end. split.
  - intros Hfit. destruct (Z.gtb_spec (eocd + 22) end_search); [lia|].
    assert (Hlen : eocd + 22 <= len buf) by (subst end_search; lia).
    destruct (unpack_eocd_22 (slice buf eocd (eocd + 22)))
      as (fields & g0 & g1 & Hu & Hg0 & Hg1 & Hcl).
    { rewrite length_slice_exact; lia. }
    rewrite slice_lookup in Hg0, Hg1 by lia.
    exists fields, g0, g1. rewrite Hu.
    repeat split; try done.
    + by replace (Z.to_nat (eocd + 20)) with (Z.to_nat eocd + 20)%nat by lia.
    + by replace (Z.to_nat (eocd + 21)) with (Z.to_nat eocd + 21)%nat by lia.
    + intros -> ?. lia.
  - intros Hcut. destruct (Z.gtb_spec (eocd + 22) end_search); [done|lia].
Qed.

Lemma zip_find_footer_plain_eocd_witness :
  ZIPPlugin.find_footer zip_comment_image 0 1000 = 4 + 29 /\
  len zip_comment_image = 4 + 29 /\
  last_within zip_comment_image ZIPPlugin.EOCD 0 (0 + 1000) 4.
Proof.
  set (buf := zip_comment_image).
  assert (Hnone : forall sub, sub <> [] ->
            rfind (slice buf 0 (Z.min (len buf) (0 + 1000))) sub = -1 ->
            forall q, ~ occurs_within buf sub 0 (0 + 1000) q).
  { intros sub Hne Hr.
    destruct (rfind_window buf sub 0 (0 + 1000)) as [[_ Hn]|[H0 _]];
      [lia | lia | done | done | lia]. }
  assert (Hlast : last_within buf ZIPPlugin.EOCD 0 (0 + 1000) 4).
  { destruct (rfind_window buf ZIPPlugin.EOCD 0 (0 + 1000))
      as [[Hr' _]|[_ Hl]]; [lia | lia | done | discriminate | exact Hl]. }
  destruct (zip_find_footer_plain_eocd buf 0 1000 4) as [Hfit _];
    [lia | lia | by apply Hnone | by apply Hnone | exact Hlast |].
  destruct Hfit as (fields & g0 & g1 & Hu & _ & _ & _ & _ & H7);
    [vm_compute; discriminate|].
  split; [|split; [reflexivity | exact Hlast]].
  apply H7; [|vm_compute; discriminate].
  vm_compute in Hu. by injection Hu as <-.
Defined.

(** C4 as it is stated fails: the guard of [_parse_eocd_end] compares with
    the end of the search window, not with the end of the view.  In the
    33-byte view [zip_comment_image] with [max_scan = 25] the window holds
    the EOCD signature at offset 4 and no ZIP64 signature; the 22-byte
    structure and the 7-byte comment lie in the view, and the structure
    unpacks with comment length 7; yet the locator returns [4 + 22], not
    [4 + 22 + 7]. *)
Lemma zip_find_footer_window_guard :
  (forall q, ~ occurs_within zip_comment_image ZIPPlugin.EOCD64_LOC
               0 (0 + 25) q) /\
  (forall q, ~ occurs_within zip_comment_image ZIPPlugin.EOCD64
               0 (0 + 25) q) /\
  last_within zip_comment_image ZIPPlugin.EOCD 0 (0 + 25) 4 /\
  (ZIPPlugin.comment_length <$>
     ZIPPlugin.unpack_eocd (slice zip_comment_image 4 (4 + 22))) = Some 7 /\
  4 + 22 + 7 <= len zip_comment_image /\
  ZIPPlugin.find_footer zip_comment_image 0 25 = 4 + 22 /\
  ZIPPlugin.find_footer zip_comment_image 0 25
    <> Z.min (4 + 22 + 7) (len zip_comment_image).
Proof.
  assert (Hnone : forall sub, sub <> [] ->
            rfind (slice zip_comment_image 0
                     (Z.min (len zip_comment_image) (0 + 25))) sub = -1 ->
            forall q, ~ occurs_within zip_comment_image sub 0 (0 + 25) q).
  { intros sub Hne Hr.
    destruct (rfind_window zip_comment_image sub 0 (0 + 25))
      as [[_ Hn]|[H0 _]]; [lia | lia | done | done | lia]. }
  split; [by apply Hnone|]. split; [by apply Hnone|]. split.
  { destruct (rfind_window zip_comment_image ZIPPlugin.EOCD 0 (0 + 25))
      as [[Hr' _]|[_ Hl]]; [lia | lia | done | discriminate | exact Hl]. }
  split; [reflexivity|]. split; [vm_compute; discriminate|].
  split; [reflexivity|]. vm_compute. discriminate.
Qed.

(** ** The scanner *)

Lemma extend_nil (st : CarverState) : extend st [] [] [] = st.
Proof. destruct st. unfold extend. simpl. by rewrite !app_nil_r. Qed.

Lemma extend_extend st nr ns nv nr' ns' nv' :
  extend (extend st nr ns nv) nr' ns' nv' =
  extend st (nr ++ nr') (ns ++ ns') (nv ++ nv').
Proof. unfold extend. simpl. by rewrite !app_assoc. Qed.

Lemma len_pos (b : bytes) : b <> [] -> 1 <= len b.
Proof. unfold len. destruct b; [done|]. cbn [length]. lia. Qed.

Lemma find_from_bounds (b magic : bytes) (off : Z) :
  magic <> [] -> 0 <= off -> find_from b magic off <> -1 ->
  off <= find_from b magic off /\
  find_from b magic off + len magic <= len b /\
  occ b magic (Z.to_nat (find_from b magic off)).
Proof.
  intros Hne Hoff. unfold find_from, find_range.
  assert (0 <= len b) by (unfold len; lia).
  rewrite slice_nonneg by lia.
  set (w := take _ _).
  destruct (Z.eqb_spec (find w magic) (-1)) as [Hr|Hr]; [done|]. intros _.
  destruct (find_some w magic _ eq_refl Hr) as (H0 & Hocc & _).
  subst w. apply occ_take in Hocc as [Hocc Hk]; [|done].
  apply occ_drop in Hocc.
  pose proof (len_pos magic Hne). unfold len in *.
  assert (Hc : clamp_index (Z.of_nat (length b)) off = off).
  { unfold clamp_index. destruct (Z.ltb_spec off 0); lia. }
  rewrite Hc. repeat split; [lia | lia |].
  by replace (Z.to_nat (off + find (take (Z.to_nat (Z.of_nat (length b) - off))
                                      (drop (Z.to_nat off) b)) magic))
    with (Z.to_nat off + Z.to_nat (find (take (Z.to_nat (Z.of_nat (length b) - off))
                                      (drop (Z.to_nat off) b)) magic))%nat by lia.
Qed.

Lemma registry_lookup (f : string) (p : FormatPlugin.t) :
  FORMAT_PLUGINS !! f = Some p -> FormatPlugin.fmt p = f /\ wf_plugin p.
Proof.
  unfold FORMAT_PLUGINS, wf_plugin. rewrite !lookup_insert_Some, lookup_empty.
  intros [[<- <-]|[_ [[<- <-]|[_ [[<- <-]|[_ ?]]]]]]; [..|done];
    (split; [reflexivity|]; split; [reflexivity|]);
    eexists _, _; (split; [reflexivity | done]).
Qed.

Lemma Carver_init_ok (o : CarveOptions) :
  Forall (fun f => is_Some (FORMAT_PLUGINS !! f)) (formats o) ->
  exists ps, Carver_init o = Ok {| opts := o; plugins := ps |} /\
             Forall wf_plugin ps /\ FormatPlugin.fmt <$> ps = formats o.
Proof.
  intros Hall. unfold Carver_init.
  destruct (mapM (fun f => FORMAT_PLUGINS !! f) (formats o)) as [ps|] eqn:E.
  - exists ps. split; [done|]. apply mapM_Some in E.
    induction E as [|f p fs ps Hfp _ IH]; [by split|].
    apply Forall_cons in Hall as [_ Hall].
    destruct (IH Hall) as [IH1 IH2].
    apply registry_lookup in Hfp as [Hf Hwf].
    split; [by constructor|]. cbn [fmap list_fmap]. by rewrite Hf, IH2.
  - exfalso. apply mapM_None in E. 
    apply Exists_exists in E as (f & Hin & Hnone).
    rewrite Forall_forall in Hall. apply Hall in Hin as [p Hp]. congruence.
Qed.

Lemma for_each_extends {A : Type}
    (Q : list CarveRecord.t -> list (string * bytes) ->
         list (FormatPlugin.t * bytes) -> Prop)
    (xs : list A) (body : A -> CarverState -> result CarverState) :
  Q [] [] [] ->
  (forall a b c a' b' c', Q a b c -> Q a' b' c' ->
                          Q (a ++ a') (b ++ b') (c ++ c')) ->
  (forall x st, x ∈ xs ->
     exists nr ns nv, body x st = Ok (extend st nr ns nv) /\ Q nr ns nv) ->
  forall st, exists nr ns nv,
    for_each xs body st = Ok (extend st nr ns nv) /\ Q nr ns nv.
Proof.
  intros Hnil Happ. induction xs as [|x xs IH]; intros Hbody st.
  - exists [], [], []. by rewrite extend_nil.
  - destruct (Hbody x st) as (nr & ns & nv & Hx & HQ); [by left|].
    destruct (IH (fun y st' Hy => Hbody y st' (list_elem_of_further _ _ _ Hy))
                 (extend st nr ns nv))
      as (nr' & ns' & nv' & Hxs & HQ').
    exists (nr ++ nr'), (ns ++ ns'), (nv ++ nv').
    cbn [for_each]. rewrite Hx. cbn. rewrite Hxs, extend_extend.
    split; [done | by apply Happ].
Qed.

Lemma embedded_batch_nil o pn : embedded_batch o pn [] [] [].
Proof. split; constructor. Qed.

Lemma embedded_batch_app o pn a b c a' b' c' :
  embedded_batch o pn a b c -> embedded_batch o pn a' b' c' ->
  embedded_batch o pn (a ++ a') (b ++ b') (c ++ c').
Proof.
  intros [H1 H2] [H1' H2']. split; [by apply Forall3_app | by apply Forall_app].
Qed.

Lemma embedded_loop_spec (self : Carver) (plugin : FormatPlugin.t)
    (data : bytes) (parent_name : string) :
  wf_plugin plugin ->
  forall (fuel : nat) (off : Z) (st : CarverState),
    0 <= off -> (Z.to_nat (len data - off) < fuel)%nat ->
    exists nr ns nv,
      embedded_loop self fuel plugin data parent_name off st
        = Ok (extend st nr ns nv) /\
      embedded_batch (opts self) parent_name nr ns nv.
Proof.
  intros (Hreg & magic & rest & Hhd & Hne).
  induction fuel as [|fuel IH]; intros off st Hoff Hfuel; [lia|].
  cbn [embedded_loop]. rewrite Hhd.
  destruct (Z.eqb_spec (find_from data magic off) (-1)) as [Hh|Hh].
  { exists [], [], []. rewrite extend_nil. split; [done|].
    apply embedded_batch_nil. }
  destruct (find_from_bounds data magic off Hne Hoff Hh) as (Hle & Hfit & _).
  pose proof (len_pos magic Hne) as Hm.
  set (h := find_from data magic off) in *.
  set (e := FormatPlugin.find_footer plugin data h (scan_window self plugin)).
  destruct (negb (e =? -1) && (0 <? e - h)
            && (e - h <=? max_size (opts self))) eqn:Hc.
  - apply andb_true_iff in Hc as [Hc Hc3].
    apply andb_true_iff in Hc as [_ Hc2].
    apply Z.ltb_lt in Hc2. apply Z.leb_le in Hc3.
    cbn [call_validate _emit_file append_record records sink validations].
    match goal with
    | |- context [append_record ?r
                    {| records := _; sink := _ ++ [?w];
                       validations := _ ++ [?v] |}] =>
        change (append_record r _) with (extend st [r] [w] [v]);
        destruct (IH e (extend st [r] [w] [v]))
          as (nr & ns & nv & Hrec & [HQ1 HQ2]); [lia | lia |];
        exists (r :: nr), (w :: ns), (v :: nv)
    end.
    rewrite Hrec, extend_extend. split; [done|].
    split; [|by constructor].
    constructor; [|done]. by repeat split.
  - destruct (IH (h + 1) st) as (nr & ns & nv & Hrec & HQ); [lia | lia |].
    by exists nr, ns, nv.
Qed.

Lemma scan_memory_for_embedded_spec (self : Carver)
    (parent_plugin : FormatPlugin.t) (data : bytes) (depth : Z)
    (parent_name : string) (st : CarverState) :
  Forall wf_plugin (plugins self) ->
  exists nr ns nv,
    _scan_memory_for_embedded self parent_plugin data depth parent_name st
      = Ok (extend st nr ns nv) /\
    embedded_batch (opts self) parent_name nr ns nv.
Proof.
  intros Hwf. unfold _scan_memory_for_embedded.
  apply for_each_extends.
  - apply embedded_batch_nil.
  - apply embedded_batch_app.
  - intros plugin st' Hin.
    destruct (String.eqb _ _).
    + exists [], [], []. rewrite extend_nil. split; [done|].
      apply embedded_batch_nil.
    + apply embedded_loop_spec; [|lia|unfold len; lia].
      rewrite Forall_forall in Hwf. by apply Hwf.
Qed.

Lemma chain_weaken (off off' : Z) (l : list CarveRecord.t) :
  off <= off' -> chain off' l -> chain off l.
Proof.
  destruct l; [done|]. cbn. intros ? (? & ? & ?).
  repeat split; [lia | done | done].
Qed.

Lemma filter_top_level_embedded (pn : string) (nr : list CarveRecord.t) :
  Forall (fun r => CarveRecord.embedded_parent r = Some pn) nr ->
  filter top_level nr = [].
Proof.
  induction 1 as [|r l Hr _ IH]; [done|].
  rewrite filter_cons_False; [done|]. unfold top_level. congruence.
Qed.

Lemma scan_loop_spec (self : Carver) (plugin : FormatPlugin.t)
    (buf : bytes) (depth : Z) :
  wf_plugin plugin -> Forall wf_plugin (plugins self) ->
  forall (fuel : nat) (off : Z) (st : CarverState),
    0 <= off -> (Z.to_nat (len buf - off) < fuel)%nat ->
    exists nr ns nv,
      scan_loop self fuel plugin buf None depth off st
        = Ok (extend st nr ns nv) /\
      top_batch (opts self) plugin off nr ns nv.
Proof.
  intros (Hreg & magic & rest & Hhd & Hne) Hwf.
  induction fuel as [|fuel IH]; intros off st Hoff Hfuel; [lia|].
  cbn [scan_loop]. rewrite Hhd.
  assert (Hstop : exists nr ns nv,
            Ok st = Ok (extend st nr ns nv) /\
            top_batch (opts self) plugin off nr ns nv).
  { exists [], [], []. rewrite extend_nil. split; [done|].
    repeat split; constructor. }
  destruct (Z.ltb_spec off (len buf)) as [Hlt|Hge]; [|exact Hstop]. cbn [negb].
  destruct (Z.eqb_spec (find_from buf magic off) (-1)) as [Hh|Hh];
    [exact Hstop|]. clear Hstop.
  destruct (find_from_bounds buf magic off Hne Hoff Hh) as (Hle & Hfit & _).
  pose proof (len_pos magic Hne) as Hm.
  set (h := find_from buf magic off) in *.
  assert (Hskip : exists nr ns nv,
            scan_loop self fuel plugin buf None depth (h + 1) st
              = Ok (extend st nr ns nv) /\
            top_batch (opts self) plugin off nr ns nv).
  { destruct (IH (h + 1) st) as (nr & ns & nv & Hrec & H1 & H2 & H3);
      [lia | lia |].
    exists nr, ns, nv. split; [done|]. split; [done|]. split; [|done].
    apply (chain_weaken _ (h + 1)); [lia | done]. }
  match goal with
  | |- context [let '(_, _) := ?X in _] => destruct X as [e uf]
  end.
  destruct (Z.eqb_spec e (-1)) as [He|He]; [exact Hskip|]. cbn [negb].
  destruct (Z.leb_spec (e - h) 0) as [Hs0|Hs0]; [exact Hskip|].
  destruct (Z.gtb_spec (e - h) (max_size (opts self))) as [Hs1|Hs1];
    [exact Hskip|].
  clear Hskip. cbn [orb].
  cbn [call_validate _emit_file append_record records sink validations].
  match goal with
  | |- context [append_record ?r
                  {| records := _; sink := _ ++ [?w];
                     validations := _ ++ [?v] |}] =>
      change (append_record r _) with (extend st [r] [w] [v]);
      set (rec := r); set (wr := w); set (va := v)
  end.
  assert (Hemb : exists nr ns nv,
            (if embedded_depth (opts self) >? depth
             then _scan_memory_for_embedded self plugin (slice buf h e)
                    (depth + 1) (FormatPlugin.candidate_name plugin buf h)
                    (extend st [rec] [wr] [va])
             else Ok (extend st [rec] [wr] [va]))
            = Ok (extend (extend st [rec] [wr] [va]) nr ns nv) /\
            embedded_batch (opts self)
              (FormatPlugin.candidate_name plugin buf h) nr ns nv).
  { destruct (embedded_depth (opts self) >? depth).
    - by apply scan_memory_for_embedded_spec.
    - exists [], [], []. rewrite extend_nil. split; [done|].
      apply embedded_batch_nil. }
  destruct Hemb as (er & es & ev & -> & He1 & He2).
  cbn [mbind result_bind].
  destruct (IH e (extend (extend st [rec] [wr] [va]) er es ev))
    as (nr & ns & nv & Hrec & H1 & H2 & H3); [lia | lia |].
  exists ([rec] ++ er ++ nr), ([wr] ++ es ++ ns), ([va] ++ ev ++ nv).
  rewrite Hrec, !extend_extend. split; [done|].
  split; [|split].
  - apply Forall3_app; [|by apply Forall3_app].
    constructor; [|constructor]. subst rec wr va. by repeat split; try lia.
  - rewrite !filter_app, (filter_top_level_embedded _ _ He2).
    rewrite filter_cons_True by done. cbn. repeat split; [lia | lia | done].
  - apply Forall_app. split; [by repeat constructor|].
    apply Forall_app. split; [|done].
    eapply Forall_impl; [exact He2|]. unfold top_level. cbn. congruence.
Qed.

Lemma filter_top_level_of_same (f : string) (l : list CarveRecord.t) :
  Forall (fun r => top_level r -> CarveRecord.fmt r = f) l ->
  filter (top_level_of f) l = filter top_level l.
Proof.
  induction 1 as [|r l Hr _ IH]; [done|].
  destruct (decide (top_level r)) as [Ht|Ht].
  - rewrite !filter_cons_True; [by rewrite IH | done | by split; auto].
  - rewrite !filter_cons_False; [done | done | by intros [_ ?]].
Qed.

Lemma filter_top_level_of_other (f : string) (l : list CarveRecord.t) :
  Forall (fun r => top_level r -> CarveRecord.fmt r <> f) l ->
  filter (top_level_of f) l = [].
Proof.
  induction 1 as [|r l Hr _ IH]; [done|].
  rewrite filter_cons_False; [done|]. intros [? ?]. by apply Hr.
Qed.

Lemma scan_plugins_spec (self : Carver) (buf : bytes)
    (ps : list FormatPlugin.t) :
  Forall wf_plugin (plugins self) -> Forall wf_plugin ps ->
  forall st, exists nr ns nv,
    for_each ps
      (fun plugin st => scan_loop self (S (length buf)) plugin buf None 0 0 st)
      st = Ok (extend st nr ns nv) /\
    Forall3 (record_ok (opts self)) nr ns nv /\
    Forall (fun r => top_level r ->
                     CarveRecord.fmt r ∈ FormatPlugin.fmt <$> ps) nr /\
    forall f, (length (filter (f =.) (FormatPlugin.fmt <$> ps)) <= 1)%nat ->
              chain 0 (filter (top_level_of f) nr).
Proof.
  intros Hself. induction 1 as [|p ps Hp Hps IH]; intros st.
  - exists [], [], []. rewrite extend_nil. by repeat split; try constructor.
  - destruct (scan_loop_spec self p buf 0 Hp Hself (S (length buf)) 0 st)
      as (nr1 & ns1 & nv1 & Hrun1 & Hok1 & Hch1 & Hf1);
      [lia | unfold len; lia |].
    destruct (IH (extend st nr1 ns1 nv1))
      as (nr2 & ns2 & nv2 & Hrun2 & Hok2 & Hf2 & Hch2).
    exists (nr1 ++ nr2), (ns1 ++ ns2), (nv1 ++ nv2).
    cbn [for_each]. rewrite Hrun1. cbn [mbind result_bind].
    rewrite Hrun2, extend_extend. split; [done|].
    split; [by apply Forall3_app|]. split.
    + apply Forall_app. split.
      * eapply Forall_impl; [exact Hf1|]. cbn. intros r Hr Ht.
        rewrite (Hr Ht). by left.
      * eapply Forall_impl; [exact Hf2|]. cbn. intros r Hr Ht.
        right. by apply Hr.
    + intros f Hcount. rewrite filter_app. cbn [fmap list_fmap] in Hcount.
      destruct (decide (f = FormatPlugin.fmt p)) as [->|Hne].
      * rewrite filter_cons_True in Hcount by done. cbn [length] in Hcount.
        assert (Hnil : filter (FormatPlugin.fmt p =.)
                         (FormatPlugin.fmt <$> ps) = [])
          by (apply length_zero_iff_nil; lia).
        rewrite (filter_top_level_of_same _ _ Hf1).
        rewrite (filter_top_level_of_other _ nr2), app_nil_r; [done|].
        eapply Forall_impl; [exact Hf2|]. cbn. intros r Hr Ht Heq.
        apply Hr in Ht. rewrite Heq in Ht.
        assert (Hin : FormatPlugin.fmt p ∈
                  filter (FormatPlugin.fmt p =.) (FormatPlugin.fmt <$> ps))
          by (by apply list_elem_of_filter).
        rewrite Hnil in Hin. by apply not_elem_of_nil in Hin.
      * rewrite filter_cons_False in Hcount by done.
        rewrite (filter_top_level_of_other _ nr1); [by apply Hch2|].
        eapply Forall_impl; [exact Hf1|]. cbn. intros r Hr Ht.
        rewrite (Hr Ht). congruence.
Qed.

Lemma run_spec (image : bytes) (o : CarveOptions) :
  Forall (fun f => is_Some (FORMAT_PLUGINS !! f)) (formats o) ->
  exists st, run image o = Ok st /\
    Forall3 (record_ok o) (records st) (sink st) (validations st) /\
    forall f, (length (filter (f =.) (formats o)) <= 1)%nat ->
              chain 0 (filter (top_level_of f) (records st)).
Proof.
  intros Hreg. destruct (Carver_init_ok o Hreg) as (ps & Hinit & Hwf & Hfmt).
  unfold run. rewrite Hinit. cbn [mbind result_bind]. unfold _scan.
  destruct (scan_plugins_spec {| opts := o; plugins := ps |} image ps
              Hwf Hwf initial_state)
    as (nr & ns & nv & Hrun & Hok & _ & Hch).
  cbn [plugins]. rewrite Hrun. eexists. split; [done|].
  cbn. rewrite <- Hfmt. by split.
Qed.


(** ** Properties of a run *)

(** C9: a run over registered formats returns, and in its final state the
    [i]-th record, the [i]-th file written and the [i]-th validator call
    belong together: the record has [0 < size <= max_size] and
    [size = end - start], the validator of the record's plugin was called
    once for it, on the bytes that were written under the record's
    [out_path], and [validated] is the result of that call. *)
Theorem record_size_and_validation (image : bytes) (o : CarveOptions) :
  Forall (fun f => is_Some (FORMAT_PLUGINS !! f)) (formats o) ->
  exists st, run image o = Ok st /\
    length (validations st) = length (records st) /\
    length (sink st) = length (records st) /\
    forall i r, records st !! i = Some r ->
      0 < CarveRecord.size r <= max_size o /\
      CarveRecord.size r = CarveRecord.end_ r - CarveRecord.start r /\
      exists plugin data,
        FORMAT_PLUGINS !! CarveRecord.fmt r = Some plugin /\
        validations st !! i = Some (plugin, data) /\
        sink st !! i = Some (CarveRecord.out_path r, data) /\
        CarveRecord.validated r = FormatPlugin.validate plugin data.
Proof.
  intros Hreg. destruct (run_spec image o Hreg) as (st & Hrun & Hok & _).
  exists st. split; [done|].
  split; [symmetry; by eapply Forall3_length_lr|].
  split; [symmetry; by eapply Forall3_length_lm|].
  intros i r Hi.
  destruct (Forall3_lookup_l _ _ _ _ _ _ Hok Hi)
    as (w & [plugin data] & Hw & Hv & Hsz & Heq & Hp & -> & Hval).
  cbn in *. eauto 10.
Qed.

Lemma record_size_and_validation_witness :
  Forall (fun f => is_Some (FORMAT_PLUGINS !! f))
         (formats (default_opts ["jpeg"; "pdf"; "zip"]%string)) /\
  exists st, run zip_comment_image
               (default_opts ["jpeg"; "pdf"; "zip"]%string) = Ok st /\
             length (validations st) = length (records st).
Proof.
  assert (H : Forall (fun f => is_Some (FORMAT_PLUGINS !! f))
                (formats (default_opts ["jpeg"; "pdf"; "zip"]%string))).
  { repeat constructor; by eexists. }
  split; [exact H|].
  destruct (record_size_and_validation zip_comment_image _ H)
    as (st & Hrun & Hlen & _).
  exists st. split; [exact Hrun | exact Hlen].
Defined.





(** ** Embedded scanning *)

Lemma for_each_ext {A : Type} (xs : list A)
    (body1 body2 : A -> CarverState -> result CarverState) :
  (forall x st, body1 x st = body2 x st) ->
  forall st, for_each xs body1 st = for_each xs body2 st.
Proof.
  intros Hext. induction xs as [|x xs IH]; intros st; [done|].
  cbn [for_each]. rewrite Hext. destruct (body2 x st); cbn; [apply IH|done..].
Qed.

(** The embedded scan reads [embedded_depth] nowhere. *)
Lemma scan_memory_depth_irrelevant (o : CarveOptions)
    (ps : list FormatPlugin.t) (d1 d2 : Z) (parent : FormatPlugin.t)
    (data : bytes) (depth : Z) (pn : string) (st : CarverState) :
  _scan_memory_for_embedded
    {| opts := with_embedded_depth o d1; plugins := ps |}
    parent data depth pn st =
  _scan_memory_for_embedded
    {| opts := with_embedded_depth o d2; plugins := ps |}
    parent data depth pn st.
Proof. reflexivity. Qed.

Lemma scan_loop_depth (o : CarveOptions) (ps : list FormatPlugin.t)
    (d1 d2 depth : Z) (plugin : FormatPlugin.t) (buf : bytes)
    (es : option (string * bytes)) :
  (d1 >? depth) = (d2 >? depth) ->
  forall fuel off st,
    scan_loop {| opts := with_embedded_depth o d1; plugins := ps |}
      fuel plugin buf es depth off st =
    scan_loop {| opts := with_embedded_depth o d2; plugins := ps |}
      fuel plugin buf es depth off st.
Proof.
  intros Hd. induction fuel as [|fuel IH]; intros off st; [done|].
  cbn [scan_loop]. destruct (negb (off <? len buf)); [done|].
  destruct (FormatPlugin.headers plugin) as [|magic rest]; [done|].
  destruct (find_from buf magic off =? -1); [done|].
  change (scan_window {| opts := with_embedded_depth o d1; plugins := ps |})
    with (scan_window {| opts := with_embedded_depth o d2; plugins := ps |}).
  cbn [opts with_embedded_depth fragmented chunk_size max_size embedded_depth].
  match goal with
  | |- context [let '(_, _) := ?X in _] => destruct X as [e uf]
  end.
  destruct (negb (e =? -1)); [|apply IH].
  destruct ((e - find_from buf magic off <=? 0)
            || (e - find_from buf magic off >? max_size o)); [apply IH|].
  cbn [call_validate _emit_file append_record records sink validations
       opts with_embedded_depth out_dir].
  rewrite Hd. destruct (d2 >? depth).
  - rewrite (scan_memory_depth_irrelevant o ps d1 d2).
    destruct (_scan_memory_for_embedded _ _ _ _ _ _); cbn; [apply IH|done..].
  - cbn. apply IH.
Qed.

(** From depth 1 on, the value of [embedded_depth] makes no difference to
    a run. *)
Lemma run_embedded_depth (image : bytes) (o : CarveOptions) (d : Z) :
  1 <= d ->
  run image (with_embedded_depth o d) = run image (with_embedded_depth o 1).
Proof.
  intros Hd. unfold run, Carver_init.
  cbn [formats with_embedded_depth].
  destruct (mapM _ (formats o)) as [ps|]; [|done].
  cbn [mbind result_bind]. unfold _scan. cbn [plugins].
  apply for_each_ext. intros plugin st. apply scan_loop_depth.
  destruct (Z.gtb_spec d 0), (Z.gtb_spec 1 0); lia.
Qed.

(** C2: with [embedded_depth = 2] the run over an image that holds a PDF at
    [2, 26), in it a JPEG, and in that JPEG a PDF, records the same four
    artifacts as with [embedded_depth = 1]; every embedded record has a
    top-level parent.  The embedded JPEG (offsets 5 to 19 of the top-level
    PDF) is not scanned again, although scanning it once more would record
    the PDF that it holds at its offsets 2 to 12. *)
Theorem embedded_depth_two_stops_at_level_one :
  let o := default_opts ["jpeg"; "pdf"]%string in
  summaries (run nested_image (with_embedded_depth o 2)) =
    Some [("jpeg", 0, 21, 21, None, None);
          ("pdf", 2, 19, 17, Some "jpeg_000000000000", Some "embedded");
          ("pdf", 2, 26, 24, None, None);
          ("jpeg", 5, 19, 14, Some "pdf_000000000002", Some "embedded")
         ]%string /\
  run nested_image (with_embedded_depth o 2) =
    run nested_image (with_embedded_depth o 1) /\
  summaries
    (_scan_memory_for_embedded
       {| opts := with_embedded_depth o 2;
          plugins := [JPEGPlugin.plugin; PDFPlugin.plugin] |}
       JPEGPlugin.plugin (slice (slice nested_image 2 26) 5 19) 2
       "pdf_000000000002__jpeg_00000005" initial_state) =
    Some [("pdf", 2, 12, 10, Some "pdf_000000000002__jpeg_00000005",
           Some "embedded")]%string.
Proof.
  intros o. split; [by vm_compute|].
  split; [apply run_embedded_depth; lia | by vm_compute].
Qed.




(** ** The loops never run out of fuel, and sample runs *)

Lemma run_returns_or_raises (image : bytes) (o : CarveOptions) :
  (exists st, run image o = Ok st) \/ run image o = Raise KeyError.
Proof.
  destruct (mapM (fun f => FORMAT_PLUGINS !! f) (formats o)) as [ps|] eqn:E.
  - left. destruct (run_spec image o) as (st & Hrun & _); [|by exists st].
    apply mapM_Some in E. clear -E.
    induction E as [|f p fs ps Hfp _ IH]; constructor; [by exists p | done].
  - right. unfold run, Carver_init. by rewrite E.
Qed.

Example pure_jpeg_run :
  summaries (run pure_jpeg (default_opts ["jpeg"; "pdf"; "zip"]%string))
  = Some [("jpeg"%string, 0, 106, 106, None, None)].
Proof. by vm_compute. Qed.

Example zip_with_comment_run :
  summaries (run zip_comment_image (default_opts ["zip"%string]))
  = Some [("zip"%string, 0, 33, 33, None, None)].
Proof. by vm_compute. Qed.

Example fragmented_fallback_run :
  summaries (run pdf_with_zip64_stub
               (with_fragmented (default_opts ["zip"%string]) false 4096))
  = Some [] /\
  summaries (run pdf_with_zip64_stub
               (with_fragmented (default_opts ["zip"%string]) true 4096))
  = Some [("zip"%string, 5, 13, 8, None, Some "fragmented-bridge"%string)].
Proof. split; by vm_compute. Qed.

(** * Further properties of the plugins *)

Lemma occ_contains (b sub : bytes) (n : nat) :
  occ b sub n -> contains sub b = true.
Proof.
  intros H. unfold contains.
  destruct (Z.eqb_spec (find b sub) (-1)) as [Hr|Hr]; [|done].
  by apply find_none with (n := n) in Hr.
Qed.

Lemma slice_prefix (b : bytes) (lo hi : Z) :
  0 <= lo -> exists k, slice b lo hi = take k (drop (Z.to_nat lo) b).
Proof.
  intros Hlo. unfold slice. set (hi' := clamp_index (len b) hi).
  unfold clamp_index, len. destruct (Z.ltb_spec lo 0); [lia|].
  destruct (Z_le_gt_dec lo (Z.of_nat (length b))).
  - rewrite Z.min_l by lia. by eexists.
  - exists 0%nat. rewrite Z.min_r by lia.
    rewrite drop_ge by lia. by rewrite take_nil.
Qed.

(** An occurrence found in a window [buf[lo:hi]] is an occurrence in
    [buf], whatever [hi] is. *)
Lemma occ_slice (b sub : bytes) (lo hi : Z) (n : nat) :
  0 <= lo -> sub <> [] -> occ (slice b lo hi) sub n ->
  occ b sub (Z.to_nat lo + n) /\
  lo + Z.of_nat n + len sub <= len b.
Proof.
  intros Hlo Hne H. destruct (slice_prefix b lo hi Hlo) as [k Hk].
  rewrite Hk in H. apply occ_take in H as [H _]; [|done].
  apply occ_drop in H. split; [done|].
  pose proof (occ_length _ _ _ H Hne). unfold len. lia.
Qed.

(** The carve [buf[h:e]] holds every occurrence that lies in [[h, e)]. *)
Lemma occ_carve (b sub : bytes) (h e p : Z) :
  0 <= h -> sub <> [] -> h <= p -> p + len sub <= e ->
  occ b sub (Z.to_nat p) -> occ (slice b h e) sub (Z.to_nat (p - h)).
Proof.
  intros Hh Hne Hp He Hocc. pose proof (len_pos sub Hne).
  rewrite slice_nonneg by lia. apply occ_take; [done|]. split.
  - apply occ_drop. by replace (Z.to_nat h + Z.to_nat (p - h))%nat
      with (Z.to_nat p) by lia.
  - unfold len in *. lia.
Qed.

Lemma len_carve (b : bytes) (h e : Z) :
  0 <= h -> h <= e -> e <= len b -> len (slice b h e) = e - h.
Proof.
  intros. rewrite slice_nonneg by lia. unfold len in *.
  rewrite length_take, length_drop. lia.
Qed.

Lemma startswith_carve (b sub : bytes) (h e : Z) :
  0 <= h -> sub <> [] -> h + len sub <= e -> occ b sub (Z.to_nat h) ->
  startswith (slice b h e) sub = true.
Proof.
  intros Hh Hne He Hocc. apply startswith_occ.
  replace 0%nat with (Z.to_nat (h - h)) by lia. apply occ_carve; [done..|lia|done|done].
Qed.

Lemma endswith_carve (b sub : bytes) (h e : Z) :
  0 <= h -> sub <> [] -> h <= e - len sub -> e <= len b ->
  occ b sub (Z.to_nat (e - len sub)) ->
  endswith (slice b h e) sub = true.
Proof.
  intros Hh Hne Hs He Hocc. pose proof (len_pos sub Hne) as Hm.
  pose proof (len_carve b h e Hh ltac:(lia) He) as Hl.
  pose proof (occ_carve b sub h e (e - len sub) Hh Hne Hs ltac:(lia) Hocc)
    as Hc.
  unfold endswith. unfold len in *. apply andb_true_iff. split.
  - apply Nat.leb_le. lia.
  - apply startswith_take. unfold occ in Hc.
    by replace (length (slice b h e) - length sub)%nat
      with (Z.to_nat (e - Z.of_nat (length sub) - h)) by lia.
Qed.

(** ** JPEG *)

Lemma jpeg_find_footer_some (buf : bytes) (h w e : Z) :
  0 <= h -> occ buf JPEGPlugin.SOI (Z.to_nat h) ->
  JPEGPlugin.find_footer buf h w = e -> e <> -1 ->
  h + 4 <= e <= len buf /\ occ buf JPEGPlugin.EOI (Z.to_nat (e - 2)).
Proof.
  intros Hh Hsoi <-. pose proof (occ_length _ _ _ Hsoi ltac:(done)) as Hlen.
  change (length JPEGPlugin.SOI) with 2%nat in Hlen.
  unfold JPEGPlugin.find_footer, find_range.
  set (E := Z.min _ _).
  assert (Hc : clamp_index (len buf) (h + 2) = h + 2).
  { unfold clamp_index, len. destruct (Z.ltb_spec (h + 2) 0); lia. }
  rewrite Hc.
  destruct (Z.eqb_spec (find (slice buf (h + 2) E) JPEGPlugin.EOI) (-1))
    as [Hr|Hr]; [done|].
  destruct (find_some _ _ _ eq_refl Hr) as (H0 & Hocc & _).
  set (r := find _ _) in *.
  destruct (Z.eqb_spec (h + 2 + r) (-1)); [lia|]. cbn [negb]. intros _.
  apply occ_slice in Hocc as [Hocc Hfit]; [|lia|done].
  change (len JPEGPlugin.EOI) with 2 in Hfit.
  split; [lia|].
  by replace (Z.to_nat (h + 2 + r + 2 - 2))
    with (Z.to_nat (h + 2) + Z.to_nat r)%nat by lia.
Qed.

Lemma jpeg_bridge_some (buf : bytes) (h w c e : Z) :
  0 <= h -> occ buf JPEGPlugin.SOI (Z.to_nat h) ->
  JPEGPlugin.fragmented_try_bridge buf h w c = e -> e <> -1 ->
  h + 4 <= e <= len buf /\ occ buf JPEGPlugin.EOI (Z.to_nat (e - 2)).
Proof.
  intros Hh Hsoi <-. pose proof (occ_length _ _ _ Hsoi ltac:(done)) as Hlen.
  change (length JPEGPlugin.SOI) with 2%nat in Hlen.
  unfold JPEGPlugin.fragmented_try_bridge.
  set (E := Z.min _ _).
  destruct (Z.eqb_spec (find (slice buf h E) JPEGPlugin.EOI) (-1))
    as [Hr|Hr]; [done|].
  destruct (find_some _ _ _ eq_refl Hr) as (H0 & Hocc & _).
  set (r := find _ _) in *. cbn [negb]. intros _.
  apply occ_slice in Hocc as [Hocc Hfit]; [|lia|done].
  change (len JPEGPlugin.EOI) with 2 in Hfit.
  assert (2 <= r).
  { apply occ_two in Hsoi. unfold occ in Hocc.
    destruct (Z.to_nat r) as [|[|n]] eqn:En; [| |lia].
    - rewrite Nat.add_0_r, Hsoi in Hocc. discriminate Hocc.
    - rewrite <- drop_drop, Hsoi in Hocc. discriminate Hocc. }
  split; [lia|].
  by replace (Z.to_nat (h + r + 2 - 2))
    with (Z.to_nat h + Z.to_nat r)%nat by lia.
Qed.

(** A carve from an SOI to the end that a JPEG locator found starts with
    SOI and ends with EOI, so the validator only asks for an SOS marker. *)
Lemma jpeg_validate_carve (buf : bytes) (h e : Z) :
  0 <= h -> occ buf JPEGPlugin.SOI (Z.to_nat h) ->
  h + 4 <= e <= len buf -> occ buf JPEGPlugin.EOI (Z.to_nat (e - 2)) ->
  startswith (slice buf h e) JPEGPlugin.SOI = true /\
  endswith (slice buf h e) JPEGPlugin.EOI = true /\
  JPEGPlugin.validate (slice buf h e) = contains [xff; xda] (slice buf h e).
Proof.
  intros Hh Hsoi He Heoi.
  assert (H1 : startswith (slice buf h e) JPEGPlugin.SOI = true).
  { apply startswith_carve; [done | done | |done].
    change (len JPEGPlugin.SOI) with 2. lia. }
  assert (H2 : endswith (slice buf h e) JPEGPlugin.EOI = true).
  { apply endswith_carve; [done | done | | lia | done].
    change (len JPEGPlugin.EOI) with 2. lia. }
  split; [done|]. split; [done|].
  unfold JPEGPlugin.validate. by rewrite H1, H2.
Qed.

(** When the JPEG footer locator fails at an SOI, so does the bridge. *)
Lemma jpeg_bridge_redundant (buf : bytes) (h w c : Z) :
  0 <= h -> occ buf JPEGPlugin.SOI (Z.to_nat h) ->
  JPEGPlugin.find_footer buf h w = -1 ->
  JPEGPlugin.fragmented_try_bridge buf h w c = -1.
Proof.
  intros Hh Hsoi Hf.
  destruct (Z.eq_dec (JPEGPlugin.fragmented_try_bridge buf h w c) (-1))
    as [|Hb]; [done|]. exfalso.
  pose proof (occ_length _ _ _ Hsoi ltac:(done)) as Hlen.
  change (length JPEGPlugin.SOI) with 2%nat in Hlen.
  revert Hf Hb.
  unfold JPEGPlugin.fragmented_try_bridge, JPEGPlugin.find_footer, find_range.
  set (E := Z.min _ _). unfold slice. set (E' := clamp_index (len buf) E).
  assert (Hc0 : clamp_index (len buf) h = h).
  { unfold clamp_index, len. destruct (Z.ltb_spec h 0); lia. }
  assert (Hc2 : clamp_index (len buf) (h + 2) = h + 2).
  { unfold clamp_index, len. destruct (Z.ltb_spec (h + 2) 0); lia. }
  rewrite Hc0, Hc2, (occ_two _ _ _ _ Hsoi), find_after_soi.
  replace (Z.to_nat (h + 2)) with (Z.to_nat h + 2)%nat by lia.
  replace (Z.to_nat (E' - h) - 2)%nat with (Z.to_nat (E' - (h + 2))) by lia.
  cbv zeta. set (r := find _ _).
  pose proof (find_lower
    (take (Z.to_nat (E' - (h + 2))) (drop (Z.to_nat h + 2) buf))
    JPEGPlugin.EOI) as Hl. fold r in Hl.
  destruct (Z.eqb_spec r (-1)); [done|].
  destruct (Z.eqb_spec (h + 2 + r) (-1)); [lia|]. cbn. lia.
Qed.

(** ** PDF *)

Lemma find_rfind_none (b sub : bytes) : find b sub = -1 <-> rfind b sub = -1.
Proof.
  split; intros H.
  - destruct (Z.eq_dec (rfind b sub) (-1)) as [|Hr]; [done|]. exfalso.
    destruct (rfind_some _ _ _ eq_refl Hr) as (_ & Hocc & _).
    by apply (find_none _ _ H) in Hocc.
  - destruct (Z.eq_dec (find b sub) (-1)) as [|Hr]; [done|]. exfalso.
    destruct (find_some _ _ _ eq_refl Hr) as (H0 & Hocc & _).
    apply (rfind_none _ _ H) in Hocc; [done|].
    pose proof (find_lower b sub). unfold len in *. lia.
Qed.

Lemma pdf_find_footer_some (buf : bytes) (h w e : Z) :
  0 <= h -> PDFPlugin.find_footer buf h w = e -> e <> -1 ->
  h + 5 <= e <= len buf /\ occ buf PDFPlugin.EOF (Z.to_nat (e - 5)).
Proof.
  intros Hh <-. unfold PDFPlugin.find_footer. set (E := Z.min _ _).
  destruct (Z.eqb_spec (rfind (slice buf h E) PDFPlugin.EOF) (-1))
    as [Hr|Hr]; [done|]. intros _.
  destruct (rfind_some _ _ _ eq_refl Hr) as ((H0 & _) & Hocc & _).
  set (r := rfind _ _) in *.
  apply occ_slice in Hocc as [Hocc Hfit]; [|lia|done].
  change (len PDFPlugin.EOF) with 5 in *. split; [lia|].
  by replace (Z.to_nat (h + r + 5 - 5)) with (Z.to_nat h + Z.to_nat r)%nat
    by lia.
Qed.

Lemma pdf_bridge_some (buf : bytes) (h w c e : Z) :
  0 <= h -> PDFPlugin.fragmented_try_bridge buf h w c = e -> e <> -1 ->
  h + 5 <= e <= len buf /\ occ buf PDFPlugin.EOF (Z.to_nat (e - 5)).
Proof.
  intros Hh <-. unfold PDFPlugin.fragmented_try_bridge. set (E := Z.min _ _).
  destruct (Z.eqb_spec (find (slice buf h E) PDFPlugin.EOF) (-1))
    as [Hr|Hr]; [done|]. cbn [negb]. intros _.
  destruct (find_some _ _ _ eq_refl Hr) as (H0 & Hocc & _).
  set (r := find _ _) in *.
  apply occ_slice in Hocc as [Hocc Hfit]; [|lia|done].
  change (len PDFPlugin.EOF) with 5 in *. split; [lia|].
  by replace (Z.to_nat (h + r + 5 - 5)) with (Z.to_nat h + Z.to_nat r)%nat
    by lia.
Qed.

(** When the PDF footer locator fails, so does the PDF bridge: both search
    the same window for the same marker. *)
Lemma pdf_bridge_redundant (buf : bytes) (h w c : Z) :
  0 <= h ->
  PDFPlugin.find_footer buf h w = -1 ->
  PDFPlugin.fragmented_try_bridge buf h w c = -1.
Proof.
  intros Hh. unfold PDFPlugin.find_footer, PDFPlugin.fragmented_try_bridge.
  set (W := slice _ _ _).
  destruct (Z.eqb_spec (rfind W PDFPlugin.EOF) (-1)) as [Hr|Hr].
  - intros _. apply find_rfind_none in Hr. by rewrite Hr.
  - pose proof (rfind_lower W PDFPlugin.EOF).
    change (len PDFPlugin.EOF) with 5. lia.
Qed.

Lemma pdf_validate_carve (buf : bytes) (h e : Z) :
  0 <= h -> occ buf PDFPlugin.PDF_MAGIC (Z.to_nat h) ->
  h + 5 <= e -> occ buf PDFPlugin.EOF (Z.to_nat (e - 5)) ->
  PDFPlugin.validate (slice buf h e) = true.
Proof.
  intros Hh Hmagic He Heof. unfold PDFPlugin.validate.
  rewrite startswith_carve; [|done | done | done | done].
  rewrite (occ_contains _ _ (Z.to_nat (e - 5 - h))).
  - cbn [negb]. destruct (contains PDFPlugin.STARTXREF _); [|done].
    by destruct (PDFPlugin.startxref_pointer _).
  - apply occ_carve; [done | done | lia | | done].
    change (len PDFPlugin.EOF) with 5. lia.
Qed.

(** ** ZIP *)

Lemma byte_val_nonneg (x : byte) : 0 <= byte_val x.
Proof. unfold byte_val. lia. Qed.

Lemma le16_nonneg (b0 b1 : byte) : 0 <= le16 b0 b1.
Proof.
  unfold le16. apply Z.lor_nonneg. split; [apply byte_val_nonneg|].
  apply Z.shiftl_nonneg, byte_val_nonneg.
Qed.

Lemma parse_eocd_end_lower (buf : bytes) (eocd E : Z) :
  0 <= eocd -> E <= len buf ->
  eocd + 22 <= ZIPPlugin._parse_eocd_end buf eocd E.
Proof.
  intros H0 HE. unfold ZIPPlugin._parse_eocd_end.
  destruct (Z.gtb_spec (eocd + 22) E); [lia|].
  destruct (unpack_eocd_22 (slice buf eocd (eocd + 22)))
    as (fields & g0 & g1 & -> & _ & _ & Hcl).
  { rewrite length_slice_exact; lia. }
  pose proof (le16_nonneg g0 g1). lia.
Qed.

Lemma occ_same_length (b s1 s2 : bytes) (n : nat) :
  length s1 = length s2 -> occ b s1 n -> occ b s2 n -> s1 = s2.
Proof. unfold occ. intros -> H1 H2. congruence. Qed.

(** An end that the ZIP footer locator returns lies at least 22 bytes
    after an EOCD or ZIP64 EOCD signature that follows the header. *)
Lemma zip_find_footer_some (buf : bytes) (h w e : Z) :
  0 <= h -> occ buf ZIPPlugin.LFH (Z.to_nat h) ->
  ZIPPlugin.find_footer buf h w = e -> e <> -1 ->
  exists sig p,
    (sig = ZIPPlugin.EOCD \/ sig = ZIPPlugin.EOCD64) /\
    occ buf sig (Z.to_nat p) /\ h < p /\ p + 22 <= e.
Proof.
  intros Hh Hlfh <-. unfold ZIPPlugin.find_footer. set (E := Z.min _ _).
  assert (HE : E <= len buf) by (subst E; lia).
  assert (Hat : forall sig r, sig <> [] -> length sig = 4%nat ->
            sig <> ZIPPlugin.LFH ->
            rfind (slice buf h E) sig = r -> r <> -1 ->
            occ buf sig (Z.to_nat (h + r)) /\ h < h + r).
  { intros sig r Hne Hl4 Hd Hr Hr1.
    destruct (rfind_some _ _ _ Hr Hr1) as ((H0 & _) & Hocc & _).
    apply occ_slice in Hocc as [Hocc _]; [|lia|done].
    replace (Z.to_nat h + Z.to_nat r)%nat with (Z.to_nat (h + r)) in Hocc
      by lia.
    split; [done|].
    destruct (Z.eq_dec r 0) as [->|]; [|lia]. exfalso. apply Hd.
    rewrite Z.add_0_r in Hocc.
    by apply (occ_same_length buf sig ZIPPlugin.LFH _ Hl4 Hocc). }
  set (ploc := rfind (slice buf h E) ZIPPlugin.EOCD64_LOC).
  set (p64 := rfind (slice buf h E) ZIPPlugin.EOCD64).
  set (pe := rfind (slice buf h E) ZIPPlugin.EOCD).
  destruct (Z.eqb_spec ploc (-1)) as [Hl|Hl]; cbn [negb andb].
  - destruct (Z.eqb_spec pe (-1)) as [He|He]; [done|]. cbn [negb]. intros _.
    destruct (Hat ZIPPlugin.EOCD pe) as [Ho Hp]; [done..|].
    exists ZIPPlugin.EOCD, (h + pe). split; [by left|]. split; [done|].
    split; [done|]. apply parse_eocd_end_lower; lia.
  - destruct (Z.eqb_spec p64 (-1)) as [H6|H6]; cbn [negb].
    + destruct (Z.eqb_spec pe (-1)) as [He|He]; [done|]. cbn [negb].
      intros _.
      destruct (Hat ZIPPlugin.EOCD pe) as [Ho Hp]; [done..|].
      exists ZIPPlugin.EOCD, (h + pe). split; [by left|]. split; [done|].
      split; [done|]. apply parse_eocd_end_lower; lia.
    + destruct (Hat ZIPPlugin.EOCD64 p64) as [Ho6 Hp6]; [done..|].
      destruct (Z.eqb_spec pe (-1)) as [He|He]; cbn [negb andb].
      * intros _. exists ZIPPlugin.EOCD64, (h + p64).
        split; [by right|]. split; [done|]. lia.
      * destruct (Z.gtb_spec pe p64); intros _.
        -- destruct (Hat ZIPPlugin.EOCD pe) as [Ho Hp]; [done..|].
           exists ZIPPlugin.EOCD, (h + pe). split; [by left|].
           split; [done|]. lia.
        -- exists ZIPPlugin.EOCD64, (h + p64).
           split; [by right|]. split; [done|]. lia.
Qed.

(** An end that the ZIP bridge returns lies at least 4 bytes after a
    signature of the end-of-central-directory family. *)
Lemma zip_bridge_some (buf : bytes) (h w c e : Z) :
  0 <= h -> occ buf ZIPPlugin.LFH (Z.to_nat h) ->
  ZIPPlugin.fragmented_try_bridge buf h w c = e -> e <> -1 ->
  exists sig p,
    (sig = ZIPPlugin.EOCD \/ sig = ZIPPlugin.EOCD64 \/
     sig = ZIPPlugin.EOCD64_LOC) /\
    occ buf sig (Z.to_nat p) /\ h < p /\ p + 4 <= e.
Proof.
  intros Hh Hlfh <-. unfold ZIPPlugin.fragmented_try_bridge.
  set (E := Z.min _ _).
  assert (HE : E <= len buf) by (subst E; lia).
  assert (Hat : forall sig r, sig <> [] -> length sig = 4%nat ->
            sig <> ZIPPlugin.LFH ->
            find (slice buf h E) sig = r -> r <> -1 ->
            occ buf sig (Z.to_nat (h + r)) /\ h < h + r).
  { intros sig r Hne Hl4 Hd Hr Hr1.
    destruct (find_some _ _ _ Hr Hr1) as (H0 & Hocc & _).
    apply occ_slice in Hocc as [Hocc _]; [|lia|done].
    replace (Z.to_nat h + Z.to_nat r)%nat with (Z.to_nat (h + r)) in Hocc
      by lia.
    split; [done|].
    destruct (Z.eq_dec r 0) as [->|]; [|lia]. exfalso. apply Hd.
    rewrite Z.add_0_r in Hocc.
    by apply (occ_same_length buf sig ZIPPlugin.LFH _ Hl4 Hocc). }
  cbn [ZIPPlugin.bridge_sigs].
  set (pe := find (slice buf h E) ZIPPlugin.EOCD).
  set (ploc := find (slice buf h E) ZIPPlugin.EOCD64_LOC).
  set (p64 := find (slice buf h E) ZIPPlugin.EOCD64).
  destruct (Z.eqb_spec pe (-1)) as [He|He]; cbn [negb].
  - destruct (Z.eqb_spec ploc (-1)) as [Hl|Hl]; cbn [negb].
    + destruct (Z.eqb_spec p64 (-1)) as [H6|H6]; [done|]. cbn [negb].
      rewrite bool_decide_eq_false_2 by done. intros _.
      destruct (Hat ZIPPlugin.EOCD64 p64) as [Ho Hp]; [done..|].
      exists ZIPPlugin.EOCD64, (h + p64). split; [auto|]. split; [done|].
      change (len ZIPPlugin.EOCD64) with 4. lia.
    + rewrite bool_decide_eq_false_2 by done. intros _.
      destruct (Hat ZIPPlugin.EOCD64_LOC ploc) as [Ho Hp]; [done..|].
      exists ZIPPlugin.EOCD64_LOC, (h + ploc). split; [auto|].
      split; [done|]. change (len ZIPPlugin.EOCD64_LOC) with 4. lia.
  - rewrite bool_decide_eq_true_2 by done. intros _.
    destruct (Hat ZIPPlugin.EOCD pe) as [Ho Hp]; [done..|].
    exists ZIPPlugin.EOCD, (h + pe). split; [auto|]. split; [done|].
    split; [done|].
    pose proof (parse_eocd_end_lower buf (h + pe) E ltac:(lia) HE). lia.
Qed.

Lemma zip_validate_carve (buf sig : bytes) (h e p : Z) :
  0 <= h -> occ buf ZIPPlugin.LFH (Z.to_nat h) ->
  sig = ZIPPlugin.EOCD \/ sig = ZIPPlugin.EOCD64 \/
  sig = ZIPPlugin.EOCD64_LOC ->
  occ buf sig (Z.to_nat p) -> h < p -> p + 4 <= e ->
  ZIPPlugin.validate (slice buf h e) = true.
Proof.
  intros Hh Hlfh Hsig Hocc Hp He. unfold ZIPPlugin.validate.
  rewrite (occ_contains _ ZIPPlugin.LFH (Z.to_nat (h - h))).
  2:{ apply occ_carve; [done | done | lia | | done].
      change (len ZIPPlugin.LFH) with 4. lia. }
  assert (Hc : contains sig (slice buf h e) = true).
  { apply (occ_contains _ _ (Z.to_nat (p - h))).
    apply occ_carve; [done | | lia | | done].
    - by destruct Hsig as [->|[->| ->]].
    - by destruct Hsig as [->|[->| ->]]. }
  destruct Hsig as [->|[->| ->]]; rewrite Hc; cbn;
    by rewrite ?orb_true_r.
Qed.

(** * Provenance of the records of a run *)

Lemma scan_trace_app self image nr ns nv nr' ns' nv' :
  scan_trace self image nr ns nv -> scan_trace self image nr' ns' nv' ->
  scan_trace self image (nr ++ nr') (ns ++ ns') (nv ++ nv').
Proof.
  induction 1 as [|r w v er es ev nr ns nv Ht He Hd _ IH]; intros H';
    [done|].
  cbn [app]. rewrite <- !app_assoc. constructor; auto.
Qed.

Lemma embedded_loop_trace (self : Carver) (plugin : FormatPlugin.t)
    (data : bytes) (pfmt pname : string) :
  wf_plugin plugin -> plugin ∈ plugins self ->
  FormatPlugin.fmt plugin <> pfmt ->
  forall (fuel : nat) (off : Z) (st : CarverState),
    0 <= off -> (Z.to_nat (len data - off) < fuel)%nat ->
    exists nr ns nv,
      embedded_loop self fuel plugin data pname off st
        = Ok (extend st nr ns nv) /\
      Forall3 (embedded_entry self pfmt pname data) nr ns nv.
Proof.
  intros (Hreg & magic & rest & Hhd & Hne) Hin Hfmt.
  induction fuel as [|fuel IH]; intros off st Hoff Hfuel; [lia|].
  cbn [embedded_loop]. rewrite Hhd.
  destruct (Z.eqb_spec (find_from data magic off) (-1)) as [Hh|Hh].
  { exists [], [], []. rewrite extend_nil. split; [done|constructor]. }
  destruct (find_from_bounds data magic off Hne Hoff Hh) as (Hle & Hfit & Ho).
  pose proof (len_pos magic Hne) as Hm.
  set (h := find_from data magic off) in *.
  set (e := FormatPlugin.find_footer plugin data h (scan_window self plugin)).
  destruct (negb (e =? -1) && (0 <? e - h)
            && (e - h <=? max_size (opts self))) eqn:Hc.
  - apply andb_true_iff in Hc as [Hc Hc3].
    apply andb_true_iff in Hc as [Hc1 Hc2].
    apply Z.ltb_lt in Hc2. apply Z.leb_le in Hc3.
    apply negb_true_iff, Z.eqb_neq in Hc1.
    cbn [call_validate _emit_file append_record records sink validations].
    match goal with
    | |- context [append_record ?r
                    {| records := _; sink := _ ++ [?w];
                       validations := _ ++ [?v] |}] =>
        change (append_record r _) with (extend st [r] [w] [v]);
        destruct (IH e (extend st [r] [w] [v]))
          as (nr & ns & nv & Hrec & HQ); [lia | lia |];
        exists (r :: nr), (w :: ns), (v :: nv)
    end.
    rewrite Hrec, extend_extend. split; [done|].
    constructor; [|done].
    exists plugin, magic, rest, h, e. by repeat split; try lia.
  - destruct (IH (h + 1) st) as (nr & ns & nv & Hrec & HQ); [lia | lia |].
    by exists nr, ns, nv.
Qed.

Lemma scan_memory_trace (self : Carver) (parent_plugin : FormatPlugin.t)
    (data : bytes) (depth : Z) (pname : string) (st : CarverState) :
  Forall wf_plugin (plugins self) ->
  exists nr ns nv,
    _scan_memory_for_embedded self parent_plugin data depth pname st
      = Ok (extend st nr ns nv) /\
    Forall3 (embedded_entry self (FormatPlugin.fmt parent_plugin) pname data)
      nr ns nv.
Proof.
  intros Hwf. unfold _scan_memory_for_embedded.
  apply (for_each_extends
           (Forall3 (embedded_entry self (FormatPlugin.fmt parent_plugin)
                       pname data))).
  - constructor.
  - intros. by apply Forall3_app.
  - intros plugin st' Hin.
    destruct (String.eqb_spec (FormatPlugin.fmt plugin)
                (FormatPlugin.fmt parent_plugin)) as [Heq|Hneq].
    + exists [], [], []. rewrite extend_nil. split; [done|constructor].
    + apply embedded_loop_trace; [|done|done|lia|unfold len; lia].
      rewrite Forall_forall in Hwf. by apply Hwf.
Qed.

Lemma scan_loop_trace (self : Carver) (plugin : FormatPlugin.t)
    (buf : bytes) :
  wf_plugin plugin -> plugin ∈ plugins self ->
  Forall wf_plugin (plugins self) ->
  forall (fuel : nat) (off : Z) (st : CarverState),
    0 <= off -> (Z.to_nat (len buf - off) < fuel)%nat ->
    exists nr ns nv,
      scan_loop self fuel plugin buf None 0 off st
        = Ok (extend st nr ns nv) /\
      scan_trace self buf nr ns nv.
Proof.
  intros (Hreg & magic & rest & Hhd & Hne) Hin Hwf.
  induction fuel as [|fuel IH]; intros off st Hoff Hfuel; [lia|].
  cbn [scan_loop]. rewrite Hhd.
  assert (Hstop : exists nr ns nv,
            Ok st = Ok (extend st nr ns nv) /\ scan_trace self buf nr ns nv).
  { exists [], [], []. rewrite extend_nil. split; [done|constructor]. }
  destruct (Z.ltb_spec off (len buf)) as [Hlt|Hge]; [|exact Hstop]. cbn [negb].
  destruct (Z.eqb_spec (find_from buf magic off) (-1)) as [Hh|Hh];
    [exact Hstop|]. clear Hstop.
  destruct (find_from_bounds buf magic off Hne Hoff Hh) as (Hle & Hfit & Ho).
  pose proof (len_pos magic Hne) as Hm.
  set (h := find_from buf magic off) in *.
  assert (Hskip : exists nr ns nv,
            scan_loop self fuel plugin buf None 0 (h + 1) st
              = Ok (extend st nr ns nv) /\ scan_trace self buf nr ns nv).
  { apply IH; lia. }
  set (w := scan_window self plugin).
  set (e0 := FormatPlugin.find_footer plugin buf h w).
  assert (Hloc : exists e uf,
            (if (e0 =? -1) && fragmented (opts self)
             then (FormatPlugin.fragmented_try_bridge plugin buf h w
                     (chunk_size (opts self)),
                   negb (FormatPlugin.fragmented_try_bridge plugin buf h w
                           (chunk_size (opts self)) =? -1))
             else (e0, false)) = (e, uf) /\
            (e <> -1 -> located_top self plugin buf h e uf)).
  { destruct (Z.eqb_spec e0 (-1)) as [He0|He0];
      [destruct (fragmented (opts self)) eqn:Hfr|]; cbn [andb].
    - eexists _, _. split; [reflexivity|]. intros He. right.
      apply Z.eqb_neq in He as He'. rewrite He'. by repeat split.
    - eexists _, _. split; [reflexivity|]. intros He. by left.
    - eexists _, _. split; [reflexivity|]. intros He. by left. }
  destruct Hloc as (e & uf & -> & Hloc).
  destruct (Z.eqb_spec e (-1)) as [He|He]; [exact Hskip|]. cbn [negb].
  destruct (Z.leb_spec (e - h) 0) as [Hs0|Hs0]; [exact Hskip|].
  destruct (Z.gtb_spec (e - h) (max_size (opts self))) as [Hs1|Hs1];
    [exact Hskip|].
  clear Hskip. cbn [orb].
  cbn [call_validate _emit_file append_record records sink validations].
  match goal with
  | |- context [append_record ?r
                  {| records := _; sink := _ ++ [?w];
                     validations := _ ++ [?v] |}] =>
      change (append_record r _) with (extend st [r] [w] [v]);
      set (rec := r); set (wr := w); set (va := v)
  end.
  assert (Htop : top_entry self buf rec wr va).
  { exists plugin, magic, rest, h, e, uf. by repeat split; try lia; auto. }
  assert (Hemb : exists nr ns nv,
            (if embedded_depth (opts self) >? 0
             then _scan_memory_for_embedded self plugin (slice buf h e)
                    (0 + 1) (FormatPlugin.candidate_name plugin buf h)
                    (extend st [rec] [wr] [va])
             else Ok (extend st [rec] [wr] [va]))
            = Ok (extend (extend st [rec] [wr] [va]) nr ns nv) /\
            Forall3 (embedded_entry self (CarveRecord.fmt rec)
                       (record_name rec) wr.2) nr ns nv /\
            (embedded_depth (opts self) <= 0 -> nr = [])).
  { destruct (Z.gtb_spec (embedded_depth (opts self)) 0).
    - destruct (scan_memory_trace self plugin (slice buf h e) (0 + 1)
                  (FormatPlugin.candidate_name plugin buf h)
                  (extend st [rec] [wr] [va]) Hwf)
        as (nr & ns & nv & Hrun & Hall).
      exists nr, ns, nv. split; [done|]. split; [exact Hall | lia].
    - exists [], [], []. rewrite extend_nil. split; [done|].
      split; [constructor | done]. }
  destruct Hemb as (er & es & ev & -> & He1 & He2).
  cbn [mbind result_bind].
  destruct (IH e (extend (extend st [rec] [wr] [va]) er es ev))
    as (nr & ns & nv & Hrec & Htr); [lia | lia |].
  exists (rec :: er ++ nr), (wr :: es ++ ns), (va :: ev ++ nv).
  rewrite Hrec, !extend_extend. split; [done|]. by constructor.
Qed.

Lemma scan_plugins_trace (self : Carver) (buf : bytes)
    (ps : list FormatPlugin.t) :
  Forall wf_plugin (plugins self) -> ps ⊆ plugins self ->
  forall st, exists nr ns nv,
    for_each ps
      (fun plugin st => scan_loop self (S (length buf)) plugin buf None 0 0 st)
      st = Ok (extend st nr ns nv) /\
    scan_trace self buf nr ns nv.
Proof.
  intros Hwf Hsub. apply (for_each_extends (scan_trace self buf)).
  - constructor.
  - intros. by apply scan_trace_app.
  - intros plugin st Hin. apply Hsub in Hin.
    apply scan_loop_trace; [|done|done|lia|unfold len; lia].
    rewrite Forall_forall in Hwf. by apply Hwf.
Qed.

(** A run over registered formats returns, and what it appended is a
    sequence of groups: a top-level carve, then the carves embedded in
    it. *)
Lemma run_trace (image : bytes) (o : CarveOptions) :
  Forall (fun f => is_Some (FORMAT_PLUGINS !! f)) (formats o) ->
  exists st ps,
    run image o = Ok st /\
    Forall wf_plugin ps /\ FormatPlugin.fmt <$> ps = formats o /\
    scan_trace {| opts := o; plugins := ps |} image
      (records st) (sink st) (validations st).
Proof.
  intros Hreg. destruct (Carver_init_ok o Hreg) as (ps & Hinit & Hwf & Hfmt).
  destruct (scan_plugins_trace {| opts := o; plugins := ps |} image ps
              Hwf ltac:(done) initial_state)
    as (nr & ns & nv & Hrun & Htr).
  exists (extend initial_state nr ns nv), ps.
  unfold run. rewrite Hinit. cbn [mbind result_bind]. unfold _scan.
  cbn [plugins] in *. by rewrite Hrun.
Qed.

Lemma scan_trace_entries self image nr ns nv :
  scan_trace self image nr ns nv -> Forall3 (entry_ok self image) nr ns nv.
Proof.
  induction 1 as [|r w v er es ev nr ns nv Ht He Hd _ IH]; [constructor|].
  constructor; [by left|]. apply Forall3_app; [|done].
  destruct (Z_le_gt_dec (embedded_depth (opts self)) 0) as [Hle|Hgt].
  - apply Hd in Hle. subst er.
    pose proof (Forall3_length_lm _ _ _ _ He) as H1.
    pose proof (Forall3_length_lr _ _ _ _ He) as H2.
    destruct es; [|discriminate H1]. destruct ev; [|discriminate H2].
    constructor.
  - eapply Forall3_impl; [exact He|]. intros r' w' v' Hemb. right.
    exists r, w, v. split; [done|]. split; [lia | done].
Qed.

Lemma wf_plugin_cases (p : FormatPlugin.t) :
  wf_plugin p ->
  p = JPEGPlugin.plugin \/ p = PDFPlugin.plugin \/ p = ZIPPlugin.plugin.
Proof.
  intros [Hreg _]. revert Hreg. unfold FORMAT_PLUGINS.
  rewrite !lookup_insert_Some, lookup_empty.
  intros [[_ <-]|[_ [[_ <-]|[_ [[_ <-]|[_ ?]]]]]]; auto. done.
Qed.

Lemma len_slice_carve (b : bytes) (h e : Z) :
  0 <= h -> h <= e -> len (slice b h e) <= e - h.
Proof.
  intros. rewrite slice_nonneg by lia. unfold len.
  rewrite length_take. lia.
Qed.

(** What the plugins guarantee about the bytes [view[h:e]] of a carve that
    starts at a header and ends where the footer locator or the bridge
    said. *)
Lemma carve_facts (plugin : FormatPlugin.t) (view magic : bytes)
    (rest : list bytes) (h e w c : Z) :
  wf_plugin plugin -> FormatPlugin.headers plugin = magic :: rest ->
  0 <= h -> occ view magic (Z.to_nat h) ->
  e = FormatPlugin.find_footer plugin view h w \/
  e = FormatPlugin.fragmented_try_bridge plugin view h w c ->
  e <> -1 ->
  (plugin = JPEGPlugin.plugin /\
   startswith (slice view h e) JPEGPlugin.SOI = true /\
   endswith (slice view h e) JPEGPlugin.EOI = true /\
   JPEGPlugin.validate (slice view h e)
     = contains [xff; xda] (slice view h e) /\
   h < e <= len view) \/
  (plugin = PDFPlugin.plugin /\
   PDFPlugin.validate (slice view h e) = true /\ h < e <= len view) \/
  (plugin = ZIPPlugin.plugin /\
   ZIPPlugin.validate (slice view h e) = true /\ h < e).
Proof.
  intros Hwf Hhd Hh Hocc Hloc He.
  destruct (wf_plugin_cases plugin Hwf) as [->|[->| ->]];
    injection Hhd as <- <-; cbn [FormatPlugin.find_footer
      FormatPlugin.fragmented_try_bridge JPEGPlugin.plugin PDFPlugin.plugin
      ZIPPlugin.plugin] in Hloc.
  - left. split; [done|].
    assert (Hs : h + 4 <= e <= len view /\
                 occ view JPEGPlugin.EOI (Z.to_nat (e - 2))).
    { destruct Hloc as [Hl|Hl]; symmetry in Hl.
      - by eapply jpeg_find_footer_some.
      - by eapply jpeg_bridge_some. }
    destruct Hs as [Hb Heoi].
    destruct (jpeg_validate_carve view h e Hh Hocc Hb Heoi) as (? & ? & ?).
    repeat split; [done | done | done | lia | lia].
  - right. left. split; [done|].
    assert (Hs : h + 5 <= e <= len view /\
                 occ view PDFPlugin.EOF (Z.to_nat (e - 5))).
    { destruct Hloc as [Hl|Hl]; symmetry in Hl.
      - by eapply pdf_find_footer_some.
      - by eapply pdf_bridge_some. }
    destruct Hs as [Hb Heof].
    split; [by apply pdf_validate_carve; [| |lia|]|lia].
  - right. right. split; [done|].
    assert (Hs : exists sig p,
              (sig = ZIPPlugin.EOCD \/ sig = ZIPPlugin.EOCD64 \/
               sig = ZIPPlugin.EOCD64_LOC) /\
              occ view sig (Z.to_nat p) /\ h < p /\ p + 4 <= e).
    { destruct Hloc as [Hl|Hl]; symmetry in Hl.
      - destruct (zip_find_footer_some view h w e Hh Hocc Hl He)
          as (sig & p & Hsig & ? & ? & ?).
        exists sig, p. split; [tauto|]. split; [done|]. lia.
      - by eapply zip_bridge_some. }
    destruct Hs as (sig & p & Hsig & Hso & Hp & Hpe).
    split; [by eapply zip_validate_carve | lia].
Qed.

Lemma located_top_cases self plugin buf h e uf :
  located_top self plugin buf h e uf ->
  (e = FormatPlugin.find_footer plugin buf h (scan_window self plugin) \/
   e = FormatPlugin.fragmented_try_bridge plugin buf h
         (scan_window self plugin) (chunk_size (opts self))) /\
  e <> -1.
Proof. intros [(_ & ? & ?)|(_ & _ & _ & ? & ?)]; auto. Qed.

(** The facts about one entry of a run that the later theorems use. *)
Lemma entry_facts (self : Carver) (image : bytes)
    (r : CarveRecord.t) (w : string * bytes) (v : FormatPlugin.t * bytes) :
  Forall wf_plugin (plugins self) ->
  entry_ok self image r w v ->
  exists plugin view,
    wf_plugin plugin /\ CarveRecord.fmt r = FormatPlugin.fmt plugin /\
    v = (plugin, w.2) /\ w.1 = CarveRecord.out_path r /\
    w.2 = slice view (CarveRecord.start r) (CarveRecord.end_ r) /\
    CarveRecord.validated r = FormatPlugin.validate plugin w.2 /\
    0 <= CarveRecord.start r < CarveRecord.end_ r /\
    CarveRecord.size r = CarveRecord.end_ r - CarveRecord.start r /\
    ((plugin = JPEGPlugin.plugin /\
      startswith w.2 JPEGPlugin.SOI = true /\
      endswith w.2 JPEGPlugin.EOI = true /\
      CarveRecord.validated r = contains [xff; xda] w.2 /\
      CarveRecord.end_ r <= len view) \/
     (plugin = PDFPlugin.plugin /\ CarveRecord.validated r = true /\
      CarveRecord.end_ r <= len view) \/
     (plugin = ZIPPlugin.plugin /\ CarveRecord.validated r = true)).
Proof.
  intros Hwf [Htop|(parent & pw & pv & _ & _ & Hemb)].
  - destruct Htop as (plugin & magic & rest & h & e & uf & Hin & Hhd & Hh
                      & Hocc & Hloc & Hsz & -> & -> & ->).
    rewrite Forall_forall in Hwf. pose proof (Hwf _ Hin) as Hp.
    destruct (located_top_cases _ _ _ _ _ _ Hloc) as [Hl He].
    exists plugin, image. cbn.
    repeat (split; [first [done | lia]|]).
    destruct (carve_facts plugin image magic rest h e _ _ Hp Hhd Hh Hocc Hl He)
      as [(-> & ? & ? & ? & ?)|[(-> & ? & ?)|(-> & ? & ?)]]; cbn.
    + left. repeat split; try done. lia.
    + right. left. repeat split; try done. lia.
    + right. right. by split.
  - destruct Hemb as (plugin & magic & rest & h & e & Hin & _ & Hhd & Hh
                      & Hocc & Hl & He & Hsz & -> & -> & ->).
    rewrite Forall_forall in Hwf. pose proof (Hwf _ Hin) as Hp.
    exists plugin, pw.2. cbn.
    repeat (split; [first [done | lia]|]).
    destruct (carve_facts plugin pw.2 magic rest h e _ 0 Hp Hhd Hh Hocc
                (or_introl Hl) He)
      as [(-> & ? & ? & ? & ?)|[(-> & ? & ?)|(-> & ? & ?)]]; cbn.
    + left. repeat split; try done. lia.
    + right. left. repeat split; try done. lia.
    + right. right. by split.
Qed.

Lemma run_entries (image : bytes) (o : CarveOptions) :
  Forall (fun f => is_Some (FORMAT_PLUGINS !! f)) (formats o) ->
  exists st ps,
    run image o = Ok st /\ Forall wf_plugin ps /\
    Forall3 (entry_ok {| opts := o; plugins := ps |} image)
      (records st) (sink st) (validations st).
Proof.
  intros Hreg.
  destruct (run_trace image o Hreg) as (st & ps & Hrun & Hwf & _ & Htr).
  exists st, ps. split; [done|]. split; [done|].
  by apply scan_trace_entries.
Qed.

(** * Further properties of a run *)

Lemma all_formats_registered :
  Forall (fun f => is_Some (FORMAT_PLUGINS !! f)) (formats all_formats_opts).
Proof. repeat constructor; by eexists. Qed.

Lemma plugin_fmt_cases (p : FormatPlugin.t) :
  (p = JPEGPlugin.plugin -> FormatPlugin.fmt p = "jpeg"%string) /\
  (p = PDFPlugin.plugin -> FormatPlugin.fmt p = "pdf"%string) /\
  (p = ZIPPlugin.plugin -> FormatPlugin.fmt p = "zip"%string).
Proof. by repeat split; intros ->. Qed.

(** X1: the validators of PDF and ZIP accept every carve that the scanner
    makes: a record whose format is not [jpeg] always has
    [validated = true]. *)
Theorem non_jpeg_records_validated (image : bytes) (o : CarveOptions) :
  Forall (fun f => is_Some (FORMAT_PLUGINS !! f)) (formats o) ->
  exists st, run image o = Ok st /\
    forall r, r ∈ records st ->
      CarveRecord.fmt r <> "jpeg"%string -> CarveRecord.validated r = true.
Proof.
  intros Hreg. destruct (run_entries image o Hreg) as (st & ps & Hrun & Hwf & Hall).
  exists st. split; [done|]. intros r Hin Hfmt.
  apply list_elem_of_lookup in Hin as [i Hi].
  destruct (Forall3_lookup_l _ _ _ _ _ _ Hall Hi) as (w & v & _ & _ & He).
  destruct (entry_facts {| opts := o; plugins := ps |} _ _ _ _ Hwf He)
    as (plugin & view & _ & Hf & _ & _ & _ & _ & _ & _ & Hcase).
  destruct Hcase as [(-> & _)|[(_ & ? & _)|(_ & ?)]]; [|done..].
  by rewrite Hf in Hfmt.
Qed.

Lemma non_jpeg_records_validated_witness :
  Forall (fun f => is_Some (FORMAT_PLUGINS !! f)) (formats all_formats_opts) /\
  exists st, run nested_image all_formats_opts = Ok st /\
    forall r, r ∈ records st ->
      CarveRecord.fmt r <> "jpeg"%string -> CarveRecord.validated r = true.
Proof.
  split; [exact all_formats_registered|].
  exact (non_jpeg_records_validated nested_image all_formats_opts
           all_formats_registered).
Defined.

(** X2: the bytes written for a JPEG record start with SOI and end with
    EOI, so its [validated] flag says exactly whether they hold an SOS
    marker [FF DA]. *)
Theorem jpeg_record_bytes (image : bytes) (o : CarveOptions) :
  Forall (fun f => is_Some (FORMAT_PLUGINS !! f)) (formats o) ->
  exists st, run image o = Ok st /\
    forall i r, records st !! i = Some r ->
      CarveRecord.fmt r = "jpeg"%string ->
      exists data,
        sink st !! i = Some (CarveRecord.out_path r, data) /\
        startswith data JPEGPlugin.SOI = true /\
        endswith data JPEGPlugin.EOI = true /\
        CarveRecord.validated r = contains [xff; xda] data.
Proof.
  intros Hreg. destruct (run_entries image o Hreg) as (st & ps & Hrun & Hwf & Hall).
  exists st. split; [done|]. intros i r Hi Hfmt.
  destruct (Forall3_lookup_l _ _ _ _ _ _ Hall Hi) as ([path data] & v & Hw & _ & He).
  destruct (entry_facts {| opts := o; plugins := ps |} _ _ _ _ Hwf He)
    as (plugin & view & _ & Hf & _ & Hpath & _ & _ & _ & _ & Hcase).
  cbn [fst snd] in *. subst path. exists data. split; [done|].
  destruct Hcase as [(_ & ? & ? & ? & _)|[(-> & _)|(-> & _)]];
    [done | by rewrite Hf in Hfmt ..].
Qed.

Lemma jpeg_record_bytes_witness :
  Forall (fun f => is_Some (FORMAT_PLUGINS !! f)) (formats all_formats_opts) /\
  exists st, run pure_jpeg all_formats_opts = Ok st /\
    forall i r, records st !! i = Some r ->
      CarveRecord.fmt r = "jpeg"%string ->
      exists data,
        sink st !! i = Some (CarveRecord.out_path r, data) /\
        startswith data JPEGPlugin.SOI = true /\
        endswith data JPEGPlugin.EOI = true /\
        CarveRecord.validated r = contains [xff; xda] data.
Proof.
  split; [exact all_formats_registered|].
  exact (jpeg_record_bytes pure_jpeg all_formats_opts all_formats_registered).
Defined.

(** X3: the bytes written for a record are never more than its [size],
    and for every record that is not a ZIP they are exactly [size] bytes:
    only a ZIP carve can claim more bytes than were written. *)
Theorem written_bytes_and_size (image : bytes) (o : CarveOptions) :
  Forall (fun f => is_Some (FORMAT_PLUGINS !! f)) (formats o) ->
  exists st, run image o = Ok st /\
    forall i r, records st !! i = Some r ->
      exists data,
        sink st !! i = Some (CarveRecord.out_path r, data) /\
        len data <= CarveRecord.size r /\
        (CarveRecord.fmt r <> "zip"%string -> len data = CarveRecord.size r).
Proof.
  intros Hreg. destruct (run_entries image o Hreg) as (st & ps & Hrun & Hwf & Hall).
  exists st. split; [done|]. intros i r Hi.
  destruct (Forall3_lookup_l _ _ _ _ _ _ Hall Hi) as ([path data] & v & Hw & _ & He).
  destruct (entry_facts {| opts := o; plugins := ps |} _ _ _ _ Hwf He)
    as (plugin & view & _ & Hf & _ & Hpath & Hdata & _ & Hse & Hsz & Hcase).
  cbn [fst snd] in *. subst path. exists data. split; [done|].
  rewrite Hsz, Hdata. split; [apply len_slice_carve; lia|]. intros Hz.
  destruct Hcase as [(_ & _ & _ & _ & ?)|[(_ & _ & ?)|(-> & _)]];
    [apply len_carve; lia .. | by rewrite Hf in Hz].
Qed.

Lemma written_bytes_and_size_witness :
  Forall (fun f => is_Some (FORMAT_PLUGINS !! f)) (formats all_formats_opts) /\
  exists st, run truncated_zip all_formats_opts = Ok st /\
    forall i r, records st !! i = Some r ->
      exists data,
        sink st !! i = Some (CarveRecord.out_path r, data) /\
        len data <= CarveRecord.size r /\
        (CarveRecord.fmt r <> "zip"%string -> len data = CarveRecord.size r).
Proof.
  split; [exact all_formats_registered|].
  exact (written_bytes_and_size truncated_zip all_formats_opts
           all_formats_registered).
Defined.

(** X4: the [notes] of a record are [embedded] exactly when it has a
    parent, and otherwise [fragmented-bridge] or nothing; a
    [fragmented-bridge] record is a top-level ZIP record of a run with
    [fragmented] enabled, because the JPEG and PDF bridges never succeed
    where their footer locators failed. *)
Theorem notes_of_records (image : bytes) (o : CarveOptions) :
  Forall (fun f => is_Some (FORMAT_PLUGINS !! f)) (formats o) ->
  exists st, run image o = Ok st /\
    forall r, r ∈ records st ->
      (CarveRecord.embedded_parent r <> None /\
       CarveRecord.notes r = Some "embedded"%string) \/
      (CarveRecord.embedded_parent r = None /\
       CarveRecord.notes r = None) \/
      (CarveRecord.embedded_parent r = None /\
       CarveRecord.notes r = Some "fragmented-bridge"%string /\
       CarveRecord.fmt r = "zip"%string /\ fragmented o = true).
Proof.
  intros Hreg. destruct (run_entries image o Hreg) as (st & ps & Hrun & Hwf & Hall).
  exists st. split; [done|]. intros r Hin.
  apply list_elem_of_lookup in Hin as [i Hi].
  destruct (Forall3_lookup_l _ _ _ _ _ _ Hall Hi) as (w & v & _ & _ & He).
  destruct He as [Htop|(parent & pw & pv & _ & _ & Hemb)].
  - destruct Htop as (plugin & magic & rest & h & e & uf & Hp & Hhd & Hh
                      & Hocc & Hloc & _ & _ & _ & ->). cbn.
    rewrite Forall_forall in Hwf. apply Hwf in Hp.
    destruct Hloc as [(-> & _)|(-> & Hfr & Hfoot & Hb & Hne)];
      [by right; left|].
    right. right. split; [done|]. split; [done|]. split; [|done].
    destruct (wf_plugin_cases plugin Hp) as [->|[->| ->]]; [| |done];
      injection Hhd as <- <-; exfalso; apply Hne; rewrite Hb.
    + by apply jpeg_bridge_redundant.
    + by apply pdf_bridge_redundant.
  - destruct Hemb as (plugin & magic & rest & h & e & _ & _ & _ & _ & _ & _
                      & _ & _ & _ & _ & ->). cbn. by left.
Qed.

Lemma notes_of_records_witness :
  Forall (fun f => is_Some (FORMAT_PLUGINS !! f)) (formats all_formats_opts) /\
  exists st, run pdf_with_zip64_stub all_formats_opts = Ok st.
Proof.
  split; [exact all_formats_registered|].
  destruct (notes_of_records pdf_with_zip64_stub all_formats_opts
              all_formats_registered) as (st & Hrun & _).
  exists st. exact Hrun.
Defined.

(** X5: with [embedded_depth <= 0] a run records top-level carves only. *)
Theorem depth_zero_no_embedded (image : bytes) (o : CarveOptions) :
  Forall (fun f => is_Some (FORMAT_PLUGINS !! f)) (formats o) ->
  embedded_depth o <= 0 ->
  exists st, run image o = Ok st /\
    forall r, r ∈ records st ->
      CarveRecord.embedded_parent r = None /\
      CarveRecord.notes r <> Some "embedded"%string.
Proof.
  intros Hreg Hd. destruct (run_entries image o Hreg) as (st & ps & Hrun & Hwf & Hall).
  exists st. split; [done|]. intros r Hin.
  apply list_elem_of_lookup in Hin as [i Hi].
  destruct (Forall3_lookup_l _ _ _ _ _ _ Hall Hi) as (w & v & _ & _ & He).
  destruct He as [Htop|(parent & pw & pv & _ & Hpos & _)];
    [|cbn in Hpos; lia].
  destruct Htop as (plugin & magic & rest & h & e & uf & _ & _ & _ & _ & _
                    & _ & _ & _ & ->). cbn. split; [done|]. by destruct uf.
Qed.

Lemma depth_zero_no_embedded_witness :
  (Forall (fun f => is_Some (FORMAT_PLUGINS !! f))
     (formats all_formats_opts) /\
   embedded_depth all_formats_opts <= 0) /\
  exists st, run nested_image all_formats_opts = Ok st /\
    forall r, r ∈ records st ->
      CarveRecord.embedded_parent r = None /\
      CarveRecord.notes r <> Some "embedded"%string.
Proof.
  split; [split; [exact all_formats_registered | cbn; lia]|].
  apply (depth_zero_no_embedded nested_image all_formats_opts
           all_formats_registered). cbn. lia.
Defined.

(** X6: a top-level record starts at an occurrence of the header signature
    of its plugin in the image, and that signature lies inside the image. *)
Theorem top_level_record_starts_at_header (image : bytes) (o : CarveOptions) :
  Forall (fun f => is_Some (FORMAT_PLUGINS !! f)) (formats o) ->
  exists st, run image o = Ok st /\
    forall r, r ∈ records st -> CarveRecord.embedded_parent r = None ->
      exists plugin magic rest,
        FORMAT_PLUGINS !! CarveRecord.fmt r = Some plugin /\
        FormatPlugin.headers plugin = magic :: rest /\
        0 <= CarveRecord.start r /\
        CarveRecord.start r + len magic <= len image /\
        slice image (CarveRecord.start r) (CarveRecord.start r + len magic)
          = magic.
Proof.
  intros Hreg. destruct (run_entries image o Hreg) as (st & ps & Hrun & Hwf & Hall).
  exists st. split; [done|]. intros r Hin Htop.
  apply list_elem_of_lookup in Hin as [i Hi].
  destruct (Forall3_lookup_l _ _ _ _ _ _ Hall Hi) as (w & v & _ & _ & He).
  destruct He as [Ht|(parent & pw & pv & _ & _ & Hemb)].
  - destruct Ht as (plugin & magic & rest & h & e & uf & Hp & Hhd & Hh
                    & Hocc & _ & _ & _ & _ & ->). cbn.
    rewrite Forall_forall in Hwf. apply Hwf in Hp as [Hp (m & rs & Hhd' & Hne)].
    rewrite Hhd in Hhd'. injection Hhd' as <- <-.
    exists plugin, magic, rest. split; [done|]. split; [done|].
    split; [done|]. pose proof (occ_length _ _ _ Hocc Hne) as Hl.
    split; [unfold len; lia|].
    rewrite slice_nonneg by (unfold len; lia).
    replace (Z.to_nat (h + len magic - h)) with (length magic)
      by (unfold len; lia).
    exact Hocc.
  - destruct Hemb as (plugin & magic & rest & h & e & _ & _ & _ & _ & _ & _
                      & _ & _ & _ & _ & ->). done.
Qed.

Lemma top_level_record_starts_at_header_witness :
  Forall (fun f => is_Some (FORMAT_PLUGINS !! f)) (formats all_formats_opts) /\
  exists st, run nested_image all_formats_opts = Ok st.
Proof.
  split; [exact all_formats_registered|].
  destruct (top_level_record_starts_at_header nested_image all_formats_opts
              all_formats_registered) as (st & Hrun & _).
  exists st. exact Hrun.
Defined.

Lemma trace_parents self image nr ns nv :
  scan_trace self image nr ns nv ->
  forall i r pn, nr !! i = Some r -> CarveRecord.embedded_parent r = Some pn ->
    exists j parent,
      (j < i)%nat /\ nr !! j = Some parent /\
      CarveRecord.embedded_parent parent = None /\
      pn = record_name parent /\
      CarveRecord.fmt r <> CarveRecord.fmt parent /\
      0 < embedded_depth (opts self).
Proof.
  induction 1 as [|r0 w v er es ev nr ns nv Ht He Hd _ IH];
    intros i r pn Hi Hpn; [done|].
  assert (Htop0 : CarveRecord.embedded_parent r0 = None).
  { by destruct Ht as (? & ? & ? & ? & ? & ? & _ & _ & _ & _ & _ & _ & _
                       & _ & ->). }
  destruct i as [|i]; [injection Hi as ->; congruence|].
  cbn in Hi. apply lookup_app_Some in Hi as [Hi|[Hlen Hi]].
  - exists 0%nat, r0. split; [lia|]. split; [done|]. split; [done|].
    destruct (Forall3_lookup_l _ _ _ _ _ _ He Hi) as (w' & v' & _ & _ & Hemb).
    destruct Hemb as (plugin & magic & rest & h & e & _ & Hne & _ & _ & _ & _
                      & _ & _ & _ & _ & ->).
    cbn in *. injection Hpn as <-. split; [done|]. split; [done|].
    destruct (Z_le_gt_dec (embedded_depth (opts self)) 0) as [Hle|]; [|lia].
    apply Hd in Hle. by subst er.
  - destruct (IH _ _ _ Hi Hpn) as (j & parent & Hj & Hjp & Hrest).
    exists (S (length er + j)), parent. split; [lia|]. split; [|done].
    change ((er ++ nr) !! (length er + j)%nat = Some parent).
    rewrite lookup_app_r by lia.
    by replace (length er + j - length er)%nat with j by lia.
Qed.

(** X7: embedded scanning is one level deep and skips the parent's format:
    every record with a parent comes after a top-level record of another
    format whose artifact name is that parent, and [embedded_depth] is
    positive. *)
Theorem embedded_parent_is_top_level (image : bytes) (o : CarveOptions) :
  Forall (fun f => is_Some (FORMAT_PLUGINS !! f)) (formats o) ->
  exists st, run image o = Ok st /\
    forall i r pn, records st !! i = Some r ->
      CarveRecord.embedded_parent r = Some pn ->
      exists j parent,
        (j < i)%nat /\ records st !! j = Some parent /\
        CarveRecord.embedded_parent parent = None /\
        pn = (CarveRecord.fmt parent ++ "_"
              ++ hex 12 (CarveRecord.start parent))%string /\
        CarveRecord.fmt r <> CarveRecord.fmt parent /\
        0 < embedded_depth o.
Proof.
  intros Hreg.
  destruct (run_trace image o Hreg) as (st & ps & Hrun & _ & _ & Htr).
  exists st. split; [done|]. intros i r pn Hi Hpn.
  exact (trace_parents _ _ _ _ _ Htr i r pn Hi Hpn).
Qed.

Lemma embedded_parent_is_top_level_witness :
  Forall (fun f => is_Some (FORMAT_PLUGINS !! f))
    (formats (with_embedded_depth all_formats_opts 2)) /\
  exists st, run nested_image (with_embedded_depth all_formats_opts 2)
             = Ok st.
Proof.
  split; [exact all_formats_registered|].
  destruct (embedded_parent_is_top_level nested_image
              (with_embedded_depth all_formats_opts 2)
              all_formats_registered) as (st & Hrun & _).
  exists st. exact Hrun.
Defined.

(** The embedded scan reads neither [fragmented] nor [chunk_size]. *)
Lemma scan_memory_fragmented_irrelevant (o : CarveOptions)
    (ps : list FormatPlugin.t) (b : bool) (c : Z) (parent : FormatPlugin.t)
    (data : bytes) (depth : Z) (pn : string) (st : CarverState) :
  _scan_memory_for_embedded
    {| opts := with_fragmented o b c; plugins := ps |}
    parent data depth pn st =
  _scan_memory_for_embedded {| opts := o; plugins := ps |}
    parent data depth pn st.
Proof. reflexivity. Qed.

Lemma scan_loop_fragmented (o : CarveOptions) (ps : list FormatPlugin.t)
    (b : bool) (c : Z) (plugin : FormatPlugin.t) (buf : bytes) :
  plugin = JPEGPlugin.plugin \/ plugin = PDFPlugin.plugin ->
  forall fuel off st, 0 <= off ->
    scan_loop {| opts := with_fragmented o b c; plugins := ps |}
      fuel plugin buf None 0 off st =
    scan_loop {| opts := o; plugins := ps |} fuel plugin buf None 0 off st.
Proof.
  intros Hp. induction fuel as [|fuel IH]; intros off st Hoff; [done|].
  cbn [scan_loop]. destruct (negb (off <? len buf)); [done|].
  assert (Hhd : exists magic,
            FormatPlugin.headers plugin = [magic] /\ magic <> [] /\
            forall h w ch, 0 <= h -> occ buf magic (Z.to_nat h) ->
              FormatPlugin.find_footer plugin buf h w = -1 ->
              FormatPlugin.fragmented_try_bridge plugin buf h w ch = -1).
  { destruct Hp as [->| ->]; eexists; (split; [reflexivity|]);
      (split; [done|]); intros h w ch Hh Hocc Hf; cbn in *.
    - by apply jpeg_bridge_redundant.
    - by apply pdf_bridge_redundant. }
  destruct Hhd as (magic & -> & Hne & Hred).
  destruct (Z.eqb_spec (find_from buf magic off) (-1)) as [|Hh]; [done|].
  destruct (find_from_bounds buf magic off Hne Hoff Hh) as (Hle & _ & Hocc).
  set (h := find_from buf magic off) in *.
  change (scan_window {| opts := with_fragmented o b c; plugins := ps |})
    with (scan_window {| opts := o; plugins := ps |}).
  set (w := scan_window {| opts := o; plugins := ps |} plugin).
  cbn [opts with_fragmented fragmented chunk_size max_size embedded_depth].
  set (e0 := FormatPlugin.find_footer plugin buf h w).
  assert (Hpair : forall fr ch,
            (if (e0 =? -1) && fr
             then (FormatPlugin.fragmented_try_bridge plugin buf h w ch,
                   negb (FormatPlugin.fragmented_try_bridge plugin buf h w ch
                         =? -1))
             else (e0, false)) = (e0, false)).
  { intros fr ch. destruct (Z.eqb_spec e0 (-1)) as [He0|]; [|done].
    destruct fr; [|done]. cbn [andb].
    rewrite (Hred h w ch ltac:(lia) Hocc He0). by rewrite He0. }
  rewrite !Hpair.
  destruct (negb (e0 =? -1)); [|apply IH; lia].
  destruct (Z.leb_spec (e0 - h) 0); cbn [orb]; [apply IH; lia|].
  destruct (e0 - h >? max_size o); [apply IH; lia|].
  cbn [call_validate _emit_file append_record records sink validations
       opts with_fragmented out_dir].
  destruct (embedded_depth o >? 0).
  - rewrite scan_memory_fragmented_irrelevant.
    destruct (_scan_memory_for_embedded _ _ _ _ _ _); cbn;
      [apply IH; lia | done ..].
  - cbn. apply IH. lia.
Qed.

Lemma for_each_ext_in {A : Type} (xs : list A)
    (body1 body2 : A -> CarverState -> result CarverState) :
  (forall x st, x ∈ xs -> body1 x st = body2 x st) ->
  forall st, for_each xs body1 st = for_each xs body2 st.
Proof.
  induction xs as [|x xs IH]; intros Hext st; [done|].
  cbn [for_each]. rewrite Hext by (by left).
  destruct (body2 x st); cbn; [|done..].
  apply IH. intros y st' Hy. apply Hext. by right.
Qed.

(** X8: without the ZIP format, [fragmented] (and [chunk_size]) change
    nothing: the run is the same with any setting of the two, because the
    JPEG and PDF bridges fail whenever their footer locators fail. *)
Theorem fragmented_irrelevant_without_zip
    (image : bytes) (o : CarveOptions) (b : bool) (c : Z) :
  (forall f, f ∈ formats o -> f = "jpeg"%string \/ f = "pdf"%string) ->
  run image (with_fragmented o b c) = run image o.
Proof.
  intros Hfmt. unfold run, Carver_init. cbn [formats with_fragmented].
  destruct (mapM _ (formats o)) as [ps|] eqn:E; [|done].
  cbn [mbind result_bind]. unfold _scan. cbn [plugins].
  apply mapM_Some in E.
  assert (Hps : Forall (fun p => p = JPEGPlugin.plugin \/
                                 p = PDFPlugin.plugin) ps).
  { clear -E Hfmt. induction E as [|f p fs ps Hfp _ IH]; [constructor|].
    constructor.
    - apply registry_lookup in Hfp as [Hf Hwf].
      destruct (wf_plugin_cases p Hwf) as [->|[->| ->]]; [by left | by right|].
      destruct (Hfmt f ltac:(by left)) as [->| ->]; discriminate Hf.
    - apply IH. intros g Hg. apply Hfmt. by right. }
  apply for_each_ext_in. intros plugin st Hin.
  rewrite Forall_forall in Hps. apply scan_loop_fragmented; [auto | lia].
Qed.

Lemma fragmented_irrelevant_without_zip_witness :
  (forall f, f ∈ formats (default_opts ["jpeg"; "pdf"]%string) ->
             f = "jpeg"%string \/ f = "pdf"%string) /\
  run nested_image
    (with_fragmented (default_opts ["jpeg"; "pdf"]%string) true 512) =
  run nested_image (default_opts ["jpeg"; "pdf"]%string).
Proof.
  assert (H : forall f, f ∈ formats (default_opts ["jpeg"; "pdf"]%string) ->
                        f = "jpeg"%string \/ f = "pdf"%string).
  { intros f Hf. cbn in Hf. apply elem_of_cons in Hf as [->|Hf]; [by left|].
    apply elem_of_cons in Hf as [->|Hf]; [by right|].
    by apply elem_of_nil in Hf. }
  split; [exact H|].
  exact (fragmented_irrelevant_without_zip nested_image _ true 512 H).
Defined.

(** * Outcome of a run, and where the bytes of an artifact come from *)

Lemma registered_lookup (f : string) :
  registered f <-> is_Some (FORMAT_PLUGINS !! f).
Proof.
  split.
  - intros [->|[->| ->]]; by eexists.
  - intros [p Hp]. apply registry_lookup in Hp as [Hf Hwf].
    destruct (wf_plugin_cases p Hwf) as [->|[->| ->]]; subst f;
      [by left | by right; left | by right; right].
Qed.

Lemma append_nil (t : string) : ("" ++ t = t)%string.
Proof. reflexivity. Qed.

Lemma append_cons (c : ascii) (s t : string) :
  (String c s ++ t = String c (s ++ t))%string.
Proof. reflexivity. Qed.

Lemma string_app_assoc (a b c : string) :
  ((a ++ b) ++ c = a ++ (b ++ c))%string.
Proof.
  induction a as [|x a IH]; [done|]. rewrite !append_cons. by rewrite IH.
Qed.

Lemma default_windows_nonneg (f : string) (w : Z) :
  scan_windows all_formats_opts !! f = Some w -> 0 <= w.
Proof.
  cbn [scan_windows all_formats_opts default_opts].
  unfold default_scan_windows. intros H.
  repeat (apply lookup_insert_Some in H as [[_ <-]|[_ H]]; [lia|]).
  by rewrite lookup_empty in H.
Qed.

Lemma all_formats_windows_nonneg (f : string) :
  0 <= default (max_size all_formats_opts)
         (scan_windows all_formats_opts !! f).
Proof.
  destruct (scan_windows all_formats_opts !! f) as [w|] eqn:E; cbn [default].
  - by apply (default_windows_nonneg f).
  - vm_compute. discriminate.
Qed.

(** X9: the scan terminates.  On a non-empty image, with no negative scan
    window for a requested format, a run returns when every requested
    format is one of [jpeg], [pdf] and [zip], and otherwise
    [Carver.__init__] raises [KeyError]: the loops end, [magic_list[0]] and
    [next(iter(plugin.headers()))] never fail.  (An empty image cannot be
    mapped, and a window below the range of a machine word cannot be passed
    to [mmap.find]; errors of the operating system are outside the
    model.) *)
Theorem run_outcome (image : bytes) (o : CarveOptions) :
  image <> [] ->
  (forall f, f ∈ formats o ->
     0 <= default (max_size o) (scan_windows o !! f)) ->
  (Forall registered (formats o) /\ exists st, run image o = Ok st) \/
  (Exists (fun f => ~ registered f) (formats o) /\
   run image o = Raise KeyError).
Proof.
  intros _ _.
  destruct (decide (Forall registered (formats o))) as [Hall|Hex].
  - left. split; [done|].
    destruct (run_trace image o) as (st & _ & Hrun & _); [|by exists st].
    eapply Forall_impl; [exact Hall|]. intros f. apply registered_lookup.
  - right. split; [by apply not_Forall_Exists; [apply _|]|].
    unfold run, Carver_init.
    destruct (mapM _ (formats o)) as [ps|] eqn:E; [|done].
    exfalso. apply Hex. apply mapM_Some in E. clear Hex.
    induction E as [|f p fs ps Hfp _ IH]; constructor; [|done].
    apply registered_lookup. by exists p.
Qed.

Lemma run_outcome_witness :
  (nested_image <> [] /\
   forall f, f ∈ formats all_formats_opts ->
     0 <= default (max_size all_formats_opts)
            (scan_windows all_formats_opts !! f)) /\
  ((Forall registered (formats all_formats_opts) /\
    exists st, run nested_image all_formats_opts = Ok st) \/
   (Exists (fun f => ~ registered f) (formats all_formats_opts) /\
    run nested_image all_formats_opts = Raise KeyError)).
Proof.
  split; [split; [discriminate
                 | intros f _; exact (all_formats_windows_nonneg f)]|].
  apply (run_outcome nested_image all_formats_opts); [discriminate|].
  intros f _. exact (all_formats_windows_nonneg f).
Defined.

Lemma trace_artifacts self image nr ns nv :
  scan_trace self image nr ns nv ->
  forall i r, nr !! i = Some r ->
    (CarveRecord.embedded_parent r = None /\
     ns !! i = Some (CarveRecord.out_path r,
                     slice image (CarveRecord.start r) (CarveRecord.end_ r)) /\
     CarveRecord.out_path r
       = carved_path (opts self) (CarveRecord.fmt r) (record_name r)) \/
    (exists j parent blob,
       (j < i)%nat /\ nr !! j = Some parent /\
       CarveRecord.embedded_parent parent = None /\
       ns !! j = Some (CarveRecord.out_path parent, blob) /\
       CarveRecord.embedded_parent r = Some (record_name parent) /\
       ns !! i = Some (CarveRecord.out_path r,
                       slice blob (CarveRecord.start r) (CarveRecord.end_ r)) /\
       CarveRecord.out_path r
         = carved_path (opts self) (CarveRecord.fmt r)
             (embedded_name (record_name parent) r)).
Proof.
  induction 1 as [|r0 w v er es ev nr ns nv Ht He Hd _ IH];
    intros i r Hi; [done|].
  pose proof (Forall3_length_lm _ _ _ _ He) as Hlen.
  destruct Ht as (plugin & magic & rest & h & e & uf & _ & _ & _ & _ & _ & _
                  & _ & Hw & Hr0).
  destruct i as [|i].
  - injection Hi as <-. left. subst w r0. by cbn.
  - cbn in Hi. apply lookup_app_Some in Hi as [Hi|[Hge Hi]].
    + right. exists 0%nat, r0, w.2.
      destruct (Forall3_lookup_l _ _ _ _ _ _ He Hi)
        as (w' & v' & Hw' & _ & Hemb).
      destruct Hemb as (q & m & rs & h' & e' & _ & _ & _ & _ & _ & _ & _ & _
                        & _ & Hw2 & Hr).
      split; [lia|]. split; [done|].
      split; [by subst r0|]. split; [by subst w r0|].
      split; [by subst r|].
      split; [|by subst w' r].
      change ((es ++ ns) !! i = Some (CarveRecord.out_path r,
                slice w.2 (CarveRecord.start r) (CarveRecord.end_ r))).
      rewrite lookup_app_l by (rewrite <- Hlen; by eapply lookup_lt_Some).
      rewrite Hw'. by subst w' r.
    + destruct (IH _ _ Hi) as [(Hp & Hs & Hpath)|
                               (j & parent & blob & Hj & Hjp & Hrest)].
      * left. split; [done|]. split; [|done].
        change ((es ++ ns) !! i = Some (CarveRecord.out_path r,
                  slice image (CarveRecord.start r) (CarveRecord.end_ r))).
        rewrite lookup_app_r by lia. by rewrite <- Hlen.
      * right. exists (S (length er + j)), parent, blob.
        destruct Hrest as (Hpt & Hsj & Hpar & Hsi & Hpath).
        split; [lia|]. split.
        { change ((er ++ nr) !! (length er + j)%nat = Some parent).
          rewrite lookup_app_r by lia.
          by replace (length er + j - length er)%nat with j by lia. }
        split; [done|]. split.
        { change ((es ++ ns) !! (length er + j)%nat
                  = Some (CarveRecord.out_path parent, blob)).
          rewrite lookup_app_r by lia. rewrite <- Hlen.
          by replace (length er + j - length er)%nat with j by lia. }
        split; [done|]. split; [|done].
        change ((es ++ ns) !! i = Some (CarveRecord.out_path r,
                  slice blob (CarveRecord.start r) (CarveRecord.end_ r))).
        rewrite lookup_app_r by lia. by rewrite <- Hlen.
Qed.

(** X10: where the bytes of an artifact come from, and how it is named.
    The file of a top-level record holds the bytes [image[start:end]], and
    its path ends with [carved/fmt_<start as 12 hex digits><ext>].  The
    file of a record with a parent holds [blob[start:end]], where [blob] is
    what was written for the parent, an earlier top-level record, and its
    path ends with [carved/<parent>__fmt_<start as 8 hex digits><ext>]: the
    offsets of an embedded record are relative to the artifact of its
    parent, not to the image. *)
Theorem artifact_bytes (image : bytes) (o : CarveOptions) :
  Forall (fun f => is_Some (FORMAT_PLUGINS !! f)) (formats o) ->
  exists st, run image o = Ok st /\
    forall i r, records st !! i = Some r ->
      (CarveRecord.embedded_parent r = None /\
       sink st !! i
         = Some (CarveRecord.out_path r,
                 slice image (CarveRecord.start r) (CarveRecord.end_ r)) /\
       exists dir,
         CarveRecord.out_path r
           = (dir ++ "carved/" ++ record_name r
              ++ extension (CarveRecord.fmt r))%string) \/
      (exists j parent blob,
         (j < i)%nat /\ records st !! j = Some parent /\
         CarveRecord.embedded_parent parent = None /\
         sink st !! j = Some (CarveRecord.out_path parent, blob) /\
         CarveRecord.embedded_parent r = Some (record_name parent) /\
         sink st !! i
           = Some (CarveRecord.out_path r,
                   slice blob (CarveRecord.start r) (CarveRecord.end_ r)) /\
         exists dir,
           CarveRecord.out_path r
             = (dir ++ "carved/" ++ embedded_name (record_name parent) r
                ++ extension (CarveRecord.fmt r))%string).
Proof.
  intros Hreg.
  destruct (run_trace image o Hreg) as (st & ps & Hrun & _ & _ & Htr).
  exists st. split; [done|]. intros i r Hi.
  assert (Hdir : forall f n,
            carved_path o f n
            = ((out_dir o ++ "/") ++ "carved/" ++ n ++ extension f)%string).
  { intros f n. unfold carved_path. by rewrite string_app_assoc. }
  destruct (trace_artifacts _ _ _ _ _ Htr i r Hi)
    as [(Hn & Hs & Hp)|(j & parent & blob & Hj & Hjp & Hpt & Hsj & Hpar
                        & Hsi & Hp)]; cbn [opts] in Hp.
  - left. split; [done|]. split; [done|].
    exists (out_dir o ++ "/")%string. by rewrite Hp, Hdir.
  - right. exists j, parent, blob. repeat (split; [done|]).
    exists (out_dir o ++ "/")%string. by rewrite Hp, Hdir.
Qed.

Lemma artifact_bytes_witness :
  Forall (fun f => is_Some (FORMAT_PLUGINS !! f))
    (formats (with_embedded_depth all_formats_opts 1)) /\
  exists st, run nested_image (with_embedded_depth all_formats_opts 1)
             = Ok st.
Proof.
  split; [exact all_formats_registered|].
  destruct (artifact_bytes nested_image
              (with_embedded_depth all_formats_opts 1)
              all_formats_registered) as (st & Hrun & _).
  exists st. exact Hrun.
Defined.

(** * Footer locators and bridges of the plugins *)

(** X11: for a header at [h], [JPEGPlugin.find_footer] returns the end of
    the first EOI marker that starts at or after [h + 2] and lies inside
    the scan window and the buffer, and [-1] when there is none. *)
Theorem jpeg_find_footer_first_eoi (buf : bytes) (h max_scan : Z) :
  0 <= h -> 0 <= max_scan ->
  let r := JPEGPlugin.find_footer buf h max_scan in
  (r = -1 /\
   forall p, ~ occurs_within buf JPEGPlugin.EOI (h + 2) (h + max_scan) p) \/
  (exists p,
     first_within buf JPEGPlugin.EOI (h + 2) (h + max_scan) p /\ r = p + 2).
Proof.
  intros Hh Hm. cbn zeta. unfold JPEGPlugin.find_footer, find_range.
  pose proof (find_window buf JPEGPlugin.EOI (h + 2) (h + max_scan)
                ltac:(lia) ltac:(lia) ltac:(done)) as Hw.
  cbn zeta in Hw. set (r0 := find _ _) in *.
  destruct Hw as [[Hr Hnone]|[Hr Hfirst]].
  - left. by rewrite Hr.
  - right. exists (h + 2 + r0). split; [done|].
    destruct (Z.eqb_spec r0 (-1)); [lia|].
    destruct Hfirst as [(_ & _ & Hocc) _].
    apply occ_length in Hocc; [|done]. cbn [length JPEGPlugin.EOI] in Hocc.
    assert (Hs : clamp_index (len buf) (h + 2) = h + 2).
    { unfold clamp_index, len. destruct (Z.ltb_spec (h + 2) 0); lia. }
    rewrite Hs. destruct (Z.eqb_spec (h + 2 + r0) (-1)); [lia|]. done.
Qed.

Lemma jpeg_find_footer_first_eoi_witness :
  (0 <= 1 /\ 0 <= 64) /\ JPEGPlugin.find_footer jpeg_two_eoi 1 64 = 8 /\
  ((JPEGPlugin.find_footer jpeg_two_eoi 1 64 = -1 /\
    forall p, ~ occurs_within jpeg_two_eoi JPEGPlugin.EOI (1 + 2) (1 + 64) p)
   \/
   (exists p,
      first_within jpeg_two_eoi JPEGPlugin.EOI (1 + 2) (1 + 64) p /\
      JPEGPlugin.find_footer jpeg_two_eoi 1 64 = p + 2)).
Proof.
  split; [lia|]. split; [reflexivity|].
  apply (jpeg_find_footer_first_eoi jpeg_two_eoi 1 64); lia.
Defined.

(** X12: [PDFPlugin.fragmented_try_bridge] returns the end of the first
    [%%EOF] of the window, where [find_footer] returns the end of the last
    one: the bridge fails exactly when [find_footer] fails, and otherwise
    never carves more than [find_footer]. *)
Theorem pdf_bridge_first_eof (buf : bytes) (h span chunk : Z) :
  0 <= h -> 0 <= span ->
  let r := PDFPlugin.fragmented_try_bridge buf h span chunk in
  (r = -1 /\ PDFPlugin.find_footer buf h span = -1 /\
   forall p, ~ occurs_within buf PDFPlugin.EOF h (h + span) p) \/
  (exists p,
     first_within buf PDFPlugin.EOF h (h + span) p /\ r = p + 5 /\
     r <= PDFPlugin.find_footer buf h span).
Proof.
  intros Hh Hs. cbn zeta.
  unfold PDFPlugin.fragmented_try_bridge, PDFPlugin.find_footer.
  pose proof (find_window buf PDFPlugin.EOF h (h + span)
                Hh ltac:(lia) ltac:(done)) as Hf.
  pose proof (rfind_window buf PDFPlugin.EOF h (h + span)
                Hh ltac:(lia) ltac:(done)) as Hr.
  cbn zeta in Hf, Hr. set (W := slice _ _ _) in *.
  change (len PDFPlugin.EOF) with 5.
  destruct Hf as [[Hf Hnone]|[Hf Hfirst]].
  - left. rewrite Hf. apply find_rfind_none in Hf. by rewrite Hf.
  - right. exists (h + find W PDFPlugin.EOF). split; [done|].
    destruct (Z.eqb_spec (find W PDFPlugin.EOF) (-1)); [lia|]. cbn [negb].
    split; [lia|].
    destruct Hr as [[Hr _]|[Hr [Hlast _]]].
    + apply find_rfind_none in Hr. lia.
    + destruct (Z.eqb_spec (rfind W PDFPlugin.EOF) (-1)); [lia|].
      destruct Hfirst as [_ Hmin]. apply Hmin in Hlast. lia.
Qed.

Lemma pdf_bridge_first_eof_witness :
  (0 <= 0 /\ 0 <= 100) /\
  PDFPlugin.fragmented_try_bridge pdf_two_eof 0 100 4096 = 10 /\
  PDFPlugin.find_footer pdf_two_eof 0 100 = 16 /\
  ((PDFPlugin.fragmented_try_bridge pdf_two_eof 0 100 4096 = -1 /\
    PDFPlugin.find_footer pdf_two_eof 0 100 = -1 /\
    forall p, ~ occurs_within pdf_two_eof PDFPlugin.EOF 0 (0 + 100) p) \/
   (exists p,
      first_within pdf_two_eof PDFPlugin.EOF 0 (0 + 100) p /\
      PDFPlugin.fragmented_try_bridge pdf_two_eof 0 100 4096 = p + 5 /\
      PDFPlugin.fragmented_try_bridge pdf_two_eof 0 100 4096
        <= PDFPlugin.find_footer pdf_two_eof 0 100)).
Proof.
  split; [lia|]. split; [reflexivity|]. split; [reflexivity|].
  apply (pdf_bridge_first_eof pdf_two_eof 0 100 4096); lia.
Defined.

(** Where the ZIP bridge succeeds after [find_footer] has failed, the
    window holds no EOCD, and the carve ends right after the first ZIP64
    locator signature or, without one, the first ZIP64 EOCD signature. *)
Lemma zip_bridge_stub (buf : bytes) (h w c e : Z) :
  0 <= h ->
  ZIPPlugin.find_footer buf h w = -1 ->
  ZIPPlugin.fragmented_try_bridge buf h w c = e -> e <> -1 ->
  h + 4 <= e <= len buf /\
  (occ buf ZIPPlugin.EOCD64_LOC (Z.to_nat (e - 4)) \/
   occ buf ZIPPlugin.EOCD64 (Z.to_nat (e - 4))) /\
  contains ZIPPlugin.EOCD (slice buf h e) = false.
Proof.
  intros Hh. unfold ZIPPlugin.find_footer, ZIPPlugin.fragmented_try_bridge.
  set (E := Z.min _ _).
  assert (HE : E <= len buf) by (subst E; lia).
  set (W := slice buf h E).
  intros Hfoot.
  assert (Hne : rfind W ZIPPlugin.EOCD = -1 /\
                (rfind W ZIPPlugin.EOCD64_LOC = -1 \/
                 rfind W ZIPPlugin.EOCD64 = -1)).
  { pose proof (rfind_lower W ZIPPlugin.EOCD64_LOC).
    pose proof (rfind_lower W ZIPPlugin.EOCD64).
    pose proof (rfind_lower W ZIPPlugin.EOCD).
    revert Hfoot.
    destruct (Z.eqb_spec (rfind W ZIPPlugin.EOCD64_LOC) (-1)) as [Hl|Hl];
      destruct (Z.eqb_spec (rfind W ZIPPlugin.EOCD64) (-1)) as [H6|H6];
      destruct (Z.eqb_spec (rfind W ZIPPlugin.EOCD) (-1)) as [He|He];
      cbn [negb andb]; intros Hfoot; try (split; [done|auto]);
      try (pose proof (parse_eocd_end_lower buf
                         (h + rfind W ZIPPlugin.EOCD) E ltac:(lia) HE); lia).
    all: destruct (_ >? _); lia. }
  destruct Hne as [He Hone]. apply find_rfind_none in He.
  assert (Hat : forall sig r, sig <> [] -> length sig = 4%nat ->
            find W sig = r -> r <> -1 ->
            h + 4 <= h + r + 4 <= len buf /\
            occ buf sig (Z.to_nat (h + r + 4 - 4)) /\
            contains ZIPPlugin.EOCD (slice buf h (h + r + 4)) = false).
  { intros sig r Hsig Hl4 Hr Hr1.
    destruct (find_some _ _ _ Hr Hr1) as (H0 & Hocc & _).
    pose proof (occ_length _ _ _ Hocc Hsig) as HlW.
    pose proof Hocc as Hoccb.
    apply occ_slice in Hoccb as [Hoccb Hb]; [|lia|done].
    unfold len in Hb. rewrite Hl4 in Hb, HlW.
    split; [unfold len; lia|]. split.
    { by replace (Z.to_nat (h + r + 4 - 4)) with (Z.to_nat h + Z.to_nat r)%nat
        by lia. }
    unfold contains. apply negb_false_iff. apply Z.eqb_eq.
    destruct (Z.eq_dec (find (slice buf h (h + r + 4)) ZIPPlugin.EOCD) (-1))
      as [|Hn]; [done|exfalso].
    destruct (find_some _ _ _ eq_refl Hn) as (_ & Ho & _).
    destruct (slice_prefix buf h E Hh) as [k Hk].
    assert (HW : slice buf h (h + r + 4) = take (Z.to_nat (r + 4)) W).
    { assert (HWk : (length W <= k)%nat)
        by (unfold W; rewrite Hk, length_take; lia).
      rewrite slice_nonneg by lia. unfold W. rewrite Hk, take_take.
      f_equal. lia. }
    set (n := Z.to_nat (find (slice buf h (h + r + 4)) ZIPPlugin.EOCD)) in *.
    apply (find_none W ZIPPlugin.EOCD He n).
    rewrite HW in Ho. by apply occ_take in Ho as [Ho _]. }
  cbn [ZIPPlugin.bridge_sigs].
  destruct (Z.eqb_spec (find W ZIPPlugin.EOCD) (-1)) as [_|Hc]; [|done].
  cbn [negb].
  destruct (Z.eqb_spec (find W ZIPPlugin.EOCD64_LOC) (-1)) as [Hl|Hl];
    cbn [negb].
  - destruct (Z.eqb_spec (find W ZIPPlugin.EOCD64) (-1)) as [H6|H6];
      cbn [negb]; [by intros <-|].
    rewrite bool_decide_eq_false_2 by done.
    change (len ZIPPlugin.EOCD64) with 4. intros <- _.
    destruct (Hat ZIPPlugin.EOCD64 _ ltac:(done) eq_refl eq_refl H6)
      as (? & ? & ?). auto.
  - rewrite bool_decide_eq_false_2 by done.
    change (len ZIPPlugin.EOCD64_LOC) with 4. intros <- _.
    destruct (Hat ZIPPlugin.EOCD64_LOC _ ltac:(done) eq_refl eq_refl Hl)
      as (? & ? & ?). auto.
Qed.

(** X13: a record with the note [fragmented-bridge] is a ZIP64 stub: its
    bytes are [image[start:end]], they start with a local file header,
    end with the four bytes of a ZIP64 locator or ZIP64 EOCD signature,
    and hold no EOCD signature. *)
Theorem bridge_records_are_zip64_stubs (image : bytes) (o : CarveOptions) :
  Forall (fun f => is_Some (FORMAT_PLUGINS !! f)) (formats o) ->
  exists st, run image o = Ok st /\
    forall i r, records st !! i = Some r ->
      CarveRecord.notes r = Some "fragmented-bridge"%string ->
      exists data,
        sink st !! i = Some (CarveRecord.out_path r, data) /\
        data = slice image (CarveRecord.start r) (CarveRecord.end_ r) /\
        len data = CarveRecord.size r /\
        startswith data ZIPPlugin.LFH = true /\
        (endswith data ZIPPlugin.EOCD64_LOC = true \/
         endswith data ZIPPlugin.EOCD64 = true) /\
        contains ZIPPlugin.EOCD data = false.
Proof.
  intros Hreg.
  destruct (run_entries image o Hreg) as (st & ps & Hrun & Hwf & Hall).
  exists st. split; [done|]. intros i r Hi Hnote.
  destruct (Forall3_lookup_l _ _ _ _ _ _ Hall Hi) as (w & v & Hw & _ & He).
  destruct He as [Htop|(parent & pw & pv & _ & _ & Hemb)].
  2:{ destruct Hemb as (plugin & magic & rest & h & e & _ & _ & _ & _ & _ & _
                        & _ & _ & _ & _ & ->). done. }
  destruct Htop as (plugin & magic & rest & h & e & uf & Hp & Hhd & Hh
                    & Hocc & Hloc & Hsz & _ & -> & ->).
  cbn in Hnote |- *. exists (slice image h e). split; [done|].
  split; [done|].
  destruct Hloc as [(-> & _)|(-> & _ & Hfoot & Hb & Hne)]; [done|].
  rewrite Forall_forall in Hwf. apply Hwf in Hp.
  destruct (wf_plugin_cases plugin Hp) as [->|[->| ->]];
    injection Hhd as <- <-.
  - exfalso. apply Hne. rewrite Hb. by apply jpeg_bridge_redundant.
  - exfalso. apply Hne. rewrite Hb. by apply pdf_bridge_redundant.
  - destruct (zip_bridge_stub image h
                (scan_window {| opts := o; plugins := ps |} ZIPPlugin.plugin)
                (chunk_size o) e Hh Hfoot (eq_sym Hb) Hne)
      as (Hbd & Hsig & Hno).
    split; [apply len_carve; lia|].
    split; [apply startswith_carve;
              [done..|change (len ZIPPlugin.LFH) with 4; lia|done]|].
    split; [|done].
    destruct Hsig as [Hs|Hs]; [left|right];
      (apply endswith_carve;
         [done|done|change (len _) with 4; lia|lia|exact Hs]).
Qed.

Lemma bridge_records_are_zip64_stubs_witness :
  Forall (fun f => is_Some (FORMAT_PLUGINS !! f))
    (formats all_formats_bridge_opts) /\
  exists st, run pdf_with_zip64_stub all_formats_bridge_opts = Ok st.
Proof.
  split; [exact all_formats_registered|].
  destruct (bridge_records_are_zip64_stubs pdf_with_zip64_stub
              all_formats_bridge_opts all_formats_registered)
    as (st & Hrun & _).
  exists st. exact Hrun.
Defined.

(** * Artifact names are unique *)

Lemma all_hex_of_pos (p : positive) (rest : string) :
  all_hex rest = true -> all_hex (HexString.Raw.of_pos p rest) = true.
Proof.
  revert p rest. fix IH 1. intros p rest Hr.
  do 4 try destruct p as [p|p|]; cbn [HexString.Raw.of_pos];
    first [ apply IH; cbn; exact Hr | cbn; exact Hr ].
Qed.

Lemma all_hex_zero_pad (n : nat) (s : string) :
  all_hex s = true -> all_hex (zero_pad n s) = true.
Proof.
  revert s. induction n as [|n IH]; intros s Hs; [done|].
  cbn [zero_pad]. apply IH. by cbn.
Qed.

Lemma all_hex_hex (w : nat) (h : Z) : all_hex (hex w h) = true.
Proof.
  unfold hex. apply all_hex_zero_pad.
  destruct h; [done| |done]. by apply all_hex_of_pos.
Qed.

Lemma to_N_zero_pad (n : nat) (s : string) :
  HexString.Raw.to_N (zero_pad n s) 0 = HexString.Raw.to_N s 0.
Proof.
  revert s. induction n as [|n IH]; intros s; [done|].
  cbn [zero_pad]. by rewrite IH.
Qed.

Lemma hex_inj (w w' : nat) (h h' : Z) :
  0 <= h -> 0 <= h' -> hex w h = hex w' h' -> h = h'.
Proof.
  assert (Hdec : forall w h, 0 <= h ->
            HexString.Raw.to_N (hex w h) 0 = Z.to_N h).
  { intros v x Hx. unfold hex. rewrite to_N_zero_pad.
    destruct x as [|p|p]; [done| |lia].
    by rewrite HexString.Raw.to_N_of_pos. }
  intros Hh Hh' Heq.
  apply (f_equal (fun s => HexString.Raw.to_N s 0)) in Heq.
  rewrite !Hdec in Heq by done. lia.
Qed.

(** A string of hex digits ends at the first character that is not one. *)
Lemma hex_split (H1 H2 : string) (c1 c2 : ascii) (R1 R2 : string) :
  all_hex H1 = true -> all_hex H2 = true ->
  is_hex_digit c1 = false -> is_hex_digit c2 = false ->
  (H1 ++ String c1 R1 = H2 ++ String c2 R2)%string ->
  H1 = H2 /\ c1 = c2 /\ R1 = R2.
Proof.
  revert H2. induction H1 as [|x H1 IH]; intros [|y H2] Ha1 Ha2 Hc1 Hc2 Heq;
    rewrite ?append_cons, ?append_nil in Heq; cbn [all_hex] in *.
  - by injection Heq as -> ->.
  - injection Heq as -> _. apply andb_prop in Ha2 as [Hy _]. congruence.
  - injection Heq as -> _. apply andb_prop in Ha1 as [Hx _]. congruence.
  - injection Heq as -> Heq.
    apply andb_prop in Ha1 as [_ Ha1]. apply andb_prop in Ha2 as [_ Ha2].
    destruct (IH _ Ha1 Ha2 Hc1 Hc2 Heq) as (-> & -> & ->). done.
Qed.

(** A registered format name, an underscore, hex digits and then something
    that does not start with a hex digit: the parts are determined by the
    string. *)
Lemma tagged_split (F1 F2 H1 H2 : string) (c1 c2 : ascii) (R1 R2 : string) :
  registered F1 -> registered F2 ->
  all_hex H1 = true -> all_hex H2 = true ->
  is_hex_digit c1 = false -> is_hex_digit c2 = false ->
  (F1 ++ "_" ++ H1 ++ String c1 R1 = F2 ++ "_" ++ H2 ++ String c2 R2)%string ->
  F1 = F2 /\ H1 = H2 /\ c1 = c2 /\ R1 = R2.
Proof.
  intros [->|[->| ->]] [->|[->| ->]] Ha1 Ha2 Hc1 Hc2 Heq;
    rewrite ?append_cons, ?append_nil in Heq; try discriminate Heq;
    (split; [done|]); injection Heq as Heq;
    exact (hex_split _ _ _ _ _ _ Ha1 Ha2 Hc1 Hc2 Heq).
Qed.

Lemma record_name_inj (F1 F2 : string) (s1 s2 : Z) :
  registered F1 -> registered F2 -> 0 <= s1 -> 0 <= s2 ->
  (F1 ++ "_" ++ hex 12 s1 = F2 ++ "_" ++ hex 12 s2)%string ->
  F1 = F2 /\ s1 = s2.
Proof.
  intros HF1 HF2 Hs1 Hs2 Heq.
  apply (f_equal (fun s => (s ++ ".")%string)) in Heq.
  rewrite !string_app_assoc in Heq.
  destruct (tagged_split F1 F2 (hex 12 s1) (hex 12 s2) "." "." "" ""
              HF1 HF2 (all_hex_hex _ _) (all_hex_hex _ _) eq_refl eq_refl)
    as (-> & Hh & _); [exact Heq|].
  split; [done|]. by apply hex_inj in Hh.
Qed.

Lemma wf_registered (p : FormatPlugin.t) :
  wf_plugin p -> registered (FormatPlugin.fmt p).
Proof. intros [Hp _]. apply registered_lookup. by eexists. Qed.

Lemma NoDup_fmap_determines {A B C : Type} (f : A -> B) (g : A -> C)
    (l : list A) :
  (forall x y, x ∈ l -> y ∈ l -> g x = g y -> f x = f y) ->
  NoDup (f <$> l) -> NoDup (g <$> l).
Proof.
  induction l as [|x l IH]; intros Hdet Hnd; [constructor|].
  rewrite fmap_cons in Hnd. rewrite fmap_cons.
  apply NoDup_cons in Hnd as [Hx Hnd]. apply NoDup_cons. split.
  - intros Hin. apply list_elem_of_fmap in Hin as (y & Hy & Hyl).
    apply Hx. apply list_elem_of_fmap. exists y. split; [|done].
    apply Hdet; [by left | by right | done].
  - apply IH; [|done]. intros a b Ha Hb. apply Hdet; by right.
Qed.

(** ** No two records of a run share parent, format and start *)

Lemma embedded_loop_keys (self : Carver) (plugin : FormatPlugin.t)
    (data : bytes) (pname : string) :
  wf_plugin plugin ->
  forall (fuel : nat) (off : Z) (st st' : CarverState),
    0 <= off ->
    embedded_loop self fuel plugin data pname off st = Ok st' ->
    exists nr, records st' = records st ++ nr /\
      Forall (fun r => CarveRecord.embedded_parent r = Some pname /\
                       CarveRecord.fmt r = FormatPlugin.fmt plugin /\
                       off <= CarveRecord.start r) nr /\
      NoDup (CarveRecord.start <$> nr).
Proof.
  intros (Hreg & magic & rest & Hhd & Hne).
  induction fuel as [|fuel IH]; intros off st st' Hoff Hrun; [done|].
  cbn [embedded_loop] in Hrun. rewrite Hhd in Hrun.
  destruct (Z.eqb_spec (find_from data magic off) (-1)) as [Hh|Hh].
  { injection Hrun as <-. exists []. rewrite app_nil_r.
    repeat split; constructor. }
  destruct (find_from_bounds data magic off Hne Hoff Hh) as (Hle & Hfit & Ho).
  set (h := find_from data magic off) in *.
  set (e := FormatPlugin.find_footer plugin data h (scan_window self plugin))
    in *.
  destruct (negb (e =? -1) && (0 <? e - h)
            && (e - h <=? max_size (opts self))) eqn:Hc.
  - apply andb_true_iff in Hc as [Hc _].
    apply andb_true_iff in Hc as [_ Hc2]. apply Z.ltb_lt in Hc2.
    cbn [call_validate _emit_file append_record records sink validations]
      in Hrun.
    apply IH in Hrun as (nr & Hrec & Hall & Hnd); [|lia].
    cbn [append_record records] in Hrec.
    eexists (_ :: nr). split; [by rewrite Hrec, <- app_assoc|]. split.
    + constructor; [cbn; repeat split; lia|].
      eapply Forall_impl; [exact Hall|]. intros r (? & ? & ?).
      repeat split; try done. lia.
    + rewrite fmap_cons. apply NoDup_cons. split; [|done]. cbn.
      intros Hin. apply list_elem_of_fmap in Hin as (r & Hr & Hrin).
      rewrite Forall_forall in Hall. destruct (Hall r Hrin) as (_ & _ & ?).
      lia.
  - apply IH in Hrun as (nr & Hrec & Hall & Hnd); [|lia].
    exists nr. split; [done|]. split; [|done].
    eapply Forall_impl; [exact Hall|]. intros r (? & ? & ?).
    repeat split; try done. lia.
Qed.

Lemma scan_memory_keys_gen (self : Carver) (parent : FormatPlugin.t)
    (data : bytes) (pname : string) (qs : list FormatPlugin.t) :
  Forall wf_plugin qs -> NoDup (FormatPlugin.fmt <$> qs) ->
  forall st st',
    for_each qs
      (fun plugin st =>
         if String.eqb (FormatPlugin.fmt plugin) (FormatPlugin.fmt parent)
         then Ok st
         else embedded_loop self (S (S (length data))) plugin data pname 0 st)
      st = Ok st' ->
    exists nr, records st' = records st ++ nr /\
      Forall (fun r => CarveRecord.embedded_parent r = Some pname /\
                       CarveRecord.fmt r ∈ FormatPlugin.fmt <$> qs) nr /\
      NoDup (key <$> nr).
Proof.
  induction qs as [|q qs IH]; intros Hwf Hnd st st' Hrun.
  { injection Hrun as <-. exists []. rewrite app_nil_r.
    repeat split; constructor. }
  apply Forall_cons in Hwf as [Hq Hwf]. rewrite fmap_cons in Hnd.
  apply NoDup_cons in Hnd as [Hnq Hnd]. cbn [for_each] in Hrun.
  assert (Hweak : forall nr,
            Forall (fun r => CarveRecord.embedded_parent r = Some pname /\
                       CarveRecord.fmt r ∈ FormatPlugin.fmt <$> qs) nr ->
            Forall (fun r => CarveRecord.embedded_parent r = Some pname /\
                       CarveRecord.fmt r ∈ FormatPlugin.fmt <$> q :: qs) nr).
  { intros nr Hnr. eapply Forall_impl; [exact Hnr|].
    intros r [? ?]. split; [done|].
    rewrite fmap_cons. by right. }
  destruct (String.eqb _ _).
  - cbn [mbind result_bind] in Hrun.
    destruct (IH Hwf Hnd _ _ Hrun) as (nr & Hrec & Hall & Hk).
    exists nr. split; [done|]. split; [by apply Hweak | done].
  - destruct (embedded_loop _ _ _ _ _ _ _) as [st1| |] eqn:E1;
      cbn [mbind result_bind] in Hrun; [|done..].
    apply embedded_loop_keys in E1 as (nr1 & Hr1 & Hall1 & Hnd1);
      [|done|lia].
    destruct (IH Hwf Hnd _ _ Hrun) as (nr2 & Hr2 & Hall2 & Hk2).
    exists (nr1 ++ nr2). split; [by rewrite Hr2, Hr1, app_assoc|]. split.
    + apply Forall_app. split; [|by apply Hweak].
      eapply Forall_impl; [exact Hall1|]. intros r (? & Hf & _).
      split; [done|]. rewrite Hf, fmap_cons. by left.
    + rewrite fmap_app. apply NoDup_app. split; [|split; [|done]].
      * apply (NoDup_fmap_determines CarveRecord.start key); [|done].
        intros x y _ _ Hxy. unfold key in Hxy. congruence.
      * intros k Hk1 Hk2'.
        apply list_elem_of_fmap in Hk1 as (r1 & -> & Hin1).
        apply list_elem_of_fmap in Hk2' as (r2 & Heq & Hin2).
        rewrite Forall_forall in Hall1. rewrite Forall_forall in Hall2.
        destruct (Hall1 _ Hin1) as (_ & Hf1 & _).
        destruct (Hall2 _ Hin2) as (_ & Hf2).
        apply Hnq. unfold key in Heq. injection Heq as _ Hf _.
        by rewrite <- Hf1, Hf.
Qed.

Lemma scan_memory_keys (self : Carver) (parent : FormatPlugin.t)
    (data : bytes) (depth : Z) (pname : string) (st st' : CarverState) :
  Forall wf_plugin (plugins self) ->
  NoDup (FormatPlugin.fmt <$> plugins self) ->
  _scan_memory_for_embedded self parent data depth pname st = Ok st' ->
  exists nr, records st' = records st ++ nr /\
    Forall (fun r => CarveRecord.embedded_parent r = Some pname) nr /\
    NoDup (key <$> nr).
Proof.
  intros Hwf Hnd Hrun.
  destruct (scan_memory_keys_gen self parent data pname _ Hwf Hnd _ _ Hrun)
    as (nr & Hrec & Hall & Hk).
  exists nr. split; [done|]. split; [|done].
  eapply Forall_impl; [exact Hall|]. by intros r [? _].
Qed.

Lemma in_batch_weaken (p : FormatPlugin.t) (off off' : Z)
    (nr : list CarveRecord.t) :
  off <= off' -> Forall (in_batch p off') nr -> Forall (in_batch p off) nr.
Proof.
  intros Hle Hall. eapply Forall_impl; [exact Hall|].
  intros r [(? & ? & ?)|(s & ? & ?)]; [left|right].
  - repeat split; try done. lia.
  - exists s. split; [lia|done].
Qed.

Lemma scan_loop_keys (self : Carver) (plugin : FormatPlugin.t)
    (buf : bytes) :
  wf_plugin plugin -> Forall wf_plugin (plugins self) ->
  NoDup (FormatPlugin.fmt <$> plugins self) ->
  forall (fuel : nat) (off : Z) (st st' : CarverState),
    0 <= off ->
    scan_loop self fuel plugin buf None 0 off st = Ok st' ->
    exists nr, records st' = records st ++ nr /\
      Forall (in_batch plugin off) nr /\ NoDup (key <$> nr).
Proof.
  intros Hp Hwf Hnd. pose proof (wf_registered _ Hp) as Hreg.
  destruct Hp as (_ & magic & rest & Hhd & Hne).
  induction fuel as [|fuel IH]; intros off st st' Hoff Hrun; [done|].
  cbn [scan_loop] in Hrun. rewrite Hhd in Hrun.
  assert (Hstop : Ok st = Ok st' ->
            exists nr, records st' = records st ++ nr /\
              Forall (in_batch plugin off) nr /\ NoDup (key <$> nr)).
  { intros [= <-]. exists []. rewrite app_nil_r. repeat split; constructor. }
  destruct (Z.ltb_spec off (len buf)) as [Hlt|Hge]; cbn [negb] in Hrun;
    [|by apply Hstop].
  destruct (Z.eqb_spec (find_from buf magic off) (-1)) as [Hh|Hh];
    [by apply Hstop|]. clear Hstop.
  destruct (find_from_bounds buf magic off Hne Hoff Hh) as (Hle & Hfit & Ho).
  set (h := find_from buf magic off) in *.
  assert (Hskip : scan_loop self fuel plugin buf None 0 (h + 1) st = Ok st' ->
            exists nr, records st' = records st ++ nr /\
              Forall (in_batch plugin off) nr /\ NoDup (key <$> nr)).
  { intros Hr. apply IH in Hr as (nr & Hrec & Hall & Hk); [|lia].
    exists nr. split; [done|]. split; [|done].
    apply (in_batch_weaken plugin off (h + 1)); [lia|done]. }
  destruct (if _ && _ then _ else _) as [e uf].
  destruct (Z.eqb_spec e (-1)) as [He|He]; cbn [negb] in Hrun;
    [by apply Hskip|].
  destruct (Z.leb_spec (e - h) 0) as [Hs0|Hs0]; cbn [orb] in Hrun;
    [by apply Hskip|].
  destruct (e - h >? max_size (opts self)); [by apply Hskip|].
  clear Hskip.
  cbn [call_validate _emit_file append_record records sink validations]
    in Hrun.
  match type of Hrun with
  | context [append_record ?r ?s] =>
      set (rec := r) in *; set (st1 := append_record rec s) in *
  end.
  assert (Hemb : exists st2 er,
            scan_loop self fuel plugin buf None 0 e st2 = Ok st' /\
            records st2 = records st ++ [rec] ++ er /\
            Forall (fun r => CarveRecord.embedded_parent r
                     = Some (FormatPlugin.fmt plugin ++ "_" ++ hex 12 h)%string)
              er /\
            NoDup (key <$> er)).
  { destruct (embedded_depth (opts self) >? 0).
    - destruct (_scan_memory_for_embedded _ _ _ _ _ _) as [st2| |] eqn:E2;
        cbn [mbind result_bind] in Hrun; [|done..].
      apply scan_memory_keys in E2 as (er & Hr2 & Her & Hk); [|done..].
      exists st2, er. split; [done|]. split; [|done].
      rewrite Hr2. subst st1. cbn [append_record records].
      by rewrite <- app_assoc.
    - cbn [mbind result_bind] in Hrun. exists st1, []. split; [done|].
      split; [subst st1; by cbn|]. split; constructor. }
  destruct Hemb as (st2 & er & Hrun2 & Hr2 & Her & Hker).
  apply IH in Hrun2 as (nr & Hrec & Hall & Hk); [|lia].
  exists (rec :: er ++ nr).
  split; [rewrite Hrec, Hr2; by rewrite <- !app_assoc|].
  rewrite Forall_forall in Her. rewrite Forall_forall in Hall.
  split.
  - constructor; [left; subst rec; cbn; repeat split; lia|].
    apply Forall_app. split.
    + apply Forall_forall. intros r Hr. right. exists h. split; [lia|].
      by apply Her.
    + apply (in_batch_weaken plugin off e); [lia|]. by apply Forall_forall.
  - rewrite fmap_cons, fmap_app. apply NoDup_cons. split.
    + intros Hin. apply elem_of_app in Hin as [Hin|Hin];
        apply list_elem_of_fmap in Hin as (r & Hkey & Hr).
      * apply Her in Hr. subst rec. unfold key in Hkey. cbn in Hkey.
        congruence.
      * subst rec. unfold key in Hkey. cbn in Hkey.
        destruct (Hall _ Hr) as [(_ & _ & Hs)|(s & _ & Hpar)];
          [|congruence].
        injection Hkey as _ _ Hst. lia.
    + apply NoDup_app. split; [done|]. split; [|done].
      intros k Hk1 Hk2.
      apply list_elem_of_fmap in Hk1 as (r1 & -> & Hin1).
      apply list_elem_of_fmap in Hk2 as (r2 & Heq & Hin2).
      apply Her in Hin1. unfold key in Heq. injection Heq as Hpar _ _.
      destruct (Hall _ Hin2) as [(Hn & _)|(s & Hs & Hpar2)]; [congruence|].
      rewrite Hin1, Hpar2 in Hpar. injection Hpar as Hpar.
      apply record_name_inj in Hpar as [_ ?]; [lia|done|done|lia|lia].
Qed.

Lemma in_batch_disjoint (p q : FormatPlugin.t) (r1 r2 : CarveRecord.t) :
  wf_plugin p -> wf_plugin q -> FormatPlugin.fmt p <> FormatPlugin.fmt q ->
  in_batch p 0 r1 -> in_batch q 0 r2 -> key r1 <> key r2.
Proof.
  intros Hp Hq Hne H1 H2 Heq. unfold key in Heq. injection Heq as Hpar Hf _.
  destruct H1 as [(Hn1 & Hf1 & _)|(s1 & Hs1 & Hp1)];
    destruct H2 as [(Hn2 & Hf2 & _)|(s2 & Hs2 & Hp2)]; try congruence.
  rewrite Hp1, Hp2 in Hpar. injection Hpar as Hpar.
  apply record_name_inj in Hpar as [? _];
    [done|by apply wf_registered|by apply wf_registered|lia|lia].
Qed.

Lemma scan_plugins_keys (self : Carver) (buf : bytes)
    (qs : list FormatPlugin.t) :
  Forall wf_plugin (plugins self) ->
  NoDup (FormatPlugin.fmt <$> plugins self) ->
  Forall wf_plugin qs -> NoDup (FormatPlugin.fmt <$> qs) ->
  forall st st',
    for_each qs
      (fun plugin st => scan_loop self (S (length buf)) plugin buf None 0 0 st)
      st = Ok st' ->
    exists nr, records st' = records st ++ nr /\
      Forall (fun r => exists p, p ∈ qs /\ in_batch p 0 r) nr /\
      NoDup (key <$> nr).
Proof.
  intros Hwf Hnd. induction qs as [|q qs IH]; intros Hwq Hnq st st' Hrun.
  { injection Hrun as <-. exists []. rewrite app_nil_r.
    repeat split; constructor. }
  apply Forall_cons in Hwq as [Hq Hwq]. rewrite fmap_cons in Hnq.
  apply NoDup_cons in Hnq as [Hqn Hnq]. cbn [for_each] in Hrun.
  destruct (scan_loop _ _ _ _ _ _ _ _) as [st1| |] eqn:E1;
    cbn [mbind result_bind] in Hrun; [|done..].
  apply scan_loop_keys in E1 as (nr1 & Hr1 & Hall1 & Hk1); [|done..|lia].
  destruct (IH Hwq Hnq _ _ Hrun) as (nr2 & Hr2 & Hall2 & Hk2).
  exists (nr1 ++ nr2). split; [by rewrite Hr2, Hr1, app_assoc|]. split.
  - apply Forall_app. split.
    + eapply Forall_impl; [exact Hall1|]. intros r Hr. exists q.
      split; [by left|done].
    + eapply Forall_impl; [exact Hall2|]. intros r (p & Hin & Hr).
      exists p. split; [by right|done].
  - rewrite fmap_app. apply NoDup_app. split; [done|]. split; [|done].
    intros k Hin1 Hin2.
    apply list_elem_of_fmap in Hin1 as (r1 & -> & Hin1).
    apply list_elem_of_fmap in Hin2 as (r2 & Heq & Hin2).
    rewrite Forall_forall in Hall1. rewrite Forall_forall in Hall2.
    rewrite Forall_forall in Hwq.
    destruct (Hall2 _ Hin2) as (p & Hp & Hb2).
    apply (in_batch_disjoint q p r1 r2); [done|by apply Hwq| |by apply Hall1
                                          |done|done].
    intros Hf. apply Hqn. rewrite Hf. by apply list_elem_of_fmap_2.
Qed.

Lemma run_keys (image : bytes) (o : CarveOptions) (st : CarverState) :
  Forall (fun f => is_Some (FORMAT_PLUGINS !! f)) (formats o) ->
  NoDup (formats o) -> run image o = Ok st ->
  NoDup (key <$> records st).
Proof.
  intros Hreg Hnd Hrun.
  destruct (Carver_init_ok o Hreg) as (ps & Hinit & Hwf & Hfmt).
  unfold run in Hrun. rewrite Hinit in Hrun.
  cbn [mbind result_bind] in Hrun. unfold _scan in Hrun.
  cbn [plugins] in Hrun. rewrite <- Hfmt in Hnd.
  apply (scan_plugins_keys {| opts := o; plugins := ps |}) in Hrun
      as (nr & Hrec & _ & Hk); [|done..].
  by rewrite Hrec.
Qed.

Lemma all_formats_nodup : NoDup (formats all_formats_opts).
Proof. apply (bool_decide_unpack _). by vm_compute. Qed.

(** X14: when no format is requested twice, no two records of a run share
    parent, format and start offset. *)
Theorem record_keys_unique (image : bytes) (o : CarveOptions) :
  Forall (fun f => is_Some (FORMAT_PLUGINS !! f)) (formats o) ->
  NoDup (formats o) ->
  exists st, run image o = Ok st /\
    NoDup ((fun r => (CarveRecord.embedded_parent r, CarveRecord.fmt r,
                      CarveRecord.start r)) <$> records st).
Proof.
  intros Hreg Hnd.
  destruct (run_trace image o Hreg) as (st & _ & Hrun & _).
  exists st. split; [done|]. exact (run_keys image o st Hreg Hnd Hrun).
Qed.

Lemma record_keys_unique_witness :
  (Forall (fun f => is_Some (FORMAT_PLUGINS !! f))
     (formats (with_embedded_depth all_formats_opts 1)) /\
   NoDup (formats (with_embedded_depth all_formats_opts 1))) /\
  exists st, run nested_image (with_embedded_depth all_formats_opts 1)
             = Ok st.
Proof.
  split; [split; [exact all_formats_registered | exact all_formats_nodup]|].
  destruct (record_keys_unique nested_image
              (with_embedded_depth all_formats_opts 1)
              all_formats_registered all_formats_nodup) as (st & Hrun & _).
  exists st. exact Hrun.
Defined.

(** ** No artifact is overwritten *)

Lemma extension_dot (F : string) :
  registered F -> exists R, extension F = String "." R.
Proof. intros [->|[->| ->]]; by eexists. Qed.

Lemma top_tail (F H E : string) :
  ((F ++ "_" ++ H) ++ E = F ++ "_" ++ H ++ E)%string.
Proof. by rewrite !string_app_assoc. Qed.

Lemma embedded_tail (F H G H' E : string) :
  (((F ++ "_" ++ H) ++ "__" ++ G ++ "_" ++ H') ++ E
   = F ++ "_" ++ H ++ String "_" ("_" ++ G ++ "_" ++ H' ++ E))%string.
Proof. by rewrite !string_app_assoc. Qed.

Lemma shaped_path_inj (o : CarveOptions) (r1 r2 : CarveRecord.t) :
  shaped o r1 -> shaped o r2 ->
  CarveRecord.out_path r1 = CarveRecord.out_path r2 -> key r1 = key r2.
Proof.
  intros (Hf1 & Hs1 & Hc1) (Hf2 & Hs2 & Hc2) Heq.
  destruct (extension_dot _ Hf1) as [E1 HE1].
  destruct (extension_dot _ Hf2) as [E2 HE2].
  assert (Hhex : forall w h, all_hex (hex w h) = true)
    by apply all_hex_hex.
  unfold key.
  destruct Hc1 as [(Hn1 & Hp1)|(F1 & s1 & HF1 & Hs1' & Hn1 & Hp1)];
    destruct Hc2 as [(Hn2 & Hp2)|(F2 & s2 & HF2 & Hs2' & Hn2 & Hp2)];
    rewrite Hp1, Hp2 in Heq; unfold carved_path in Heq;
    apply (inj (String.app _)) in Heq; apply (inj (String.app _)) in Heq;
    unfold record_name, embedded_name in Heq; rewrite HE1, HE2 in Heq;
    rewrite ?embedded_tail, ?top_tail in Heq;
    rewrite Hn1, Hn2.
  - apply tagged_split in Heq as (Hf & Hh & _); [|done..].
    apply hex_inj in Hh; [|done..]. by rewrite Hf, Hh.
  - apply tagged_split in Heq as (_ & _ & Hc & _); [|done..].
    discriminate Hc.
  - apply tagged_split in Heq as (_ & _ & Hc & _); [|done..].
    discriminate Hc.
  - apply tagged_split in Heq as (HF & Hh & _ & Heq); [|done..].
    apply hex_inj in Hh; [|done..]. subst F2 s2.
    apply (inj (String.app _)) in Heq.
    apply tagged_split in Heq as (Hf & Hh & _); [|done..].
    apply hex_inj in Hh; [|done..]. by rewrite Hf, Hh.
Qed.

Lemma trace_shaped self image nr ns nv :
  Forall wf_plugin (plugins self) ->
  scan_trace self image nr ns nv ->
  Forall (shaped (opts self)) nr /\
  fst <$> ns = CarveRecord.out_path <$> nr.
Proof.
  intros Hwf Htr.
  pose proof (scan_trace_entries _ _ _ _ _ Htr) as Hent.
  assert (Hfacts : forall i r, nr !! i = Some r ->
            registered (CarveRecord.fmt r) /\ 0 <= CarveRecord.start r).
  { intros i r Hi.
    destruct (Forall3_lookup_l _ _ _ _ _ _ Hent Hi) as (w & v & _ & _ & He).
    destruct (entry_facts self _ _ _ _ Hwf He)
      as (plugin & view & Hp & Hf & _ & _ & _ & _ & Hse & _).
    rewrite Hf. split; [by apply wf_registered | lia]. }
  split.
  - apply Forall_lookup. intros i r Hi.
    destruct (Hfacts i r Hi) as [Hf Hs]. split; [done|]. split; [done|].
    destruct (trace_artifacts _ _ _ _ _ Htr i r Hi)
      as [(Hn & _ & Hp)|(j & parent & blob & _ & Hj & _ & _ & Hn & _ & Hp)].
    + by left.
    + right. destruct (Hfacts j parent Hj) as [HF Hsp].
      exists (CarveRecord.fmt parent), (CarveRecord.start parent).
      by repeat split.
  - clear Hfacts Htr. induction Hent as [|r w v nr ns nv He _ IH]; [done|].
    rewrite !fmap_cons. f_equal; [|done].
    destruct (entry_facts self _ _ _ _ Hwf He)
      as (plugin & view & _ & _ & _ & Hw & _). done.
Qed.

(** X15: when no format is requested twice, every record of a run has an
    [out_path] of its own and every file is written once: no artifact is
    overwritten by a later one. *)
Theorem artifact_paths_unique (image : bytes) (o : CarveOptions) :
  Forall (fun f => is_Some (FORMAT_PLUGINS !! f)) (formats o) ->
  NoDup (formats o) ->
  exists st, run image o = Ok st /\
    NoDup (CarveRecord.out_path <$> records st) /\
    NoDup (fst <$> sink st).
Proof.
  intros Hreg Hnd.
  destruct (run_trace image o Hreg) as (st & ps & Hrun & Hwf & _ & Htr).
  exists st. split; [done|].
  destruct (trace_shaped {| opts := o; plugins := ps |} _ _ _ _ Hwf Htr)
    as [Hsh Hpaths]. cbn [opts] in Hsh.
  rewrite Hpaths.
  assert (Hu : NoDup (CarveRecord.out_path <$> records st)); [|done].
  apply (NoDup_fmap_determines key CarveRecord.out_path).
  - intros x y Hx Hy. rewrite Forall_forall in Hsh.
    apply (shaped_path_inj o); by apply Hsh.
  - exact (run_keys image o st Hreg Hnd Hrun).
Qed.

Lemma artifact_paths_unique_witness :
  (Forall (fun f => is_Some (FORMAT_PLUGINS !! f))
     (formats (with_embedded_depth all_formats_opts 1)) /\
   NoDup (formats (with_embedded_depth all_formats_opts 1))) /\
  exists st, run two_jpegs (with_embedded_depth all_formats_opts 1)
             = Ok st.
Proof.
  split; [split; [exact all_formats_registered | exact all_formats_nodup]|].
  destruct (artifact_paths_unique two_jpegs
              (with_embedded_depth all_formats_opts 1)
              all_formats_registered all_formats_nodup) as (st & Hrun & _).
  exists st. exact Hrun.
Defined.

(** * Sizes on the command line *)

Lemma digit_props (c : ascii) :
  is_digit c = true ->
  is_str_space c = false /\
  exists d, digit_value (byte_of_ascii c) = Some d /\ 0 <= d.
Proof.
  destruct c as [[] [] [] [] [] [] [] []]; vm_compute; intros H;
    first [discriminate H | split; [reflexivity|eexists; split;
                                    [reflexivity|discriminate]]].
Qed.

Lemma letter_props (c : ascii) :
  is_unit c || is_b c = true ->
  is_str_space c = false /\ is_digit c = false.
Proof.
  destruct c as [[] [] [] [] [] [] [] []]; vm_compute; intros H;
    first [discriminate H | split; reflexivity].
Qed.

Lemma b_not_unit (c : ascii) : is_b c = true -> is_unit c = false.
Proof.
  destruct c as [[] [] [] [] [] [] [] []]; vm_compute; intros H;
    first [discriminate H | reflexivity].
Qed.

Lemma str_forall_app (p : ascii -> bool) (s t : string) :
  str_forall p (s ++ t) = str_forall p s && str_forall p t.
Proof.
  induction s as [|c s IH]; [done|].
  rewrite append_cons. cbn [str_forall]. by rewrite IH, andb_assoc.
Qed.

Lemma str_forall_impl (p q : ascii -> bool) (s : string) :
  (forall c, p c = true -> q c = true) ->
  str_forall p s = true -> str_forall q s = true.
Proof.
  intros Hpq. induction s as [|c s IH]; [done|]. cbn [str_forall].
  intros H. apply andb_prop in H as [Hc Hs].
  by rewrite (Hpq c Hc), IH.
Qed.

Lemma lstrip_spaces (pre t : string) :
  all_space pre = true -> str_lstrip (pre ++ t) = str_lstrip t.
Proof.
  unfold all_space. induction pre as [|c pre IH]; intros Hs; [done|].
  cbn [str_forall] in Hs. apply andb_prop in Hs as [Hc Hs].
  rewrite append_cons. cbn [str_lstrip]. rewrite Hc. by apply IH.
Qed.

Lemma rstrip_spaces (t post : string) :
  all_space post = true -> str_rstrip (t ++ post) = str_rstrip t.
Proof.
  unfold all_space. intros Hs. induction t as [|c t IH].
  - rewrite append_nil. induction post as [|c post IH]; [done|].
    cbn [str_forall] in Hs. apply andb_prop in Hs as [Hc Hs].
    cbn [str_rstrip]. by rewrite IH, Hc.
  - rewrite append_cons. cbn [str_rstrip]. by rewrite IH.
Qed.

Lemma rstrip_no_space (t : string) :
  str_forall (fun c => negb (is_str_space c)) t = true -> str_rstrip t = t.
Proof.
  induction t as [|c t IH]; intros Hall; [done|].
  cbn [str_forall] in Hall. apply andb_prop in Hall as [Hc Ht].
  cbn [str_rstrip]. rewrite IH by done.
  destruct t; [|done]. apply negb_true_iff in Hc. by rewrite Hc.
Qed.

Lemma span_digits_app (ds rest : string) :
  all_digits ds = true ->
  (forall c r, rest = String c r -> is_digit c = false) ->
  span_digits (ds ++ rest) = (ds, rest).
Proof.
  unfold all_digits. intros Hd Hrest. induction ds as [|d ds IH].
  - rewrite append_nil. destruct rest as [|c r]; [done|].
    cbn [span_digits]. by rewrite (Hrest c r).
  - cbn [str_forall] in Hd. apply andb_prop in Hd as [Hd Hds].
    rewrite append_cons. cbn [span_digits]. by rewrite Hd, IH.
Qed.

Lemma parse_digits_nonneg (b : bytes) :
  forall acc flag n, 0 <= acc -> parse_digits b acc flag = Some n -> 0 <= n.
Proof.
  induction b as [|x b IH]; intros acc flag n Hacc H; cbn [parse_digits] in H.
  - destruct flag; [|done]. by injection H as <-.
  - destruct (digit_value x) as [d|] eqn:Hd.
    + apply IH in H; [done|].
      assert (0 <= d) by (destruct x; cbn in Hd; try discriminate Hd;
                          injection Hd as <-; lia).
      lia.
    + destruct (Byte.eqb x x5f && flag); [|done]. by apply IH in H.
Qed.

Lemma parse_digits_digits (ds : string) :
  all_digits ds = true ->
  forall acc,
    (exists n, parse_digits (list_byte_of_string ds) acc true = Some n) /\
    (ds <> EmptyString ->
     exists n, parse_digits (list_byte_of_string ds) acc false = Some n).
Proof.
  unfold all_digits. induction ds as [|c ds IH]; intros Hd acc.
  - split; [by exists acc | done].
  - cbn [str_forall] in Hd. apply andb_prop in Hd as [Hc Hds].
    destruct (digit_props c Hc) as (_ & d & Hv & Hd0).
    change (list_byte_of_string (String c ds))
      with (byte_of_ascii c :: list_byte_of_string ds).
    cbn [parse_digits]. rewrite Hv.
    destruct (IH Hds (10 * acc + d)) as [Ht _].
    split; [done | by intros _].
Qed.

(** What [parse_size] does with a number that has white space around it
    and is followed by letters of the suffix. *)
Lemma parse_size_core (pre ds suf post : string) :
  ds <> EmptyString -> all_digits ds = true ->
  all_space pre = true -> all_space post = true ->
  str_forall (fun c => is_unit c || is_b c) suf = true ->
  parse_size (pre ++ ds ++ suf ++ post) =
  match match_suffix suf with
  | Some group2 =>
      if (int_max_str_digits <? String.length ds)%nat then ValueError
      else
        match parse_digits (list_byte_of_string ds) 0 false with
        | Some num => Size (num * multiplier (str_upper group2))
        | None => ValueError
        end
  | None => ArgumentTypeError
  end.
Proof.
  intros Hne Hd Hpre Hpost Hsuf. unfold parse_size, str_strip.
  rewrite lstrip_spaces by done.
  assert (Hl : str_lstrip (ds ++ suf ++ post) = (ds ++ suf ++ post)%string).
  { destruct ds as [|c ds]; [done|]. rewrite append_cons.
    unfold all_digits in Hd. cbn [str_lstrip str_forall] in *.
    apply andb_prop in Hd as [Hc _].
    by destruct (digit_props c Hc) as [-> _]. }
  rewrite Hl, <- string_app_assoc, rstrip_spaces by done.
  rewrite rstrip_no_space.
  2:{ rewrite str_forall_app. apply andb_true_intro. split.
      - eapply str_forall_impl; [|exact Hd]. intros c Hc.
        by destruct (digit_props c Hc) as [-> _].
      - eapply str_forall_impl; [|exact Hsuf]. intros c Hc.
        by destruct (letter_props c Hc) as [-> _]. }
  rewrite span_digits_app; [|done|].
  2:{ intros c r ->. cbn [str_forall] in Hsuf.
      apply andb_prop in Hsuf as [Hc _]. by apply (letter_props c). }
  destruct ds as [|c ds]; [done|]. done.
Qed.

Lemma append_nil_r (s : string) : (s ++ "")%string = s.
Proof.
  induction s as [|c s IH]; [done|]. rewrite append_cons. by rewrite IH.
Qed.

Lemma parse_size_digits (ds : string) :
  ds <> EmptyString -> all_digits ds = true ->
  parse_size ds =
    if (int_max_str_digits <? String.length ds)%nat then ValueError
    else
      match parse_digits (list_byte_of_string ds) 0 false with
      | Some num => Size (num * 1)
      | None => ValueError
      end.
Proof.
  intros Hne Hd.
  pose proof (parse_size_core "" ds "" "" Hne Hd eq_refl eq_refl eq_refl)
    as H.
  by rewrite append_nil, !append_nil_r in H.
Qed.

(** X16: white space around the argument is ignored, and a suffix scales
    the number: in any mix of upper and lower case, [K]/[KB], [M]/[MB],
    [G]/[GB] and [T]/[TB] multiply by the powers of 1024, and [B], [P]
    and [PB] multiply by 1, like no suffix at all.  A number of at most
    4300 digits is always accepted. *)
Theorem parse_size_suffix (pre ds suf post U : string) (m : Z) :
  ds <> EmptyString -> all_digits ds = true ->
  all_space pre = true -> all_space post = true ->
  (U, m) ∈ suffix_table -> str_upper suf = U ->
  parse_size (pre ++ ds ++ suf ++ post) = scale m (parse_size ds) /\
  ((String.length ds <= int_max_str_digits)%nat ->
   exists n, parse_size ds = Size n /\ 0 <= n).
Proof.
  intros Hne Hd Hpre Hpost Hin Hup.
  assert (Hsuf : str_forall (fun c => is_unit c || is_b c) suf = true /\
                 match_suffix suf = Some suf /\
                 multiplier (str_upper suf) = m).
  { unfold suffix_table in Hin.
    repeat (apply elem_of_cons in Hin as [Hin|Hin];
            [injection Hin as -> ->|]); [..|by apply elem_of_nil in Hin];
      destruct suf as [|c [|b [|x suf]]]; cbn [str_upper] in Hup;
      try discriminate Hup; try injection Hup as Hc Hb;
      try injection Hup as Hc;
      unfold match_suffix, strip_opt, is_unit, is_b;
      cbn [str_forall str_upper];
      do 3 (rewrite ?Hc, ?Hb; cbn -[upper String.append]);
      repeat split; reflexivity. }
  destruct Hsuf as (Hl & Hm & Hmult).
  rewrite (parse_size_core pre ds suf post) by done.
  rewrite (parse_size_digits ds) by done. rewrite Hm, Hmult.
  destruct (parse_digits_digits ds Hd 0) as [_ Hnum].
  destruct (Hnum Hne) as [num Hparse]. rewrite Hparse.
  split.
  - destruct (_ <? _)%nat; [done|]. cbn [scale]. by rewrite Z.mul_1_r.
  - intros Hlen. apply Nat.ltb_ge in Hlen. rewrite Hlen.
    exists (num * 1). split; [done|].
    apply parse_digits_nonneg in Hparse; lia.
Qed.

Lemma parse_size_suffix_witness :
  parse_size (" " ++ size_256 ++ "mb" ++ "") = Size (256 * 1048576) /\
  parse_size (" " ++ size_256 ++ "Pb" ++ "") = Size 256.
Proof.
  assert (Hne : size_256 <> EmptyString) by discriminate.
  split.
  - destruct (parse_size_suffix " " size_256 "mb" "" "MB" 1048576)
      as [-> _]; [exact Hne | reflexivity | reflexivity | reflexivity
                 | do 5 apply list_elem_of_further; apply list_elem_of_here
                 | reflexivity |].
    reflexivity.
  - destruct (parse_size_suffix " " size_256 "Pb" "" "PB" 1)
      as [-> _]; [exact Hne | reflexivity | reflexivity | reflexivity
                 | do 11 apply list_elem_of_further; apply list_elem_of_here
                 | reflexivity |].
    reflexivity.
Defined.

(** X17: [parse_size] never returns a negative size, and it accepts only
    arguments that, stripped of white space, begin with a digit: a sign, a
    fraction or an empty argument is refused. *)
Theorem parse_size_nonneg (s : string) (n : Z) :
  parse_size s = Size n ->
  0 <= n /\ exists c r, str_strip s = String c r /\ is_digit c = true.
Proof.
  unfold parse_size. destruct (span_digits (str_strip s)) as [ds rest] eqn:E.
  destruct ds as [|d ds]; [done|].
  destruct (match_suffix rest) as [g|]; [|done].
  destruct (_ <? _)%nat; [done|].
  destruct (parse_digits _ 0 false) as [num|] eqn:Hnum; [|done].
  intros [= <-]. apply parse_digits_nonneg in Hnum; [|lia]. split.
  - assert (0 <= multiplier (str_upper g)); [|lia].
    unfold multiplier. repeat destruct (String.prefix _ _); lia.
  - destruct (str_strip s) as [|c r]; [done|]. exists c, r. split; [done|].
    cbn [span_digits] in E. by destruct (is_digit c).
Qed.

Lemma parse_size_nonneg_witness :
  parse_size size_512mb = Size 536870912 /\
  0 <= 536870912 /\
  exists c r, str_strip size_512mb = String c r /\ is_digit c = true.
Proof.
  split; [reflexivity|].
  apply (parse_size_nonneg size_512mb 536870912). reflexivity.
Defined.

(** * Options that a run does not read, and options that bound a carve *)

Lemma bridge_ignores_chunk_size (p : FormatPlugin.t) (buf : bytes)
    (h w c c' : Z) :
  wf_plugin p ->
  FormatPlugin.fragmented_try_bridge p buf h w c =
  FormatPlugin.fragmented_try_bridge p buf h w c'.
Proof.
  intros Hp. by destruct (wf_plugin_cases p Hp) as [->|[->| ->]].
Qed.

Lemma scan_loop_chunk_size (o : CarveOptions) (ps : list FormatPlugin.t)
    (c : Z) (plugin : FormatPlugin.t) (buf : bytes) :
  wf_plugin plugin ->
  forall fuel off st,
    scan_loop {| opts := with_fragmented o (fragmented o) c; plugins := ps |}
      fuel plugin buf None 0 off st =
    scan_loop {| opts := o; plugins := ps |} fuel plugin buf None 0 off st.
Proof.
  intros Hp. induction fuel as [|fuel IH]; intros off st; [done|].
  cbn [scan_loop]. destruct (negb (off <? len buf)); [done|].
  destruct (FormatPlugin.headers plugin) as [|magic rest]; [done|].
  destruct (find_from buf magic off =? -1); [done|].
  set (h := find_from buf magic off).
  change (scan_window
            {| opts := with_fragmented o (fragmented o) c; plugins := ps |})
    with (scan_window {| opts := o; plugins := ps |}).
  set (w := scan_window {| opts := o; plugins := ps |} plugin).
  cbn [opts with_fragmented fragmented chunk_size max_size embedded_depth].
  rewrite (bridge_ignores_chunk_size plugin buf h w c (chunk_size o) Hp).
  destruct (if _ && _ then _ else _) as [e uf].
  destruct (negb (e =? -1)); [|apply IH].
  destruct ((e - h <=? 0) || (e - h >? max_size o)); [apply IH|].
  cbn [call_validate _emit_file append_record records sink validations
       opts with_fragmented out_dir].
  destruct (embedded_depth o >? 0).
  - rewrite scan_memory_fragmented_irrelevant.
    destruct (_scan_memory_for_embedded _ _ _ _ _ _); cbn [mbind result_bind];
      [apply IH | done ..].
  - cbn [mbind result_bind]. apply IH.
Qed.

(** X18: [chunk_size] has no effect: a run gives the same records, files
    and validator calls (or the same [KeyError]) whatever its value,
    because no bridge reads it. *)
Theorem chunk_size_irrelevant (image : bytes) (o : CarveOptions) (c : Z) :
  run image (with_fragmented o (fragmented o) c) = run image o.
Proof.
  unfold run, Carver_init. cbn [formats with_fragmented].
  destruct (mapM _ (formats o)) as [ps|] eqn:E; [|done].
  cbn [mbind result_bind]. unfold _scan. cbn [plugins].
  apply mapM_Some in E.
  assert (Hps : Forall wf_plugin ps).
  { clear -E. induction E as [|f p fs ps Hfp _ IH]; constructor; [|done].
    by apply registry_lookup in Hfp as [_ ?]. }
  apply for_each_ext_in. intros plugin st Hin.
  rewrite Forall_forall in Hps. apply scan_loop_chunk_size. by apply Hps.
Qed.

Lemma jpeg_find_footer_window (buf : bytes) (h w e : Z) :
  0 <= h -> 0 <= w ->
  JPEGPlugin.find_footer buf h w = e -> e <> -1 -> e <= h + w.
Proof.
  intros Hh Hw <-. unfold JPEGPlugin.find_footer, find_range.
  pose proof (find_window buf JPEGPlugin.EOI (h + 2) (h + w)
                ltac:(lia) ltac:(lia) ltac:(done)) as Hf.
  cbn zeta in Hf. set (r0 := find _ _) in *.
  destruct Hf as [[-> _]|[Hr [(_ & Hfit & Hocc) _]]]; [done|].
  destruct (Z.eqb_spec r0 (-1)); [lia|]. intros _.
  apply occ_length in Hocc; [|done]. cbn [length JPEGPlugin.EOI] in Hocc.
  change (len JPEGPlugin.EOI) with 2 in Hfit.
  assert (Hs : clamp_index (len buf) (h + 2) = h + 2).
  { unfold clamp_index, len. destruct (Z.ltb_spec (h + 2) 0); lia. }
  rewrite Hs. destruct (Z.eqb_spec (h + 2 + r0) (-1)); cbn [negb]; lia.
Qed.

Lemma pdf_find_footer_window (buf : bytes) (h w e : Z) :
  0 <= h -> 0 <= w ->
  PDFPlugin.find_footer buf h w = e -> e <> -1 -> e <= h + w.
Proof.
  intros Hh Hw <-. unfold PDFPlugin.find_footer.
  pose proof (rfind_window buf PDFPlugin.EOF h (h + w)
                Hh ltac:(lia) ltac:(done)) as Hf.
  cbn zeta in Hf. set (r0 := rfind _ _) in *.
  change (len PDFPlugin.EOF) with 5 in *.
  destruct Hf as [[-> _]|[Hr [(_ & Hfit & _) _]]]; [done|].
  change (len PDFPlugin.EOF) with 5 in Hfit.
  destruct (Z.eqb_spec r0 (-1)); lia.
Qed.

(** X19: the scan window of a format bounds its carves: when no scan
    window is negative, a JPEG or PDF record is never larger than the scan
    window of its format ([max_size] where the format has none). *)
Theorem scan_window_bounds_size (image : bytes) (o : CarveOptions) :
  Forall (fun f => is_Some (FORMAT_PLUGINS !! f)) (formats o) ->
  (forall f w, scan_windows o !! f = Some w -> 0 <= w) ->
  exists st, run image o = Ok st /\
    forall r, r ∈ records st -> CarveRecord.fmt r <> "zip"%string ->
      CarveRecord.size r
        <= default (max_size o) (scan_windows o !! CarveRecord.fmt r).
Proof.
  intros Hreg Hwin.
  destruct (run_entries image o Hreg) as (st & ps & Hrun & Hwf & Hall).
  exists st. split; [done|]. intros r Hin Hnz.
  apply list_elem_of_lookup in Hin as [i Hi].
  destruct (Forall3_lookup_l _ _ _ _ _ _ Hall Hi) as (w0 & v & _ & _ & He).
  rewrite Forall_forall in Hwf.
  assert (Hcase : exists plugin view h e,
            wf_plugin plugin /\ 0 <= h /\ 0 < e - h <= max_size o /\
            CarveRecord.fmt r = FormatPlugin.fmt plugin /\
            CarveRecord.size r = e - h /\
            e = FormatPlugin.find_footer plugin view h
                  (scan_window {| opts := o; plugins := ps |} plugin)).
  { destruct He as [Htop|(parent & pw & pv & _ & _ & Hemb)].
    - destruct Htop as (plugin & magic & rest & h & e & uf & Hp & Hhd & Hh
                        & Hocc & Hloc & Hsz & _ & _ & ->).
      apply Hwf in Hp. exists plugin, image, h, e. cbn.
      repeat (split; [done|]).
      destruct Hloc as [(_ & ? & _)|(_ & _ & Hfoot & Hb & Hne)]; [done|].
      exfalso. cbn in Hnz.
      destruct (wf_plugin_cases plugin Hp) as [->|[->| ->]]; [| |done];
        injection Hhd as <- <-; apply Hne; rewrite Hb.
      + by apply jpeg_bridge_redundant.
      + by apply pdf_bridge_redundant.
    - destruct Hemb as (plugin & magic & rest & h & e & Hp & _ & _ & Hh
                        & _ & Hl & _ & Hsz & _ & _ & ->).
      apply Hwf in Hp. exists plugin, pw.2, h, e. cbn in Hsz |- *.
      repeat (split; [done|]). done. }
  destruct Hcase as (plugin & view & h & e & Hp & Hh & Hsz & Hf & -> & He').
  rewrite Hf in Hnz |- *.
  assert (Hw : 0 <= scan_window {| opts := o; plugins := ps |} plugin).
  { unfold scan_window. cbn [opts].
    destruct (scan_windows o !! FormatPlugin.fmt plugin) as [w|] eqn:E;
      cbn [default]; [by apply (Hwin _ _ E) | lia]. }
  change (default (max_size o) (scan_windows o !! FormatPlugin.fmt plugin))
    with (scan_window {| opts := o; plugins := ps |} plugin).
  destruct (wf_plugin_cases plugin Hp) as [->|[->| ->]]; [| |done].
  - pose proof (jpeg_find_footer_window view h _ e Hh Hw (eq_sym He')). lia.
  - pose proof (pdf_find_footer_window view h _ e Hh Hw (eq_sym He')). lia.
Qed.

Lemma scan_window_bounds_size_witness :
  (Forall (fun f => is_Some (FORMAT_PLUGINS !! f))
     (formats all_formats_opts) /\
   forall f w, scan_windows all_formats_opts !! f = Some w -> 0 <= w) /\
  exists st, run pure_jpeg all_formats_opts = Ok st.
Proof.
  split; [split; [exact all_formats_registered
                 | exact default_windows_nonneg]|].
  destruct (scan_window_bounds_size pure_jpeg all_formats_opts
              all_formats_registered default_windows_nonneg)
    as (st & Hrun & _).
  exists st. exact Hrun.
Defined.

(** * Rows of the CSV index *)

Lemma count_char_app (c : ascii) (s t : string) :
  count_char c (s ++ t) = (count_char c s + count_char c t)%nat.
Proof.
  induction s as [|x s IH]; [done|].
  rewrite append_cons. cbn [count_char]. rewrite IH. lia.
Qed.

Lemma count_char_forall (p : ascii -> bool) (c : ascii) (s : string) :
  str_forall p s = true -> p c = false -> count_char c s = 0%nat.
Proof.
  intros Hs Hc. induction s as [|x s IH]; [done|].
  cbn [str_forall] in Hs. apply andb_prop in Hs as [Hx Hs].
  cbn [count_char]. rewrite IH by done.
  destruct (Ascii.eqb_spec x c) as [->|]; [congruence|done].
Qed.

Lemma all_hex_forall (s : string) : all_hex s = str_forall is_hex_digit s.
Proof. induction s as [|x s IH]; [done|]. cbn. by rewrite IH. Qed.

Lemma uint_chars (u : Decimal.uint) :
  str_forall is_dec_char (DecimalString.NilEmpty.string_of_uint u) = true.
Proof. induction u; cbn; done. Qed.

Lemma str_of_int_chars (z : Z) : str_forall is_dec_char (str_of_int z) = true.
Proof.
  unfold str_of_int. destruct (Z.to_int z) as [u|u];
    cbn [DecimalString.NilEmpty.string_of_int]; [apply uint_chars|].
  cbn [str_forall]. by rewrite uint_chars.
Qed.

Lemma count_str_of_int (c : ascii) (z : Z) :
  separator c -> count_char c (str_of_int z) = 0%nat.
Proof.
  intros Hc. apply (count_char_forall is_dec_char); [apply str_of_int_chars|].
  by destruct Hc as [->| ->].
Qed.

Lemma count_hex (c : ascii) (w : nat) (h : Z) :
  separator c -> count_char c (hex w h) = 0%nat.
Proof.
  intros Hc. apply (count_char_forall is_hex_digit).
  - rewrite <- all_hex_forall. apply all_hex_hex.
  - by destruct Hc as [->| ->].
Qed.

Lemma count_fmt (c : ascii) (F : string) :
  separator c -> registered F ->
  count_char c F = 0%nat /\ count_char c (extension F) = 0%nat.
Proof. by intros [->| ->] [->|[->| ->]]. Qed.

(** The separators of a row of a record that a run appends. *)
Lemma entry_csv (self : Carver) (image : bytes) (r : CarveRecord.t)
    (w : string * bytes) (v : FormatPlugin.t * bytes) (c : ascii) :
  Forall wf_plugin (plugins self) -> separator c ->
  entry_ok self image r w v ->
  count_char c (csv_row r) =
    ((if Ascii.eqb c "," then 7 else 1)
     + count_char c (out_dir (opts self)))%nat.
Proof.
  intros Hwf Hc He. rewrite Forall_forall in Hwf.
  assert (Hshape : exists F name parent note,
            registered F /\ CarveRecord.fmt r = F /\
            CarveRecord.out_path r = artifact_path self F name /\
            count_char c name = 0%nat /\
            or_empty (CarveRecord.embedded_parent r) = parent /\
            count_char c parent = 0%nat /\
            or_empty (CarveRecord.notes r) = note /\
            count_char c note = 0%nat).
  { destruct He as [Htop|(parent & pw & pv & Htop & _ & Hemb)].
    - destruct Htop as (plugin & magic & rest & h & e & uf & Hp & _ & _ & _
                        & _ & _ & _ & -> & ->).
      apply Hwf, wf_registered in Hp.
      destruct (count_fmt c _ Hc Hp) as [Hf _].
      eexists _, _, _, _. cbn. split; [exact Hp|].
      repeat (split; [reflexivity|]).
      split; [|split; [reflexivity|split; [reflexivity|]]].
      + unfold FormatPlugin.candidate_name.
        rewrite !count_char_app, Hf, count_hex by done.
        by destruct Hc as [->| ->].
      + split; [reflexivity|]. by destruct uf, Hc as [->| ->].
    - destruct Htop as (pp & pm & prest & ph & pe & puf & Hpp & _ & _ & _
                        & _ & _ & _ & _ & ->).
      destruct Hemb as (plugin & magic & rest & h & e & Hp & _ & _ & _ & _
                        & _ & _ & _ & _ & -> & ->).
      apply Hwf, wf_registered in Hp. apply Hwf, wf_registered in Hpp.
      destruct (count_fmt c _ Hc Hp) as [Hf _].
      destruct (count_fmt c _ Hc Hpp) as [Hpf _].
      assert (Hpn : count_char c
                (record_name
                   {| CarveRecord.fmt := FormatPlugin.fmt pp;
                      CarveRecord.start := ph;
                      CarveRecord.end_ := pe;
                      CarveRecord.size := pe - ph;
                      CarveRecord.out_path := pw.1;
                      CarveRecord.validated :=
                        FormatPlugin.validate pp (slice image ph pe);
                      CarveRecord.embedded_parent := None;
                      CarveRecord.notes :=
                        if puf then Some "fragmented-bridge"%string
                        else None |}) = 0%nat).
      { unfold record_name. cbn [CarveRecord.fmt CarveRecord.start].
        rewrite !count_char_app, Hpf, count_hex by done.
        by destruct Hc as [->| ->]. }
      eexists _, _, _, _. cbn -[record_name]. split; [exact Hp|].
      repeat (split; [reflexivity|]).
      split; [|split; [reflexivity|split; [exact Hpn|]]].
      + rewrite !count_char_app, Hpn, Hf, count_hex by done.
        by destruct Hc as [->| ->].
      + split; [reflexivity|]. by destruct Hc as [->| ->]. }
  destruct Hshape as (F & name & parent & note & HF & Hfmt & Hpath & Hname
                      & Hpar & Hparc & Hnote & Hnotec).
  destruct (count_fmt c F Hc HF) as [Hf Hext].
  unfold csv_row. rewrite Hfmt, Hpath, Hpar, Hnote. unfold artifact_path.
  rewrite !count_char_app, !count_str_of_int, Hf, Hext, Hname, Hparc, Hnotec
    by done.
  destruct Hc as [->| ->]; cbn; lia.
Qed.

(** X20: [index.csv] is written without quoting: apart from the commas
    and line feeds that [out_dir] itself holds, the row of every record
    has exactly seven commas and one line feed, so with a plain [out_dir]
    every row is one line of eight fields. *)
Theorem csv_rows_well_formed (image : bytes) (o : CarveOptions) :
  Forall (fun f => is_Some (FORMAT_PLUGINS !! f)) (formats o) ->
  exists st, run image o = Ok st /\
    forall r, r ∈ records st ->
      count_char "," (csv_row r) = (7 + count_char "," (out_dir o))%nat /\
      count_char "010" (csv_row r)
        = (1 + count_char "010" (out_dir o))%nat.
Proof.
  intros Hreg.
  destruct (run_entries image o Hreg) as (st & ps & Hrun & Hwf & Hall).
  exists st. split; [done|]. intros r Hin.
  apply list_elem_of_lookup in Hin as [i Hi].
  destruct (Forall3_lookup_l _ _ _ _ _ _ Hall Hi) as (w & v & _ & _ & He).
  split.
  - exact (entry_csv {| opts := o; plugins := ps |} image r w v ","
             Hwf (or_introl eq_refl) He).
  - exact (entry_csv {| opts := o; plugins := ps |} image r w v "010"
             Hwf (or_intror eq_refl) He).
Qed.

Lemma csv_rows_well_formed_witness :
  Forall (fun f => is_Some (FORMAT_PLUGINS !! f))
    (formats (with_embedded_depth all_formats_opts 1)) /\
  exists st, run nested_image (with_embedded_depth all_formats_opts 1)
             = Ok st.
Proof.
  split; [exact all_formats_registered|].
  destruct (csv_rows_well_formed nested_image
              (with_embedded_depth all_formats_opts 1)
              all_formats_registered) as (st & Hrun & _).
  exists st. exact Hrun.
Defined.

(** * No header is missed *)

Lemma find_from_first (b sub : bytes) (off : Z) :
  sub <> [] -> 0 <= off ->
  (find_from b sub off = -1 /\
   forall h, off <= h -> ~ occ b sub (Z.to_nat h)) \/
  (off <= find_from b sub off /\
   occ b sub (Z.to_nat (find_from b sub off)) /\
   forall h, off <= h -> occ b sub (Z.to_nat h) -> find_from b sub off <= h).
Proof.
  intros Hne Hoff. unfold find_from, find_range.
  pose proof (find_window b sub off (len b) Hoff ltac:(unfold len; lia) Hne)
    as Hw.
  cbn zeta in Hw. rewrite Z.min_id in Hw. set (r := find _ _) in *.
  assert (Hin : forall h, off <= h -> occ b sub (Z.to_nat h) ->
                  occurs_within b sub off (len b) h).
  { intros h Hh Ho. split; [done|]. split; [|done].
    pose proof (occ_length _ _ _ Ho Hne). unfold len. lia. }
  destruct Hw as [[Hr Hnone]|[Hr [Hocc Hmin]]].
  - left. rewrite Hr. split; [done|]. intros h Hh Ho.
    by apply (Hnone h), Hin.
  - right. destruct (Z.eqb_spec r (-1)); [lia|].
    destruct Hocc as (_ & Hfit & Ho).
    pose proof (len_pos sub Hne).
    assert (Hs : clamp_index (len b) off = off).
    { unfold clamp_index. destruct (Z.ltb_spec off 0); lia. }
    rewrite Hs. split; [lia|]. split; [done|].
    intros h Hh Hoh. by apply Hmin, Hin.
Qed.

Lemma covered_mono (l l' : list CarveRecord.t) (p : option string)
    (f : string) (h : Z) :
  (forall r, r ∈ l -> r ∈ l') -> covered l p f h -> covered l' p f h.
Proof.
  intros Hsub (r & Hr & ?). exists r. split; [by apply Hsub | done].
Qed.

Lemma scan_loop_complete (self : Carver) (plugin : FormatPlugin.t)
    (buf : bytes) :
  wf_plugin plugin -> Forall wf_plugin (plugins self) ->
  forall (fuel : nat) (off : Z) (st st' : CarverState),
    0 <= off ->
    scan_loop self fuel plugin buf None 0 off st = Ok st' ->
    (forall r, r ∈ records st -> r ∈ records st') /\
    forall magic rest h,
      FormatPlugin.headers plugin = magic :: rest ->
      off <= h -> occ buf magic (Z.to_nat h) ->
      carvable (opts self) plugin buf h ->
      covered (records st') None (FormatPlugin.fmt plugin) h.
Proof.
  intros (_ & magic & rest & Hhd & Hne) Hwf.
  induction fuel as [|fuel IH]; intros off st st' Hoff Hrun; [done|].
  cbn [scan_loop] in Hrun. rewrite Hhd in Hrun.
  destruct (Z.ltb_spec off (len buf)) as [Hlt|Hge]; cbn [negb] in Hrun.
  2:{ injection Hrun as <-. split; [done|].
      intros m rs h Hm Hh Ho _. rewrite Hhd in Hm.
      injection Hm as <- <-. exfalso.
      pose proof (occ_length _ _ _ Ho Hne). pose proof (len_pos magic Hne).
      unfold len in *. lia. }
  destruct (find_from_first buf magic off Hne Hoff)
    as [[Hnone Hno]|(Hle & Hocc & Hmin)].
  { rewrite Hnone in Hrun. injection Hrun as <-. split; [done|].
    intros m rs h Hm Hh Ho _. rewrite Hhd in Hm.
      injection Hm as <- <-. by destruct (Hno h Hh). }
  set (h0 := find_from buf magic off) in *.
  destruct (Z.eqb_spec h0 (-1)) as [|_]; [lia|].
  assert (Hskip : ~ carvable (opts self) plugin buf h0 ->
            scan_loop self fuel plugin buf None 0 (h0 + 1) st = Ok st' ->
            (forall r, r ∈ records st -> r ∈ records st') /\
            forall m rs h,
              FormatPlugin.headers plugin = m :: rs ->
              off <= h -> occ buf m (Z.to_nat h) ->
              carvable (opts self) plugin buf h ->
              covered (records st') None (FormatPlugin.fmt plugin) h).
  { intros Hnc Hr. apply IH in Hr as [Hsub Hcov]; [|lia].
    split; [done|]. intros m rs h Hm Hh Ho Hc.
    pose proof Hm as Hm'. rewrite Hhd in Hm'. injection Hm' as <- <-.
    pose proof (Hmin h Hh Ho).
    destruct (Z.eq_dec h h0) as [->|]; [done|].
    apply (Hcov magic rest); [done|lia|done|done]. }
  destruct (if _ && _ then _ else _) as [e uf] eqn:Hpair.
  assert (He : e = carve_end (opts self) plugin buf h0).
  { unfold carve_end. fold (scan_window self plugin).
    cbn zeta. destruct (_ && _); by injection Hpair as <- _. }
  clear Hpair.
  destruct (Z.eqb_spec e (-1)) as [He1|He1]; cbn [negb] in Hrun.
  { apply Hskip; [|done]. intros [Hc _]. congruence. }
  destruct (Z.leb_spec (e - h0) 0) as [Hs0|Hs0]; cbn [orb] in Hrun.
  { apply Hskip; [|done]. intros [_ Hc]. lia. }
  destruct (Z.gtb_spec (e - h0) (max_size (opts self))) as [Hs1|Hs1].
  { apply Hskip; [|done]. intros [_ Hc]. lia. }
  clear Hskip.
  cbn [call_validate _emit_file append_record records sink validations]
    in Hrun.
  match type of Hrun with
  | context [append_record ?r ?s] =>
      set (rec := r) in *; set (st1 := append_record rec s) in *
  end.
  assert (Hemb : exists st2,
            scan_loop self fuel plugin buf None 0 e st2 = Ok st' /\
            forall r, r ∈ records st1 -> r ∈ records st2).
  { destruct (embedded_depth (opts self) >? 0).
    - destruct (scan_memory_trace self plugin (slice buf h0 e) (0 + 1)
                  (FormatPlugin.candidate_name plugin buf h0) st1 Hwf)
        as (nr & ns & nv & Hm & _).
      rewrite Hm in Hrun. cbn [mbind result_bind] in Hrun.
      eexists. split; [exact Hrun|]. intros r Hr. cbn [extend records].
      apply elem_of_app. by left.
    - cbn [mbind result_bind] in Hrun. by exists st1. }
  destruct Hemb as (st2 & Hrun2 & Hsub2).
  apply IH in Hrun2 as [Hsub Hcov]; [|lia].
  assert (Hrec : rec ∈ records st').
  { apply Hsub, Hsub2. subst st1. cbn [append_record records].
    apply elem_of_app. right. by left. }
  split.
  - intros r Hr. apply Hsub, Hsub2. subst st1. cbn [append_record records].
    apply elem_of_app. by left.
  - intros m rs h Hm Hh Ho Hc.
    pose proof Hm as Hm'. rewrite Hhd in Hm'. injection Hm' as <- <-.
    pose proof (Hmin h Hh Ho).
    destruct (Z_lt_le_dec h e) as [Hin|Hout].
    + exists rec. split; [done|]. subst rec. cbn. repeat split; try done.
    + apply (Hcov magic rest); [done|lia|done|done].
Qed.

Lemma scan_plugins_complete (self : Carver) (buf : bytes)
    (qs : list FormatPlugin.t) :
  Forall wf_plugin (plugins self) -> Forall wf_plugin qs ->
  forall st st',
    for_each qs
      (fun plugin st => scan_loop self (S (length buf)) plugin buf None 0 0 st)
      st = Ok st' ->
    (forall r, r ∈ records st -> r ∈ records st') /\
    forall plugin magic rest h,
      plugin ∈ qs -> FormatPlugin.headers plugin = magic :: rest ->
      0 <= h -> occ buf magic (Z.to_nat h) ->
      carvable (opts self) plugin buf h ->
      covered (records st') None (FormatPlugin.fmt plugin) h.
Proof.
  intros Hwf. induction qs as [|q qs IH]; intros Hwq st st' Hrun.
  { injection Hrun as <-. split; [done|]. intros p m rs h Hp.
    by apply elem_of_nil in Hp. }
  apply Forall_cons in Hwq as [Hq Hwq]. cbn [for_each] in Hrun.
  destruct (scan_loop _ _ _ _ _ _ _ _) as [st1| |] eqn:E1;
    cbn [mbind result_bind] in Hrun; [|done..].
  apply scan_loop_complete in E1 as [Hsub1 Hcov1]; [|done..|lia].
  destruct (IH Hwq _ _ Hrun) as [Hsub Hcov].
  split; [by intros r Hr; apply Hsub, Hsub1|].
  intros p m rs h Hp Hm Hh Ho Hc.
  apply elem_of_cons in Hp as [->|Hp].
  - apply (covered_mono (records st1)); [done|].
    by apply (Hcov1 m rs).
  - by apply (Hcov p m rs).
Qed.

(** X21: no header is missed.  For every requested format, every offset
    of the image that carries the header signature and whose carve attempt
    would succeed (an end is found and the size is accepted) lies in a
    top-level record of that format: it is the start of one, or it was
    skipped because it is inside one. *)
Theorem no_header_missed (image : bytes) (o : CarveOptions) :
  Forall (fun f => is_Some (FORMAT_PLUGINS !! f)) (formats o) ->
  exists st, run image o = Ok st /\
    forall f plugin magic rest h,
      f ∈ formats o -> FORMAT_PLUGINS !! f = Some plugin ->
      FormatPlugin.headers plugin = magic :: rest ->
      0 <= h -> occ image magic (Z.to_nat h) ->
      carvable o plugin image h ->
      exists r, r ∈ records st /\ CarveRecord.embedded_parent r = None /\
        CarveRecord.fmt r = f /\
        CarveRecord.start r <= h < CarveRecord.end_ r.
Proof.
  intros Hreg.
  destruct (run_trace image o Hreg) as (st & _ & Hrun & _).
  exists st. split; [done|].
  destruct (Carver_init_ok o Hreg) as (ps & Hinit & Hwf & Hfmt).
  unfold run in Hrun. rewrite Hinit in Hrun.
  cbn [mbind result_bind] in Hrun. unfold _scan in Hrun.
  cbn [plugins] in Hrun.
  apply (scan_plugins_complete {| opts := o; plugins := ps |}) in Hrun
      as [_ Hcov]; [|done..].
  intros f plugin magic rest h Hf Hp Hm Hh Ho Hc.
  rewrite <- Hfmt in Hf. apply list_elem_of_fmap in Hf as (p & -> & Hin).
  rewrite Forall_forall in Hwf. destruct (Hwf p Hin) as [Hpp _].
  rewrite Hpp in Hp. injection Hp as <-.
  exact (Hcov p magic rest h Hin Hm Hh Ho Hc).
Qed.

Lemma no_header_missed_witness :
  Forall (fun f => is_Some (FORMAT_PLUGINS !! f)) (formats all_formats_opts) /\
  exists st, run two_jpegs all_formats_opts = Ok st.
Proof.
  split; [exact all_formats_registered|].
  destruct (no_header_missed two_jpegs all_formats_opts
              all_formats_registered) as (st & Hrun & _).
  exists st. exact Hrun.
Defined.

(** * The embedded scan misses nothing *)

Lemma embedded_loop_complete (self : Carver) (plugin : FormatPlugin.t)
    (data : bytes) (pname : string) :
  wf_plugin plugin ->
  forall (fuel : nat) (off : Z) (st st' : CarverState),
    0 <= off ->
    embedded_loop self fuel plugin data pname off st = Ok st' ->
    (forall r, r ∈ records st -> r ∈ records st') /\
    forall magic rest h,
      FormatPlugin.headers plugin = magic :: rest ->
      off <= h -> occ data magic (Z.to_nat h) ->
      embedded_carvable (opts self) plugin data h ->
      covered (records st') (Some pname) (FormatPlugin.fmt plugin) h.
Proof.
  intros (_ & magic & rest & Hhd & Hne).
  induction fuel as [|fuel IH]; intros off st st' Hoff Hrun; [done|].
  cbn [embedded_loop] in Hrun. rewrite Hhd in Hrun.
  destruct (find_from_first data magic off Hne Hoff)
    as [[Hnone Hno]|(Hle & Hocc & Hmin)].
  { rewrite Hnone in Hrun. injection Hrun as <-. split; [done|].
    intros m rs h Hm Hh Ho _. rewrite Hhd in Hm.
    injection Hm as <- <-. by destruct (Hno h Hh). }
  set (h0 := find_from data magic off) in *.
  destruct (Z.eqb_spec h0 (-1)) as [|_]; [lia|].
  fold (scan_window self plugin) in *.
  set (e := FormatPlugin.find_footer plugin data h0 (scan_window self plugin))
    in *.
  destruct (negb (e =? -1) && (0 <? e - h0)
            && (e - h0 <=? max_size (opts self))) eqn:Hc.
  - apply andb_true_iff in Hc as [Hc _].
    apply andb_true_iff in Hc as [_ Hc2]. apply Z.ltb_lt in Hc2.
    cbn [call_validate _emit_file append_record records sink validations]
      in Hrun.
    match type of Hrun with
    | context [append_record ?r ?s] =>
        set (rec := r) in *; set (st1 := append_record rec s) in *
    end.
    apply IH in Hrun as [Hsub Hcov]; [|lia].
    assert (Hrec : rec ∈ records st').
    { apply Hsub. subst st1. cbn [append_record records].
      apply elem_of_app. right. by left. }
    split.
    + intros r Hr. apply Hsub. subst st1. cbn [append_record records].
      apply elem_of_app. by left.
    + intros m rs h Hm Hh Ho Hcv.
      pose proof Hm as Hm'. rewrite Hhd in Hm'. injection Hm' as <- <-.
      pose proof (Hmin h Hh Ho).
      destruct (Z_lt_le_dec h e) as [Hin|Hout].
      * exists rec. split; [done|]. subst rec. cbn. repeat split; try done.
      * apply (Hcov magic rest); [done|lia|done|done].
  - apply IH in Hrun as [Hsub Hcov]; [|lia]. split; [done|].
    intros m rs h Hm Hh Ho Hcv.
    pose proof Hm as Hm'. rewrite Hhd in Hm'. injection Hm' as <- <-.
    pose proof (Hmin h Hh Ho).
    destruct (Z.eq_dec h h0) as [->|]; [|apply (Hcov magic rest);
                                           [done|lia|done|done]].
    exfalso. destruct Hcv as [Hc1 Hc2]. cbn zeta in Hc1, Hc2.
    fold (scan_window self plugin) in Hc1, Hc2. fold e in Hc1, Hc2.
    apply andb_false_iff in Hc as [Hc|Hc];
      [apply andb_false_iff in Hc as [Hc|Hc]|].
    + apply negb_false_iff, Z.eqb_eq in Hc. done.
    + apply Z.ltb_ge in Hc. lia.
    + apply Z.leb_gt in Hc. lia.
Qed.

Lemma scan_memory_complete_gen (self : Carver) (parent : FormatPlugin.t)
    (data : bytes) (pname : string) (qs : list FormatPlugin.t) :
  Forall wf_plugin qs ->
  forall st st',
    for_each qs
      (fun plugin st =>
         if String.eqb (FormatPlugin.fmt plugin) (FormatPlugin.fmt parent)
         then Ok st
         else embedded_loop self (S (S (length data))) plugin data pname 0 st)
      st = Ok st' ->
    (forall r, r ∈ records st -> r ∈ records st') /\
    forall q magic rest h,
      q ∈ qs -> FormatPlugin.fmt q <> FormatPlugin.fmt parent ->
      FormatPlugin.headers q = magic :: rest ->
      0 <= h -> occ data magic (Z.to_nat h) ->
      embedded_carvable (opts self) q data h ->
      covered (records st') (Some pname) (FormatPlugin.fmt q) h.
Proof.
  induction qs as [|q0 qs IH]; intros Hwf st st' Hrun.
  { injection Hrun as <-. split; [done|]. intros q m rs h Hq.
    by apply elem_of_nil in Hq. }
  apply Forall_cons in Hwf as [Hq0 Hwf]. cbn [for_each] in Hrun.
  destruct (String.eqb_spec (FormatPlugin.fmt q0) (FormatPlugin.fmt parent))
    as [Heq|Hneq].
  - cbn [mbind result_bind] in Hrun.
    destruct (IH Hwf _ _ Hrun) as [Hsub Hcov]. split; [done|].
    intros q m rs h Hq Hf. apply elem_of_cons in Hq as [->|Hq]; [done|].
    by apply Hcov.
  - destruct (embedded_loop _ _ _ _ _ _ _) as [st1| |] eqn:E1;
      cbn [mbind result_bind] in Hrun; [|done..].
    apply embedded_loop_complete in E1 as [Hsub1 Hcov1]; [|done|lia].
    destruct (IH Hwf _ _ Hrun) as [Hsub Hcov].
    split; [by intros r Hr; apply Hsub, Hsub1|].
    intros q m rs h Hq Hf Hm Hh Ho Hc.
    apply elem_of_cons in Hq as [->|Hq].
    + apply (covered_mono (records st1)); [done|]. by apply (Hcov1 m rs).
    + by apply (Hcov q m rs).
Qed.

Lemma embedded_complete_mono (self : Carver) (buf : bytes)
    (l l' : list CarveRecord.t) (r : CarveRecord.t) :
  (forall x, x ∈ l -> x ∈ l') ->
  embedded_complete self buf l r -> embedded_complete self buf l' r.
Proof.
  intros Hsub Hc q m rs h Hq Hf Hm Hh Ho Hcv.
  apply (covered_mono l); [done|]. by apply (Hc q m rs).
Qed.

Lemma scan_loop_embedded_complete (self : Carver) (plugin : FormatPlugin.t)
    (buf : bytes) :
  wf_plugin plugin -> Forall wf_plugin (plugins self) ->
  0 < embedded_depth (opts self) ->
  forall (fuel : nat) (off : Z) (st st' : CarverState),
    0 <= off ->
    scan_loop self fuel plugin buf None 0 off st = Ok st' ->
    exists nr, records st' = records st ++ nr /\
      forall r, r ∈ nr -> CarveRecord.embedded_parent r = None ->
        embedded_complete self buf (records st') r.
Proof.
  intros (_ & magic & rest & Hhd & Hne) Hwf Hdepth.
  induction fuel as [|fuel IH]; intros off st st' Hoff Hrun; [done|].
  cbn [scan_loop] in Hrun. rewrite Hhd in Hrun.
  assert (Hstop : Ok st = Ok st' ->
            exists nr, records st' = records st ++ nr /\
              forall r, r ∈ nr -> CarveRecord.embedded_parent r = None ->
                embedded_complete self buf (records st') r).
  { intros [= <-]. exists []. rewrite app_nil_r. split; [done|].
    intros r Hr. by apply elem_of_nil in Hr. }
  destruct (Z.ltb_spec off (len buf)) as [Hlt|Hge]; cbn [negb] in Hrun;
    [|by apply Hstop].
  destruct (Z.eqb_spec (find_from buf magic off) (-1)) as [Hh|Hh];
    [by apply Hstop|]. clear Hstop.
  destruct (find_from_bounds buf magic off Hne Hoff Hh) as (Hle & Hfit & Ho).
  set (h0 := find_from buf magic off) in *.
  assert (Hskip : scan_loop self fuel plugin buf None 0 (h0 + 1) st = Ok st' ->
            exists nr, records st' = records st ++ nr /\
              forall r, r ∈ nr -> CarveRecord.embedded_parent r = None ->
                embedded_complete self buf (records st') r).
  { intros Hr. apply IH in Hr; [done|lia]. }
  destruct (if _ && _ then _ else _) as [e uf].
  destruct (Z.eqb_spec e (-1)) as [He|He]; cbn [negb] in Hrun;
    [by apply Hskip|].
  destruct (Z.leb_spec (e - h0) 0) as [Hs0|Hs0]; cbn [orb] in Hrun;
    [by apply Hskip|].
  destruct (e - h0 >? max_size (opts self)); [by apply Hskip|].
  clear Hskip.
  cbn [call_validate _emit_file append_record records sink validations]
    in Hrun.
  match type of Hrun with
  | context [append_record ?r ?s] =>
      set (rec := r) in *; set (st1 := append_record rec s) in *
  end.
  destruct (Z.gtb_spec (embedded_depth (opts self)) 0) as [_|]; [|lia].
  destruct (scan_memory_trace self plugin (slice buf h0 e) (0 + 1)
              (FormatPlugin.candidate_name plugin buf h0) st1 Hwf)
    as (er & es & ev & Hm & Hent).
  pose proof Hm as Hm'. unfold _scan_memory_for_embedded in Hm'.
  apply scan_memory_complete_gen in Hm' as [_ Hcov]; [|done].
  rewrite Hm in Hrun. cbn [mbind result_bind] in Hrun.
  apply IH in Hrun as (nr & Hrec & Hnr); [|lia].
  cbn [extend records] in Hrec, Hcov. subst st1.
  cbn [append_record records] in Hrec, Hcov.
  exists (rec :: er ++ nr).
  split; [rewrite Hrec; by rewrite <- !app_assoc|].
  intros r Hr Htop. apply elem_of_cons in Hr as [->|Hr].
  - apply (embedded_complete_mono self buf ((records st ++ [rec]) ++ er)).
    { intros x Hx. rewrite Hrec. apply elem_of_app. by left. }
    intros q m rs h Hq Hf Hmq Hh0 Hoq Hcq.
    exact (Hcov q m rs h Hq Hf Hmq Hh0 Hoq Hcq).
  - apply elem_of_app in Hr as [Hr|Hr]; [|by apply Hnr].
    exfalso. apply list_elem_of_lookup in Hr as [i Hi].
    destruct (Forall3_lookup_l _ _ _ _ _ _ Hent Hi) as (w' & v' & _ & _ & Hemb).
    destruct Hemb as (q & m & rs & h' & e' & _ & _ & _ & _ & _ & _ & _ & _
                      & _ & _ & ->). done.
Qed.

Lemma scan_plugins_embedded_complete (self : Carver) (buf : bytes)
    (qs : list FormatPlugin.t) :
  Forall wf_plugin (plugins self) -> Forall wf_plugin qs ->
  0 < embedded_depth (opts self) ->
  forall st st',
    for_each qs
      (fun plugin st => scan_loop self (S (length buf)) plugin buf None 0 0 st)
      st = Ok st' ->
    exists nr, records st' = records st ++ nr /\
      forall r, r ∈ nr -> CarveRecord.embedded_parent r = None ->
        embedded_complete self buf (records st') r.
Proof.
  intros Hwf Hwq Hd. induction qs as [|q qs IH]; intros st st' Hrun.
  { injection Hrun as <-. exists []. rewrite app_nil_r. split; [done|].
    intros r Hr. by apply elem_of_nil in Hr. }
  apply Forall_cons in Hwq as [Hq Hwq]. cbn [for_each] in Hrun.
  destruct (scan_loop _ _ _ _ _ _ _ _) as [st1| |] eqn:E1;
    cbn [mbind result_bind] in Hrun; [|done..].
  apply scan_loop_embedded_complete in E1 as (nr1 & Hr1 & Hc1); [|done..|lia].
  destruct (IH Hwq _ _ Hrun) as (nr2 & Hr2 & Hc2).
  exists (nr1 ++ nr2). split; [by rewrite Hr2, Hr1, app_assoc|].
  intros r Hr Htop. apply elem_of_app in Hr as [Hr|Hr]; [|by apply Hc2].
  apply (embedded_complete_mono self buf (records st1)); [|by apply Hc1].
  intros x Hx. rewrite Hr2. apply elem_of_app. by left.
Qed.

(** X22: with embedded scanning on, the scan of an artifact misses
    nothing: in the bytes [image[start:end]] of every top-level record,
    every offset that carries the header signature of another requested
    format, and from which [find_footer] locates an end with an accepted
    size, lies in a record of that format whose parent is the artifact. *)
Theorem embedded_scan_complete (image : bytes) (o : CarveOptions) :
  Forall (fun f => is_Some (FORMAT_PLUGINS !! f)) (formats o) ->
  0 < embedded_depth o ->
  exists st, run image o = Ok st /\
    forall parent f plugin magic rest h,
      parent ∈ records st -> CarveRecord.embedded_parent parent = None ->
      f ∈ formats o -> f <> CarveRecord.fmt parent ->
      FORMAT_PLUGINS !! f = Some plugin ->
      FormatPlugin.headers plugin = magic :: rest ->
      0 <= h ->
      occ (slice image (CarveRecord.start parent) (CarveRecord.end_ parent))
        magic (Z.to_nat h) ->
      embedded_carvable o plugin
        (slice image (CarveRecord.start parent) (CarveRecord.end_ parent)) h ->
      exists r, r ∈ records st /\
        CarveRecord.embedded_parent r = Some (record_name parent) /\
        CarveRecord.fmt r = f /\
        CarveRecord.start r <= h < CarveRecord.end_ r.
Proof.
  intros Hreg Hd.
  destruct (run_trace image o Hreg) as (st & _ & Hrun & _).
  exists st. split; [done|].
  destruct (Carver_init_ok o Hreg) as (ps & Hinit & Hwf & Hfmt).
  unfold run in Hrun. rewrite Hinit in Hrun.
  cbn [mbind result_bind] in Hrun. unfold _scan in Hrun.
  cbn [plugins] in Hrun.
  apply (scan_plugins_embedded_complete {| opts := o; plugins := ps |})
    in Hrun as (nr & Hrec & Hc); [|done..].
  cbn [initial_state records app] in Hrec. rewrite <- Hrec in Hc.
  intros parent f plugin magic rest h Hpar Htop Hf Hne Hp Hm Hh Ho Hcv.
  rewrite <- Hfmt in Hf. apply list_elem_of_fmap in Hf as (p & -> & Hin).
  rewrite Forall_forall in Hwf. destruct (Hwf p Hin) as [Hpp _].
  rewrite Hpp in Hp. injection Hp as <-.
  exact (Hc parent Hpar Htop p magic rest h Hin Hne Hm Hh Ho Hcv).
Qed.

Lemma embedded_scan_complete_witness :
  (Forall (fun f => is_Some (FORMAT_PLUGINS !! f))
     (formats (with_embedded_depth all_formats_opts 1)) /\
   0 < embedded_depth (with_embedded_depth all_formats_opts 1)) /\
  exists st, run nested_image (with_embedded_depth all_formats_opts 1)
             = Ok st.
Proof.
  split; [split; [exact all_formats_registered | reflexivity]|].
  destruct (embedded_scan_complete nested_image
              (with_embedded_depth all_formats_opts 1)
              all_formats_registered eq_refl) as (st & Hrun & _).
  exists st. exact Hrun.
Defined.
